(** * cotk: a shallow embedding of the utility, metaclass and dataloader code

    The development follows the Python sources
    - [cotk/_utils/utils.py]      (list helpers),
    - [cotk/_utils/metaclass.py]  (docstring inheritance, dynamic class lookup),
    - [cotk/dataloader/single_turn_dialog.py] (the single turn dialog loader),
    - [tests/scripts/test_scripts.py] (the CLI configuration test).

    Python lists are [list]s, [int]s are [Z], [str]s are [string]s, dicts
    whose iteration order matters are association lists, other dicts are
    [gmap]s, and a call that may raise returns a [result].  Objects whose
    [__doc__] is assigned are named by their identity, and their
    docstrings are kept in a store that the calls pass on. *)

From Stdlib Require Import ZArith Lia Ascii String.
From stdpp Require Import base decidable option list strings gmap.

Set Warnings "-clear-no-such-hyp".

Local Open Scope string_scope.
Local Open Scope list_scope.
Local Open Scope Z_scope.

(** ** Python values that are shared by all modules *)

Module Py.

(** The exception classes the modelled code raises or lets through. *)
Inductive exn : Type :=
  | ValueError (msg : string)
  | RuntimeError (msg : string)
  | KeyError (msg : string)
  | AttributeError (msg : string)
  | TypeError (msg : string)
  | IndexError (msg : string)
  | OSError (msg : string).

(** The outcome of a call: a value, a raised exception, or [OutOfFuel]
    when a loop that is run with a bound on its number of iterations was
    cut short (the Python loop would still be running). *)
Inductive result (A : Type) : Type :=
  | Ok (a : A)
  | Raise (e : exn)
  | OutOfFuel.
Arguments Ok {A} a.
Arguments Raise {A} e.
Arguments OutOfFuel {A}.

(** Sequencing: the first raised exception ends the computation. *)
#[export] Instance result_ret : MRet result := λ A a, Ok a.
#[export] Instance result_bind : MBind result := λ A B k r,
  match r with
  | Ok a => k a
  | Raise e => Raise e
  | OutOfFuel => OutOfFuel
  end.

(** [s.lower()] on ASCII text: the letters [A-Z] move to [a-z]. *)
Definition lower_ascii (c : ascii) : ascii :=
  let n := nat_of_ascii c in
  if ((65 <=? n) && (n <=? 90))%nat then ascii_of_nat (n + 32) else c.

Fixpoint lower (s : string) : string :=
  match s with
  | EmptyString => EmptyString
  | String c s' => String (lower_ascii c) (lower s')
  end.

(** [len(l)] as a Python [int]. *)
Definition len {A : Type} (l : list A) : Z := Z.of_nat (length l).

(** The bound computation of a slice index [i] on a sequence of length
    [n] (step 1): a negative index counts from the end, and the result is
    clamped to [0 .. n]. *)
Definition slice_bound (n i : Z) : Z :=
  if i <? 0 then Z.max (i + n) 0 else Z.min i n.

(** [l[start:stop]]. *)
Definition slice {A : Type} (l : list A) (start stop : Z) : list A :=
  let a := slice_bound (len l) start in
  let b := slice_bound (len l) stop in
  take (Z.to_nat (b - a)) (drop (Z.to_nat a) l).

(** [l[:stop]]. *)
Definition slice_to {A : Type} (l : list A) (stop : Z) : list A :=
  slice l 0 stop.

(** [l.index(x)]: the position of the first element equal to [x];
    [None] stands for the [ValueError] of a missing element. *)
Fixpoint index {A : Type} `{EqDecision A} (l : list A) (x : A) : option Z :=
  match l with
  | [] => None
  | y :: l' => if decide (y = x) then Some 0 else Z.succ <$> index l' x
  end.

End Py.

(** ** [cotk/_utils/utils.py] *)

Module Utils.
Import Py.

Section utils.
Context {A : Type} `{EqDecision A}.

(** [trim_before_target]: the [try] block either rebinds [lists] to the
    slice before the index of [target], or the [ValueError] of [index]
    is swallowed and [lists] is returned as it came. *)
Definition trim_before_target (lists : list A) (target : A) : list A :=
  match index lists target with
  | Some i => slice_to lists i
  | None => lists
  end.

(** [chain_sessions]: the sessions chained into one list, and the list
    of their lengths. *)
Definition chain_sessions (sessions : list (list A)) : list A * list Z :=
  let chained_sessions := concat sessions in
  let session_lengths := len <$> sessions in
  (chained_sessions, session_lengths).

(** The [for] loop of [restore_sessions], with its two loop variables
    [sessions] and [last]. *)
Fixpoint restore_sessions_loop (chained_sessions : list A)
    (session_lengths : list Z) (sessions : list (list A)) (last : Z)
    : list (list A) :=
  match session_lengths with
  | [] => sessions
  | session_length :: rest =>
      restore_sessions_loop chained_sessions rest
        (sessions ++ [slice chained_sessions last (last + session_length)])
        (last + session_length)
  end.

Definition restore_sessions (chained_sessions : list A)
    (session_lengths : list Z) : list (list A) :=
  restore_sessions_loop chained_sessions session_lengths [] 0.

(** [replace_unk]: the nested list comprehension. *)
Definition replace_unk (sentences : list (list A)) (unk_token : A)
    (target_token : A) : list (list A) :=
  (λ sentence : list A,
     (λ token : A,
        if decide (token = unk_token) then target_token else token)
       <$> sentence) <$> sentences.
End utils.

(** [replace_unk(sentences, unk_token)] on integer tokens: the default
    [target_token] is [-1]. *)
Definition replace_unk_default (sentences : list (list Z)) (unk_token : Z)
    : list (list Z) :=
  replace_unk sentences unk_token (-1).

End Utils.

(** ** [cotk/_utils/metaclass.py]: [LoadClassInterface] *)

Module LoadClass.
Import Py.

(** What [inspect.getfile] does for a class: it returns the file of the
    module of the class, or raises ([TypeError] for a built-in class,
    [OSError] for a class of a [__main__] that has no file). *)
Inductive getfile_outcome : Type :=
  | File (path : string)
  | NoFile (e : exn).

(** A class of a [LoadClassInterface] hierarchy: its identity as an
    object, its [__name__], what [inspect.getfile] does for it, and the
    list [__subclasses__()] of its direct subclasses.  A class with
    several bases is listed under each of them. *)
#[warnings="-register-all"]
Inductive klass : Type :=
  | Klass (cid : nat) (name : string) (getfile : getfile_outcome)
          (subclasses : list klass).

Definition cid (c : klass) : nat := let 'Klass i _ _ _ := c in i.
Definition name (c : klass) : string := let 'Klass _ n _ _ := c in n.
Definition getfile (c : klass) : getfile_outcome :=
  let 'Klass _ _ f _ := c in f.
Definition subclasses (c : klass) : list klass :=
  let 'Klass _ _ _ l := c in l.

(** [get_all_subclasses]: for each direct subclass, first everything its
    own generator yields, then the subclass itself. *)
Fixpoint get_all_subclasses (cls : klass) : list klass :=
  match cls with
  | Klass _ _ _ subs =>
      (fix over (l : list klass) : list klass :=
         match l with
         | [] => []
         | subclass :: l' =>
             get_all_subclasses subclass ++ [subclass] ++ over l'
         end) subs
  end.

Definition quote : string := String "034"%char EmptyString.
Definition tab : string := String "009"%char EmptyString.

(** The text of the [RuntimeError]: the format string of the source (its
    line continuation keeps the six tabs of the second line) filled with
    [class_name] and the two files. *)
Definition two_classes_message (class_name file1 file2 : string) : string :=
  "There are two classes with the name " +:+ quote +:+ class_name +:+ quote
  +:+ " located at " +:+ quote +:+ file1 +:+ quote
  +:+ " and " +:+ quote +:+ file2 +:+ quote +:+ ". "
  +:+ tab +:+ tab +:+ tab +:+ tab +:+ tab +:+ tab
  +:+ "You have to remove one of them to make " +:+ quote +:+ "load_class"
  +:+ quote +:+ " work normally.".

(** The [raise] of [load_class]: the arguments of [format] are
    evaluated from left to right, so [inspect.getfile(result)] comes
    first, then [inspect.getfile(subclass)]; when one of them raises,
    that exception leaves [load_class] and the [RuntimeError] is never
    built. *)
Definition two_classes_error (class_name : string) (result subclass : klass)
    : exn :=
  match getfile result with
  | NoFile e => e
  | File file1 =>
      match getfile subclass with
      | NoFile e => e
      | File file2 =>
          RuntimeError (two_classes_message class_name file1 file2)
      end
  end.

(** The [for] loop of [load_class] over what the generator yields, with
    the loop variable [result] ([None] at first). *)
Fixpoint load_class_loop (class_name : string) (subs : list klass)
    (result : option klass) : Py.result (option klass) :=
  match subs with
  | [] => Ok result
  | subclass :: rest =>
      if decide (lower (name subclass) = lower class_name) then
        match result with
        | None => load_class_loop class_name rest (Some subclass)
        | Some found => Raise (two_classes_error class_name found subclass)
        end
      else load_class_loop class_name rest result
  end.

Definition load_class (cls : klass) (class_name : string)
    : Py.result (option klass) :=
  load_class_loop class_name (get_all_subclasses cls) None.

(** A class matches [class_name] when the names agree in lower case. *)
Definition matches (class_name : string) (c : klass) : Prop :=
  lower (name c) = lower class_name.

#[export] Instance matches_dec class_name c : Decision (matches class_name c).
Proof. unfold matches. apply _. Defined.

(** A hierarchy used in the examples: [Dataloader] with the subclass
    [LanguageProcessing] (itself with two subclasses) and a second class
    named [mscoco] in another file. *)
Definition ex_root : klass :=
  Klass 0 "Dataloader" (File "dataloader.py")
    [ Klass 1 "LanguageProcessing" (File "dataloader.py")
        [ Klass 2 "MSCOCO" (File "language_generation.py") [];
          Klass 3 "OpenSubtitles" (File "single_turn_dialog.py") [] ];
      Klass 4 "mscoco" (File "my_loader.py") [] ].

(** A hierarchy with a class of two bases: [B] and [C] are subclasses of
    [A], [D] is a subclass of both, and [E], a subclass of [A] in another
    file, has the name of [D] in lower case. *)
Definition ex_D : klass := Klass 3 "D" (File "d.py") [].
Definition ex_E : klass := Klass 4 "d" (File "e.py") [].
Definition ex_diamond : klass :=
  Klass 0 "A" (File "a.py")
    [ Klass 1 "B" (File "b.py") [ex_D];
      Klass 2 "C" (File "c.py") [ex_D];
      ex_E ].

(** The hierarchy [ex_root] when the classes were defined in an
    interactive session: [inspect.getfile] finds no file for them. *)
Definition no_file : getfile_outcome :=
  NoFile (OSError "source code not available").
Definition ex_interactive : klass :=
  Klass 0 "Dataloader" no_file
    [ Klass 1 "MSCOCO" no_file []; Klass 2 "mscoco" no_file [] ].

End LoadClass.

(** ** [cotk/_utils/metaclass.py]: [DocStringInheritor] *)

Module DocString.
Import Py.

(** *** Strings *)

Definition dot : ascii := "."%char.

(** ["." in s]. *)
Fixpoint has_dot (s : string) : bool :=
  match s with
  | EmptyString => false
  | String c s' => if decide (c = dot) then true else has_dot s'
  end.

(** [s.split(".")]. *)
Fixpoint split_dot (s : string) : list string :=
  match s with
  | EmptyString => [EmptyString]
  | String c s' =>
      if decide (c = dot) then EmptyString :: split_dot s'
      else match split_dot s' with
           | [] => [String c EmptyString]
           | p :: ps => String c p :: ps
           end
  end.

(** [s.startswith(p)]. *)
Definition startswith (s p : string) : bool := String.prefix p s.

(** [p in s] for two strings. *)
Fixpoint is_substring (p s : string) : bool :=
  String.prefix p s ||
  match s with
  | EmptyString => false
  | String _ s' => is_substring p s'
  end.

(** *** Dictionaries in insertion order *)

Definition dict (V : Type) : Type := list (string * V).

Fixpoint dict_get {V : Type} (d : dict V) (k : string) : option V :=
  match d with
  | [] => None
  | (k', v) :: d' => if decide (k' = k) then Some v else dict_get d' k
  end.

(** [d[k] = v]: an existing key keeps its place, a new one goes last. *)
Fixpoint dict_set {V : Type} (d : dict V) (k : string) (v : V) : dict V :=
  match d with
  | [] => [(k, v)]
  | (k', v') :: d' =>
      if decide (k' = k) then (k, v) :: d' else (k', v') :: dict_set d' k v
  end.

Definition dict_keys {V : Type} (d : dict V) : list string := fst <$> d.

(** [del d[k]] for a key that may be missing. *)
Definition dict_remove {V : Type} (d : dict V) (k : string) : dict V :=
  filter (λ kv : string * V, kv.1 ≠ k) (d : list (string * V)).

(** The entries of [extra] added to [d] where [d] has no such key. *)
Definition dict_defaults {V : Type} (d extra : dict V) : dict V :=
  foldl (λ d kv, match dict_get d kv.1 with
                 | Some _ => d
                 | None => dict_set d kv.1 kv.2
                 end) d extra.

(** *** Values and classes *)

(** The docstrings of the objects whose [__doc__] the metaclass reads
    and assigns: the store maps the identity of an object to its
    [__doc__].  Two names bound to the same function share the entry, so
    an assignment made through one of them is seen through the other. *)
Abbreviation heap := (gmap nat (option string)).

(** [o.__doc__] for the object [o] ([None] also for an object the store
    does not know). *)
Definition heap_doc (h : heap) (o : nat) : option string := h !! o ≫= id.

(** What a class namespace holds, as far as the metaclass looks at it:
    [None], a string, the dictionary [META_DOC_FOR_ATTRIBUTES], a
    function (the function object), a [staticmethod] (the function
    object that is its [__func__]), a [property] (its getter, if it has
    one, and its own docstring, which is fixed when the property is
    built), or any other object, with whether its [__doc__] can be
    assigned and with its truth value.  Functions and other objects are
    named by their identity; their docstrings are in the store. *)
Inductive pyval : Type :=
  | VNone
  | VStr (s : string)
  | VDocs (d : dict string)
  | VFunction (f : nat)
  | VStaticmethod (func : nat)
  | VProperty (fget : option nat) (doc : option string)
  | VObject (o : nat) (doc_writable : bool) (truthy : bool).

#[export] Instance pyval_eq_dec : EqDecision pyval.
Proof. solve_decision. Defined.

(** The object whose [__doc__] is read for the value and assigned to
    (lines 111 and 113, 150 and 158 of the source); a property is built
    anew in place of an assignment, and the other values keep the
    docstring of their type. *)
Definition doc_object (v : pyval) : option nat :=
  match v with
  | VFunction f | VStaticmethod f | VObject f _ _ => Some f
  | VNone | VStr _ | VDocs _ | VProperty _ _ => None
  end.

(** The truth value of a Python value. *)
Definition truthy (v : pyval) : bool :=
  match v with
  | VNone => false
  | VStr s => bool_decide (s ≠ "")
  | VDocs d => bool_decide (d ≠ [])
  | VFunction _ | VStaticmethod _ | VProperty _ _ => true
  | VObject _ _ t => t
  end.

(** The truth value of a docstring: [None] and [""] are false. *)
Definition doc_truthy (doc : option string) : bool :=
  match doc with
  | None => false
  | Some s => bool_decide (s ≠ "")
  end.

(** A class, as the metaclass sees a base: its [__name__], the
    attributes found on the class itself (the metaclass asks with
    [getattr] and [hasattr], so these are the entries of the [__dict__]
    of the class and what the type object keeps for it outside of
    [__dict__], such as [__qualname__]), and the rest of its method
    resolution order (each entry again a class with its own order). *)
#[warnings="-register-all"]
Inductive pyclass : Type :=
  | PyClass (cname : string) (ns : dict pyval) (ancestors : list pyclass).

Definition cname (c : pyclass) : string := let 'PyClass n _ _ := c in n.
Definition ns (c : pyclass) : dict pyval := let 'PyClass _ d _ := c in d.
Definition ancestors (c : pyclass) : list pyclass :=
  let 'PyClass _ _ l := c in l.

(** [c.mro()]. *)
Definition mro (c : pyclass) : list pyclass := c :: ancestors c.

(** Attribute lookup along a list of classes. *)
Fixpoint lookup_in (l : list pyclass) (a : string) : option pyval :=
  match l with
  | [] => None
  | k :: l' =>
      match dict_get (ns k) a with
      | Some v => Some v
      | None => lookup_in l' a
      end
  end.

(** [getattr(c, a)] ([None]: [AttributeError]) and [hasattr(c, a)]. *)
Definition getattr (c : pyclass) (a : string) : option pyval :=
  lookup_in (mro c) a.
Definition hasattr (c : pyclass) (a : string) : bool :=
  bool_decide (is_Some (getattr c a)).

(** The generator [(mro_cls for base in bases for mro_cls in base.mro())]. *)
Definition mro_chain (bases : list pyclass) : list pyclass :=
  bases ≫= mro.

(** The two patterns of the substitutions: a constant that starts with a
    capital letter, [{(\w*\.)?[A-Z][A-Z_]*?}], and any constant,
    [{(\w*\.)?[A-Z_]+?}]; both with a word boundary after the brace. *)
Inductive regex : Type := ReCapital | ReAny.

(** The docstrings of the built-in types of [None], strings and
    dictionaries, which the attribute loop reads for such values. *)
Record builtin_docs : Type := BuiltinDocs {
  none_doc : option string;
  str_doc : option string;
  dict_doc : option string
}.

Section new.
(** [re.sub(pattern, repl, string)], where [repl] receives the first
    group of the match. *)
Variable re_sub : regex → (string → result pyval) → string → result string.
Variable docs : builtin_docs.
(** The method resolution order that [type.__new__] computes for the
    new class from its bases (without the class itself), or the
    exception it raises for bases it cannot combine or for a namespace
    it refuses. *)
Variable linearize : list pyclass → dict pyval → result (list pyclass).
(** The attributes that [type.__new__] gives to the new class where its
    namespace has none, other than [__doc__] ([__module__], and
    [__dict__] and [__weakref__] where no base has them). *)
Variable provided : list pyclass → dict pyval → dict pyval.

(** The arguments of [__new__] that the local functions close over. *)
Variable name : string.
Variable bases : list pyclass.

(** [attribute.__doc__], and [attribute.__func__.__doc__] for a
    [staticmethod]. *)
Definition value_doc (h : heap) (v : pyval) : option string :=
  match v with
  | VNone => none_doc docs
  | VStr _ => str_doc docs
  | VDocs _ => dict_doc docs
  | VFunction f | VStaticmethod f | VObject f _ _ => heap_doc h f
  | VProperty _ doc => doc
  end.

(** The [for] loop of [find_base]. *)
Fixpoint find_base_loop (base_name : string) (l : list pyclass)
    : result pyclass :=
  match l with
  | [] => Raise (ValueError ("No bases named " +:+ base_name))
  | mro_cls :: l' =>
      if decide (cname mro_cls = base_name) then Ok mro_cls
      else find_base_loop base_name l'
  end.

(** [find_base] returns the namespace under construction or a class. *)
Definition find_base (clsdict : dict pyval) (base_name : string)
    : result (dict pyval + pyclass) :=
  if decide (name = base_name) then Ok (inl clsdict)
  else c ← find_base_loop base_name (mro_chain bases); Ok (inr c).

(** The [for] loop of [find_attr]. *)
Fixpoint find_attr_loop (attr_name : string) (l : list pyclass)
    : result pyval :=
  match l with
  | [] => Raise (KeyError "No such attr.")
  | mro_cls :: l' =>
      match getattr mro_cls attr_name with
      | Some v => Ok v
      | None => find_attr_loop attr_name l'
      end
  end.

Definition find_attr (clsdict : dict pyval) (attr_name : string)
    : result pyval :=
  if has_dot attr_name then
    match split_dot attr_name with
    | [base_name; attr_name] =>
        base ← find_base clsdict base_name;
        match base with
        | inl d =>
            match dict_get d attr_name with
            | Some v => Ok v
            | None => Raise (KeyError attr_name)
            end
        | inr c =>
            match getattr c attr_name with
            | Some v => Ok v
            | None => Raise (AttributeError attr_name)
            end
        end
    | _ => Raise (ValueError "too many values to unpack (expected 2)")
    end
  else
    match dict_get clsdict attr_name with
    | Some v => Ok v
    | None => find_attr_loop attr_name (mro_chain bases)
    end.

(** [attr_name.split(".")[0]]. *)
Definition first_part (attr_name : string) : string :=
  default "" (head (split_dot attr_name)).

(** The two handlers share their shape: [where] is [class <name>] for
    [replace_for_clsdict] and [<name>.<attr>] for [replace_for(attr)]. *)
Definition replace_at (where_ : string) (clsdict : dict pyval)
    (attr_name : string) : result pyval :=
  match find_attr clsdict attr_name with
  | Raise (ValueError msg) =>
      if startswith msg "No bases" then
        Raise (ValueError
          ("Can't find " +:+ attr_name
           +:+ " when interpreting docstring of " +:+ where_
           +:+ ", because the class doesn't have a baseclass named "
           +:+ first_part attr_name +:+ "."))
      else Raise (ValueError msg)
  | Raise (AttributeError _) | Raise (KeyError _) =>
      Raise (ValueError
        ("Can't find " +:+ attr_name
         +:+ " when interpreting docstring of " +:+ where_
         +:+ ", please check whether the CONSTANT exists."))
  | r => r
  end.

Definition replace_for_clsdict (clsdict : dict pyval)
    (attr_name : string) : result pyval :=
  replace_at ("class " +:+ name) clsdict attr_name.

Definition replace_for (attr : string) (clsdict : dict pyval)
    (attr_name : string) : result pyval :=
  replace_at (name +:+ "." +:+ attr) clsdict attr_name.

(** [re.sub] on a value of the namespace: anything but a string is a
    [TypeError]. *)
Definition re_sub_value (pat : regex) (repl : string → result pyval)
    (v : pyval) : result string :=
  match v with
  | VStr s => re_sub pat repl s
  | _ => Raise (TypeError "expected string or bytes-like object")
  end.

(** [clsdict[k]]. *)
Definition getitem (clsdict : dict pyval) (k : string) : result pyval :=
  match dict_get clsdict k with
  | Some v => Ok v
  | None => Raise (KeyError k)
  end.

(** *** The class docstring *)

(** The condition [not('__doc__' in clsdict and clsdict['__doc__'])]
    negated: the class body defines a docstring that is not empty. *)
Definition has_own_doc (clsdict : dict pyval) : bool :=
  match dict_get clsdict "__doc__" with
  | Some v => truthy v
  | None => false
  end.

(** The loop that inherits the class docstring: [mro_cls.META_DOC]
    raises [AttributeError] on a class without it, the first true value
    is stored and ends the loop. *)
Fixpoint inherit_class_doc_loop (l : list pyclass) (clsdict : dict pyval)
    : result (dict pyval) :=
  match l with
  | [] => Ok clsdict
  | mro_cls :: l' =>
      match getattr mro_cls "META_DOC" with
      | None => Raise (AttributeError "META_DOC")
      | Some meta_doc =>
          if truthy meta_doc then Ok (dict_set clsdict "__doc__" meta_doc)
          else inherit_class_doc_loop l' clsdict
      end
  end.

Definition inherit_class_doc (clsdict : dict pyval) : result (dict pyval) :=
  if has_own_doc clsdict then Ok clsdict
  else inherit_class_doc_loop (mro_chain bases) clsdict.

(** One [while True] loop over the class docstring: substitute, stop
    when nothing changed, store the new text otherwise. *)
Fixpoint sub_class_doc_loop (fuel : nat) (pat : regex)
    (clsdict : dict pyval) : result (dict pyval) :=
  match fuel with
  | O => OutOfFuel
  | S fuel' =>
      old ← getitem clsdict "__doc__";
      doc ← re_sub_value pat (replace_for_clsdict clsdict) old;
      if decide (VStr doc = old) then Ok clsdict
      else sub_class_doc_loop fuel' pat (dict_set clsdict "__doc__" (VStr doc))
  end.

(** The guard [if clsdict.get('__doc__')] around the loop. *)
Definition sub_class_doc (fuel : nat) (pat : regex) (clsdict : dict pyval)
    : result (dict pyval) :=
  if truthy (default VNone (dict_get clsdict "__doc__")) then
    sub_class_doc_loop fuel pat clsdict
  else Ok clsdict.

(** *** The docstrings of the attributes *)

(** [attr in docs_value]. *)
Definition contains (docs_value : pyval) (attr : string) : result bool :=
  match docs_value with
  | VDocs d => Ok (match dict_get d attr with Some _ => true | None => false end)
  | VStr s => Ok (is_substring attr s)
  | _ => Raise (TypeError "argument is not iterable")
  end.

(** [docs_value[attr]]. *)
Definition getdoc (docs_value : pyval) (attr : string) : result string :=
  match docs_value with
  | VDocs d =>
      match dict_get d attr with
      | Some doc => Ok doc
      | None => Raise (KeyError attr)
      end
  | _ => Raise (TypeError "indices must be integers")
  end.

(** The loop that inherits the docstring of [attr]: only classes that
    have the attribute are visited, the first one with an entry for
    [attr] in its [META_DOC_FOR_ATTRIBUTES] gives the docstring; the
    [else] branch of the loop gives [""]. *)
Fixpoint inherit_attr_doc_loop (attr : string) (l : list pyclass)
    : result string :=
  match l with
  | [] => Ok ""
  | mro_cls :: l' =>
      if hasattr mro_cls attr then
        let docs_value :=
          default (VDocs []) (getattr mro_cls "META_DOC_FOR_ATTRIBUTES") in
        found ← contains docs_value attr;
        if found : bool then getdoc docs_value attr
        else inherit_attr_doc_loop attr l'
      else inherit_attr_doc_loop attr l'
  end.

(** One [while True] loop over the docstring of an attribute. *)
Fixpoint sub_attr_doc (fuel : nat) (pat : regex) (attr : string)
    (clsdict : dict pyval) (doc : string) : result string :=
  match fuel with
  | O => OutOfFuel
  | S fuel' =>
      new_doc ← re_sub pat (replace_for attr clsdict) doc;
      if decide (doc = new_doc) then Ok doc
      else sub_attr_doc fuel' pat attr clsdict new_doc
  end.

(** [meta_doc[attr] = doc]; [meta_doc] is the dictionary stored under
    [META_DOC_FOR_ATTRIBUTES] in [clsdict]. *)
Definition meta_doc_set (clsdict : dict pyval) (attr doc : string)
    : dict pyval :=
  match dict_get clsdict "META_DOC_FOR_ATTRIBUTES" with
  | Some (VDocs d) =>
      dict_set clsdict "META_DOC_FOR_ATTRIBUTES" (VDocs (dict_set d attr doc))
  | _ => clsdict
  end.

(** The end of the loop body ("set all doc"): nothing to do when the
    docstring is the one the attribute has; a property is built anew
    under its key (a property built without docstring takes the one its
    getter has at that time); for a function, and for the function of a
    [staticmethod], the docstring is assigned on the function object
    itself; on other objects the assignment works only where [__doc__]
    can be written. *)
Definition set_doc (clsdict : dict pyval) (h : heap) (attr : string)
    (attribute : pyval) (doc : option string)
    : result (dict pyval * heap) :=
  if decide (doc = value_doc h attribute) then Ok (clsdict, h)
  else
    match attribute with
    | VStaticmethod func => Ok (clsdict, <[func := doc]> h)
    | VProperty fget _ =>
        let doc' := match doc with
                    | Some _ => doc
                    | None => fget ≫= heap_doc h
                    end in
        Ok (dict_set clsdict attr (VProperty fget doc'), h)
    | VFunction f => Ok (clsdict, <[f := doc]> h)
    | VObject o writable _ =>
        if writable then Ok (clsdict, <[o := doc]> h)
        else Raise (AttributeError "__doc__")
    | VNone | VStr _ | VDocs _ => Raise (AttributeError "__doc__")
    end.

(** The body of the loop over [clsdict.items()] for one key. *)
Definition attr_step (fuel : nat) (clsdict : dict pyval) (h : heap)
    (attr : string) : result (dict pyval * heap) :=
  attribute ← getitem clsdict attr;
  let doc := value_doc h attribute in
  doc ← (if doc_truthy doc then Ok (default "" doc)
         else inherit_attr_doc_loop attr (mro_chain bases));
  doc ← sub_attr_doc fuel ReCapital attr clsdict doc;
  let clsdict := meta_doc_set clsdict attr doc in
  doc ← sub_attr_doc fuel ReAny attr clsdict doc;
  let doc := if decide (doc = "") then None else Some doc in
  set_doc clsdict h attr attribute doc.

Fixpoint attr_loop (fuel : nat) (keys : list string) (clsdict : dict pyval)
    (h : heap) : result (dict pyval * heap) :=
  match keys with
  | [] => Ok (clsdict, h)
  | attr :: keys' =>
      st ← attr_step fuel clsdict h attr;
      attr_loop fuel keys' st.1 st.2
  end.

(** *** [DocStringInheritor.__new__] *)

(** The part of [__new__] before [type.__new__]: the namespace the
    class is created from, and the docstrings of the objects after the
    assignments.  Every [while True] loop may take up to [fuel]
    rounds. *)
Definition new_namespace (fuel : nat) (clsdict : dict pyval) (h : heap)
    : result (dict pyval * heap) :=
  clsdict ← inherit_class_doc clsdict;
  clsdict ← sub_class_doc fuel ReCapital clsdict;
  let clsdict :=
    dict_set clsdict "META_DOC" (default VNone (dict_get clsdict "__doc__")) in
  clsdict ← sub_class_doc fuel ReAny clsdict;
  let clsdict := dict_set clsdict "META_DOC_FOR_ATTRIBUTES" (VDocs []) in
  attr_loop fuel (dict_keys clsdict) clsdict h.

(** The attributes of the class that [type.__new__] makes of a
    namespace: every entry but [__classcell__], which is taken out
    ([__qualname__] leaves the [__dict__] of the class but stays an
    attribute of it, with the same value), [__doc__] as [None] when the
    namespace has no docstring, and what the type object provides in
    addition. *)
Definition class_attributes (clsdict : dict pyval) : dict pyval :=
  dict_defaults (dict_remove clsdict "__classcell__")
    (("__doc__", VNone) :: provided bases clsdict).

(** [type.__new__(cls, name, bases, clsdict)]: a [__qualname__] that is
    not a string and a [__classcell__] that is not a cell (a cell is one
    of the other objects) are refused with a [TypeError]; what else
    [type.__new__] finds wrong is in [linearize]. *)
Definition type_new (clsdict : dict pyval) : result pyclass :=
  match dict_get clsdict "__qualname__" with
  | Some (VStr _) | None =>
      match dict_get clsdict "__classcell__" with
      | Some (VObject _ _ _) | None =>
          ancestors ← linearize bases clsdict;
          Ok (PyClass name (class_attributes clsdict) ancestors)
      | Some _ => Raise (TypeError "__classcell__ must be a nonlocal cell")
      end
  | Some _ => Raise (TypeError "type __qualname__ must be a str")
  end.

(** [__new__] returns the class; the docstrings of the functions after
    the call come with it. *)
Definition __new__ (fuel : nat) (clsdict : dict pyval) (h : heap)
    : result (pyclass * heap) :=
  st ← new_namespace fuel clsdict h;
  cls ← type_new st.1;
  Ok (cls, st.2).
End new.

(** The docstring of a class: [cls.__doc__] is the entry of the class
    itself, [None] without one. *)
Definition class_doc (c : pyclass) : pyval :=
  default VNone (dict_get (ns c) "__doc__").

(** The entry for [attr] in [cls.META_DOC_FOR_ATTRIBUTES], when the class
    has this dictionary and the dictionary has the entry. *)
Definition attr_meta_doc (c : pyclass) (attr : string) : option string :=
  match getattr c "META_DOC_FOR_ATTRIBUTES" with
  | Some (VDocs d) => dict_get d attr
  | _ => None
  end.

(** *** [re.sub] for the two patterns, on ASCII text *)

Definition is_upper (c : ascii) : bool :=
  let n := nat_of_ascii c in ((65 <=? n) && (n <=? 90))%nat.

Definition is_upper_or_underscore (c : ascii) : bool :=
  is_upper c || bool_decide (c = "_"%char).

(** [\w]: a letter, a digit or the underscore. *)
Definition is_word (c : ascii) : bool :=
  let n := nat_of_ascii c in
  (((65 <=? n) && (n <=? 90)) || ((97 <=? n) && (n <=? 122))
   || ((48 <=? n) && (n <=? 57)))%nat || bool_decide (c = "_"%char).

Fixpoint all_chars (p : ascii → bool) (s : string) : bool :=
  match s with
  | EmptyString => true
  | String c s' => p c && all_chars p s'
  end.

(** [[A-Z][A-Z_]*] and [[A-Z_]+]. *)
Definition is_constant (pat : regex) (s : string) : bool :=
  match s with
  | EmptyString => false
  | String c s' =>
      match pat with
      | ReCapital => is_upper c && all_chars is_upper_or_underscore s'
      | ReAny => all_chars is_upper_or_underscore s
      end
  end.

(** The text between the braces is a constant, or a constant after a
    prefix of word characters and a dot; the word boundary after the
    opening brace asks for a word character first, so the prefix is not
    empty. *)
Definition is_group (pat : regex) (g : string) : bool :=
  match split_dot g with
  | [c] => is_constant pat c
  | [p; c] =>
      negb (bool_decide (p = "")) && all_chars is_word p && is_constant pat c
  | _ => false
  end.

(** The text before the first closing brace. *)
Fixpoint until_close (s : string) : option string :=
  match s with
  | EmptyString => None
  | String c s' =>
      if decide (c = "}"%char) then Some EmptyString
      else String c <$> until_close s'
  end.

(** A match that starts at the head of [s]: its first group. *)
Definition match_at (pat : regex) (s : string) : option string :=
  match s with
  | String c rest =>
      if decide (c = "{"%char) then
        g ← until_close rest; if is_group pat g then Some g else None
      else None
  | EmptyString => None
  end.

(** The scan of [re.sub] from left to right; [skip] counts the characters
    of the last match that are still to be passed over.  A replacement
    that is not a string is a [TypeError]. *)
Fixpoint re_sub_from (pat : regex) (repl : string → result pyval)
    (s : string) (skip : nat) : result string :=
  match s with
  | EmptyString => Ok EmptyString
  | String c s' =>
      match skip with
      | S skip' => re_sub_from pat repl s' skip'
      | O =>
          match match_at pat s with
          | Some g =>
              v ← repl g;
              match v with
              | VStr r =>
                  rest ← re_sub_from pat repl s' (S (String.length g));
                  Ok (r +:+ rest)
              | _ => Raise (TypeError "expected str instance")
              end
          | None => rest ← re_sub_from pat repl s' O; Ok (String c rest)
          end
      end
  end.

Definition re_sub_ascii (pat : regex) (repl : string → result pyval)
    (s : string) : result string :=
  re_sub_from pat repl s O.

(** *** A method resolution order for the examples *)

(** The orders of the bases one after the other, a class that occurs
    several times kept at its last place: the order of [type.__new__] for
    one base, and for bases whose orders share only their tail. *)
Fixpoint keep_last (l : list pyclass) : list pyclass :=
  match l with
  | [] => []
  | c :: l' =>
      if bool_decide (cname c ∈ cname <$> l') then keep_last l'
      else c :: keep_last l'
  end.

(** The class [object], with no attribute the metaclass asks for. *)
Definition object_ : pyclass := PyClass "object" [] [].

(** A class statement without bases has the base [object]; the
    namespaces of the examples are all accepted. *)
Definition linearize_keep_last (bases : list pyclass) (clsdict : dict pyval)
    : result (list pyclass) :=
  match bases with
  | [] => Ok [object_]
  | _ => Ok (keep_last (mro_chain bases))
  end.

(** The docstrings the examples give to the built-in types. *)
Definition ex_builtin_docs : builtin_docs :=
  {| none_doc := None;
     str_doc := Some "str(object='') -> str";
     dict_doc := Some "dict() -> new empty dictionary" |}.

(** In the examples the type object provides nothing more:
    [__module__] is in every namespace of a class statement already, and
    [__dict__] and [__weakref__], which no docstring refers to, are left
    out. *)
Definition ex_provided (bases : list pyclass) (clsdict : dict pyval)
    : dict pyval :=
  [].

Definition new_ascii
    : string → list pyclass → nat → dict pyval → heap
      → result (pyclass * heap) :=
  __new__ re_sub_ascii ex_builtin_docs linearize_keep_last ex_provided.

End DocString.

(** *** What the docstrings are inherited from *)

Module DocStringSpec.
Import Py DocString.

(** A class whose [META_DOC] is there and not empty. *)
Definition has_meta_doc (c : pyclass) : bool :=
  truthy (default VNone (getattr c "META_DOC")).

(** The first such class in the iteration over the declared bases and the
    method resolution order of each. *)
Definition first_with_meta_doc (bases : list pyclass) : option pyclass :=
  List.find has_meta_doc (mro_chain bases).

(** A class that has the attribute and an entry for it (of whatever
    content) in its [META_DOC_FOR_ATTRIBUTES]. *)
Definition has_attr_entry (attr : string) (c : pyclass) : bool :=
  hasattr c attr
  && match attr_meta_doc c attr with Some _ => true | None => false end.

Definition first_with_attr_entry (bases : list pyclass) (attr : string)
    : option pyclass :=
  List.find (has_attr_entry attr) (mro_chain bases).

(** The docstring an attribute without docstring starts from: the entry
    of the first class with an entry, [""] when no class has one. *)
Definition inherited_attr_doc (bases : list pyclass) (attr : string)
    : string :=
  match first_with_attr_entry bases attr with
  | Some c => default "" (attr_meta_doc c attr)
  | None => ""
  end.

(** The rule of the class docstring transferred to an attribute: the
    entry of the first class whose entry for the attribute is not empty. *)
Definition has_nonempty_attr_entry (attr : string) (c : pyclass) : bool :=
  doc_truthy (attr_meta_doc c attr).

Definition first_nonempty_attr_doc (bases : list pyclass) (attr : string)
    : option string :=
  List.find (has_nonempty_attr_entry attr) (mro_chain bases)
  ≫= λ c, attr_meta_doc c attr.

(** No other name of the class body is bound to the object whose
    docstring [attribute] has: the docstring that is read when the loop
    comes to [attr] is the one the attribute was defined with, and the
    one that is assigned stays. *)
Definition not_shared (clsdict : dict pyval) (attr : string)
    (attribute : pyval) : bool :=
  forallb (λ kv : string * pyval,
             bool_decide (kv.1 = attr)
             || bool_decide (doc_object kv.2 = None)
             || bool_decide (doc_object kv.2 ≠ doc_object attribute))
          clsdict.

Section substituted.
Variable re_sub : regex → (string → result pyval) → string → result string.

(** [substituted repl s s']: the text [s'] comes from [s] by rounds of
    [re.sub] with one of the two patterns, the replacement being looked
    up by [repl] in some state of the namespace. *)
Inductive substituted (repl : dict pyval → string → result pyval)
    : string → string → Prop :=
  | substituted_refl (s : string) : substituted repl s s
  | substituted_step (pat : regex) (clsdict : dict pyval)
      (s s' s'' : string) :
      re_sub pat (repl clsdict) s = Ok s' →
      substituted repl s' s'' →
      substituted repl s s''.
End substituted.

End DocStringSpec.

(** *** Classes for the examples

    The namespaces are those of class statements: [__module__],
    [__qualname__], the docstring when there is one, and the body.  The
    functions are the objects 1 to 7 of the store. *)

Module DocStringExamples.
Import Py DocString.

(** The class a successful call made, and the docstrings after it. *)
Definition made (r : result (pyclass * heap)) : pyclass :=
  match r with
  | Ok (c, _) => c
  | _ => object_
  end.

Definition docs_after (r : result (pyclass * heap)) : heap :=
  match r with
  | Ok (_, h) => h
  | _ => ∅
  end.

(** The docstrings of the functions when their [def] has been run, and
    before the class of the function is made. *)
Definition ex_heap : heap :=
  {[ 1%nat := Some "Load {_NOTE}."; 2%nat := None; 3%nat := None;
     4%nat := Some "docB"; 5%nat := None; 6%nat := None;
     7%nat := Some "Plain text." ]}.

(** [class Base(metaclass=DocStringInheritor)] with a docstring that
    names the constants [ARGUMENTS] and [_NOTE], and a method [f] that
    has a docstring. *)
Definition base_dict : dict pyval :=
  [("__module__", VStr "__main__"); ("__qualname__", VStr "Base");
   ("__doc__", VStr "A loader.{ARGUMENTS} See {_NOTE}.");
   ("ARGUMENTS", VStr " file_id: {Base.FILE_ID_DEFAULT}");
   ("FILE_ID_DEFAULT", VStr "no default");
   ("_NOTE", VStr "the base");
   ("f", VFunction 1)].
Definition Base : pyclass :=
  Eval vm_compute in made (new_ascii "Base" [] 5 base_dict ex_heap).

(** [class Derived(Base)] without docstring; [f] has none either. *)
Definition derived_dict : dict pyval :=
  [("__module__", VStr "__main__"); ("__qualname__", VStr "Derived");
   ("ARGUMENTS", VStr " other");
   ("_NOTE", VStr "the derived");
   ("f", VFunction 2)].
Definition Derived : pyclass :=
  Eval vm_compute in made (new_ascii "Derived" [Base] 5 derived_dict ex_heap).

(** Two unrelated classes with a method [f]: only [Right] documents it. *)
Definition left_dict : dict pyval :=
  [("__module__", VStr "__main__"); ("__qualname__", VStr "Left");
   ("__doc__", VStr "Left."); ("f", VFunction 3)].
Definition Left : pyclass :=
  Eval vm_compute in made (new_ascii "Left" [] 5 left_dict ex_heap).

Definition right_dict : dict pyval :=
  [("__module__", VStr "__main__"); ("__qualname__", VStr "Right");
   ("__doc__", VStr "Right."); ("f", VFunction 4)].
Definition Right : pyclass :=
  Eval vm_compute in made (new_ascii "Right" [] 5 right_dict ex_heap).

(** [class Both(Left, Right)] with its own docstring and an undocumented
    [f]. *)
Definition both_dict : dict pyval :=
  [("__module__", VStr "__main__"); ("__qualname__", VStr "Both");
   ("__doc__", VStr "Both."); ("f", VFunction 5)].
Definition Both : pyclass :=
  Eval vm_compute in made (new_ascii "Both" [Left; Right] 5 both_dict ex_heap).

(** [class Alias(Base)] with [def f] without docstring and [g = f] in
    its body: the two names are bound to the same function. *)
Definition alias_dict : dict pyval :=
  [("__module__", VStr "__main__"); ("__qualname__", VStr "Alias");
   ("f", VFunction 6); ("g", VFunction 6)].
Definition Alias : pyclass :=
  Eval vm_compute in made (new_ascii "Alias" [Base] 5 alias_dict ex_heap).

End DocStringExamples.

(** ** [cotk/dataloader/single_turn_dialog.py] *)

Module SingleTurnDialog.
Import Py.

(** *** [SingleTurnDialog.__init__] *)

(** The [tokenizer] argument: [None], a name such as ["nltk"] or
    ["space"], a [PretrainedTokenizer] (with its attribute [tokenizer]),
    or a tokenizer object of another class. *)
Inductive tokenizer_arg (P O : Type) : Type :=
  | TokNone
  | TokName (s : string)
  | TokPretrained (tokenizer : P)
  | TokOther (t : O).
Arguments TokNone {P O}.
Arguments TokName {P O} s.
Arguments TokPretrained {P O} tokenizer.
Arguments TokOther {P O} t.

(** [isinstance(tokenizer, PretrainedTokenizer)]. *)
Definition is_pretrained_tokenizer {P O : Type} (t : tokenizer_arg P O)
    : bool :=
  match t with
  | TokPretrained _ => true
  | _ => false
  end.

(** The dataloader object: the attribute [_pretrained] ([None] while it
    is not set), and everything [LanguageProcessing] keeps. *)
Record dataloader (R : Type) : Type := Dataloader {
  _pretrained : option (option string);
  base : R
}.
Arguments Dataloader {R} _ _.
Arguments _pretrained {R} _.
Arguments base {R} _.

(** The parameters the two [with] blocks set for the duration of
    [super().__init__]. *)
Record field_parameters (P O V : Type) : Type := FieldParameters {
  fp_tokenizer : tokenizer_arg P O;
  fp_vocab : option V;
  fp_max_sent_length : option Z;
  fp_convert_to_lower_letter : option bool
}.
Arguments FieldParameters {P O V} _ _ _ _.

Record vocab_parameters : Type := VocabParameters {
  vp_min_frequent_vocab_times : option Z;
  vp_min_rare_vocab_times : option Z
}.

Section init.
(** [P]: the tokenizer a [PretrainedTokenizer] wraps; [O]: other
    tokenizer objects; [V]: vocabularies; [R]: the state of
    [LanguageProcessing]. *)
Context {P O V R : Type}.

(** The parts of the package that [__init__] calls and that are defined
    in other modules. *)
Variable PretrainedVocab : P → result V.
Variable super_init :
  field_parameters P O V → option vocab_parameters →
  string → list (string * string) → dataloader R → result () * dataloader R.
Variable set_default_field :
  string → string → dataloader R → result () * dataloader R.

(** The body of [SingleTurnDialog.__init__] on the object [self]; the
    object is returned with what was assigned before the call ended.
    [pretrained] is [None] or a string. *)
Definition __init__ (file_id : string) (tokenizer : tokenizer_arg P O)
    (max_sent_length : option Z) (convert_to_lower_letter : option bool)
    (min_frequent_vocab_times min_rare_vocab_times : option Z)
    (pretrained : option string) (self : dataloader R)
    : result () * dataloader R :=
  let self := Dataloader (Some pretrained) (base self) in
  match pretrained with
  | None =>
      match super_init
              (FieldParameters tokenizer None max_sent_length
                 convert_to_lower_letter)
              (Some (VocabParameters min_frequent_vocab_times
                       min_rare_vocab_times))
              file_id
              [("post", "SentenceDefault"); ("resp", "SentenceDefault")]
              self with
      | (Ok _, self) => set_default_field "train" "post" self
      | (r, self) => (r, self)
      end
  | Some p =>
      if decide (p = "gpt2") then
        match tokenizer with
        | TokPretrained inner =>
            match PretrainedVocab inner with
            | Ok vocab =>
                match super_init
                        (FieldParameters tokenizer (Some vocab)
                           max_sent_length convert_to_lower_letter)
                        None file_id
                        [("post", "SentenceGPT2"); ("resp", "SentenceGPT2")]
                        self with
                | (Ok _, self) => set_default_field "train" "post" self
                | (r, self) => (r, self)
                end
            | Raise e => (Raise e, self)
            | OutOfFuel => (OutOfFuel, self)
            end
        | _ =>
            (Raise (ValueError
               "tokenize should be loaded first if you want a gpt2 dataloader"),
             self)
        end
      else (Raise (ValueError ("No pretrained name " +:+ p)), self)
  end.
End init.

End SingleTurnDialog.

(** *** [SingleTurnDialog.get_batch] *)

Module Batch.
Import Py.

(** Modelled from the spec: the data a dataloader holds is laid out in
    [cotk/dataloader/dataloader.py], which is not among the sources; the
    records follow the description of the batch in
    [_GET_BATCH_MORE_DOC].  The loaded data of one set: the posts and the
    responses, every sentence a list of word ids (with its [<go>] and
    [<eos>]). *)
Record dataset : Type := Dataset {
  post_ids : list (list Z);
  resp_ids : list (list Z)
}.

(** Modelled from the spec: see [dataset].  What the batches are taken
    from: the sets by name, the number of valid words ([vocab_size] in
    the example of the docstring: the ids below it are the valid ones),
    and the ids of [<pad>] and [<unk>]. *)
Record loader : Type := Loader {
  data : gmap string dataset;
  frequent_vocab_size : Z;
  pad_id : Z;
  unk_id : Z
}.

(** The dictionary [get_batch] returns. *)
Record batch : Type := MkBatch {
  post_length : list Z;
  post : list (list Z);
  post_allvocabs : list (list Z);
  resp_length : list Z;
  resp : list (list Z);
  resp_allvocabs : list (list Z)
}.

(** Modelled from the spec: see [dataset].  [max(sent_length)]; [0] for
    a batch without sentences. *)
Definition max_length (lengths : list Z) : Z := foldr Z.max 0 lengths.

(** Modelled from the spec: see [dataset].  A row of a padded array: the
    sentence, then the padding, as in [_GET_BATCH_EXAMPLE]. *)
Definition pad_to (pad width : Z) (sentence : list Z) : list Z :=
  sentence ++ replicate (Z.to_nat (width - len sentence)) pad.

(** Modelled from the spec: the body of [LanguageProcessing.get_batch]
    and of the [get_batch] of its sentence fields is in
    [cotk/dataloader/dataloader.py] and [field.py]; what follows is the
    description in [_GET_BATCH_MORE_DOC] and [_GET_BATCH_EXAMPLE] of
    [single_turn_dialog.py].  For one field: the sentences at [indexes],
    their lengths (size [[batch_size]]), the array padded to
    [max(sent_length)] with all ids, and the same array with [unk_id] in
    place of every id that is not valid.  An index outside the data is
    an [IndexError]. *)
Fixpoint select (sentences : list (list Z)) (indexes : list nat)
    : result (list (list Z)) :=
  match indexes with
  | [] => Ok []
  | i :: rest =>
      match sentences !! i with
      | Some sentence => tail ← select sentences rest; Ok (sentence :: tail)
      | None => Raise (IndexError "list index out of range")
      end
  end.

(** Modelled from the spec: see [select].  "Only provide valid words.
    [unk_id] will be used if a word is not valid." *)
Definition valid_or_unk (l : loader) (id : Z) : Z :=
  if id <? frequent_vocab_size l then id else unk_id l.

(** Modelled from the spec: see [select]. *)
Definition field_batch (l : loader) (sentences : list (list Z))
    (indexes : list nat)
    : result (list Z * list (list Z) * list (list Z)) :=
  chosen ← select sentences indexes;
  let lengths := len <$> chosen in
  let allvocabs := pad_to (pad_id l) (max_length lengths) <$> chosen in
  let valid := (λ row : list Z, valid_or_unk l <$> row) <$> allvocabs in
  Ok (lengths, valid, allvocabs).

(** Modelled from the spec: [LanguageProcessing.get_batch] (in
    [dataloader.py]) for the two fields [post] and [resp] that
    [SingleTurnDialog.__init__] declares; a set name that was not loaded
    is a [KeyError]. *)
Definition LanguageProcessing_get_batch (l : loader) (set_name : string)
    (indexes : list nat) : result batch :=
  match data l !! set_name with
  | None => Raise (KeyError set_name)
  | Some d =>
      '(post_length, post, post_allvocabs) ← field_batch l (post_ids d) indexes;
      '(resp_length, resp, resp_allvocabs) ← field_batch l (resp_ids d) indexes;
      Ok (MkBatch post_length post post_allvocabs
                  resp_length resp resp_allvocabs)
  end.

(** [SingleTurnDialog.get_batch] delegates to its base class. *)
Definition get_batch (l : loader) (set_name : string) (indexes : list nat)
    : result batch :=
  LanguageProcessing_get_batch l set_name indexes.

(** The data of [_GET_BATCH_EXAMPLE]: the vocabulary
    [<pad> <unk> <go> <eos> how are you hello i | am fine] with
    [vocab_size = 9]. *)
Definition example_loader : loader :=
  {| data := {[ "train" := {| post_ids := [[2; 5; 6; 10; 3]; [2; 7; 3]];
                              resp_ids := [[2; 8; 9; 10; 3]; [2; 7; 3]] |} ]};
     frequent_vocab_size := 9;
     pad_id := 0;
     unk_id := 1 |}.

(** The batch the docstring shows for [get_batch('train', [0, 1])]. *)
Definition example_batch : batch :=
  {| post_allvocabs := [[2; 5; 6; 10; 3]; [2; 7; 3; 0; 0]];
     post := [[2; 5; 6; 1; 3]; [2; 7; 3; 0; 0]];
     resp_allvocabs := [[2; 8; 9; 10; 3]; [2; 7; 3; 0; 0]];
     resp := [[2; 8; 1; 1; 3]; [2; 7; 3; 0; 0]];
     post_length := [5; 3];
     resp_length := [5; 3] |}.

End Batch.

(** ** The vocabulary tiers *)

Module Vocab.

Inductive tier : Type := Frequent | Rare | Unknown.

Section tiers.
Context {T : Type} `{EqDecision T}.

(** How often a token appears. *)
Definition times (t : T) (tokens : list T) : Z :=
  Z.of_nat (length (filter (λ x, x = t) tokens)).

(** The tokens of a list, each once, in the order of first appearance. *)
Fixpoint distinct (tokens : list T) : list T :=
  match tokens with
  | [] => []
  | t :: rest => t :: filter (λ x, x ≠ t) (distinct rest)
  end.

(** The corpus: the training set, and the other sets of the dataset. *)
Variable train others : list T.
Variable min_frequent_vocab_times min_rare_vocab_times : Z.

Definition whole : list T := train ++ others.

(** Modelled from the spec: the vocabulary is built in
    [cotk/dataloader/vocab.py]; what follows is the description of the
    two thresholds in [SingleTurnDialog.ARGUMENTS].  The valid words
    are the tokens that appear not less than the first threshold in
    the training set. *)
Definition frequent_vocab : list T :=
  filter (λ t, min_frequent_vocab_times ≤ times t train) (distinct whole).

(** Modelled from the spec: see [frequent_vocab].  The invalid words
    are the tokens, except the valid ones, that appear not less than
    the second threshold in the whole dataset. *)
Definition rare_vocab : list T :=
  filter (λ t, (t ∉ frequent_vocab) ∧ min_rare_vocab_times ≤ times t whole)
    (distinct whole).

(** Modelled from the spec: see [frequent_vocab].  All other tokens of
    the dataset are unknown words. *)
Definition unknown_vocab : list T :=
  filter (λ t, (t ∉ frequent_vocab) ∧ (t ∉ rare_vocab)) (distinct whole).

(** The tiers a token is listed in. *)
Definition tiers_of (t : T) : list tier :=
  (if decide (t ∈ frequent_vocab) then [Frequent] else [])
  ++ (if decide (t ∈ rare_vocab) then [Rare] else [])
  ++ (if decide (t ∈ unknown_vocab) then [Unknown] else []).
End tiers.

End Vocab.

(** ** The command line configuration of [tests/scripts/test_scripts.py] *)

Module Config.

(** Modelled from the spec: see [config_load].  The words of a value
    joined by single spaces, [" ".join(words)]. *)
Fixpoint join_words (words : list string) : string :=
  match words with
  | [] => ""
  | [w] => w
  | w :: rest => w +:+ " " +:+ join_words rest
  end.

(** Modelled from the spec: [cotk/scripts/config.py] and
    [cotk/scripts/main.py] are not among the sources; the configuration
    is what [test_config] shows of it, a store of one string per key that
    is empty until a value is set.  [config_load] reads a key, [None]
    without a value. *)
Definition config_load (key : string) (store : gmap string string)
    : option string :=
  store !! key.

(** Modelled from the spec: see [config_load].  [config_set] stores the
    value of a key. *)
Definition config_set (key value : string) (store : gmap string string)
    : gmap string string :=
  <[key := value]> store.

(** Modelled from the spec: see [config_load].  [main.dispatch] with the
    command [config]: [set <key> <words...>] stores the words joined by
    single spaces, [show <key>] and every other command leave the store
    as it is. *)
Definition dispatch (command : string) (args : list string)
    (store : gmap string string) : gmap string string :=
  if decide (command = "config") then
    match args with
    | sub :: key :: word :: words =>
        if decide (sub = "set") then
          config_set key (join_words (word :: words)) store
        else store
    | _ => store
    end
  else store.

End Config.

(** ** [cotk/_utils/utils.py]: notions for the properties of the helpers *)

Module UtilsSpec.

(** The sum of a list of lengths. *)
Definition total (lengths : list Z) : Z := foldr Z.add 0 lengths.

(** The replacement [replace_unk] makes of one token. *)
Definition replaced {A : Type} `{EqDecision A}
    (unk_token target_token token : A) : A :=
  if decide (token = unk_token) then target_token else token.

End UtilsSpec.

(** ** [cotk/_utils/utils.py]: the number of processes *)

Module CpuCount.
Import Py.

(** The line [get_cpu_count] prints when [CPU_COUNT] is not a number. *)
Definition cpu_count_message : string :=
  "Environment variable CPU_COUNT should be an integer or empty string.".

Section get_cpu_count.
(** [int(s)] on a string ([None]: [ValueError]). *)
Variable int_of_str : string → option Z.

(** [get_cpu_count]: [environ] is [os.environ], [cpu_count] what
    [multiprocessing.cpu_count()] returns; the result comes with the
    lines that were printed.  The values of [os.environ] are strings, so
    the test [os.environ["CPU_COUNT"] is not None] is true for every key
    that is there. *)
Definition get_cpu_count (override_cpu_count : option Z)
    (environ : gmap string string) (multiprocessing_cpu_count : Z)
    : Z * list string :=
  let '(cpu_count, printed) :=
    match override_cpu_count with
    | Some n => (n, [])
    | None =>
        match environ !! "CPU_COUNT" with
        | Some s =>
            match int_of_str s with
            | Some n => (n, [])
            | None => (0, [cpu_count_message])
            end
        | None => (multiprocessing_cpu_count `div` 2, [])
        end
    end in
  (Z.max cpu_count 1, printed).
End get_cpu_count.

End CpuCount.

(** ** [cotk/_utils/metaclass.py]: [copy_property] *)

Module Delegate.
Import Py DocString.

(** [copy_property(target, cls, old_property_name)]: the three
    functions of the new property are made first; they have no
    docstring and reach the object [target(self)] only when they are
    called.  The docstring is read from [cls.META_DOC_FOR_ATTRIBUTES]
    and given to the property.  [new_property_fget] is the identity of
    the getter the call makes. *)
Definition copy_property (cls : pyclass) (old_property_name : string)
    (new_property_fget : nat) : result pyval :=
  match getattr cls "META_DOC_FOR_ATTRIBUTES" with
  | None => Raise (AttributeError "META_DOC_FOR_ATTRIBUTES")
  | Some docs_value =>
      doc ← getdoc docs_value old_property_name;
      Ok (VProperty (Some new_property_fget) (Some doc))
  end.


End Delegate.

(** ** [cotk/_utils/metaclass.py]: the errors of a replacement *)

Module DocStringMessages.
Import DocString.

(** The two texts of the errors [replace_for_clsdict] and [replace_for]
    raise; [where_] is [class <name>] or [<name>.<attr>]. *)
Definition no_base_message (where_ attr_name : string) : string :=
  "Can't find " +:+ attr_name +:+ " when interpreting docstring of "
  +:+ where_ +:+ ", because the class doesn't have a baseclass named "
  +:+ first_part attr_name +:+ ".".

Definition no_constant_message (where_ attr_name : string) : string :=
  "Can't find " +:+ attr_name +:+ " when interpreting docstring of "
  +:+ where_ +:+ ", please check whether the CONSTANT exists.".

(** The text the docstring of an attribute starts from when the loop
    comes to it with the docstrings [h]: its own when it is not empty,
    the inherited one otherwise. *)
Definition attr_start_doc (docs : builtin_docs) (h : heap)
    (bases : list pyclass) (attr : string) (attribute : pyval) : string :=
  if doc_truthy (value_doc docs h attribute)
  then default "" (value_doc docs h attribute)
  else DocStringSpec.inherited_attr_doc bases attr.

(** [if not doc: doc = None]. *)
Definition final_doc (doc : string) : option string :=
  if decide (doc = "") then None else Some doc.

End DocStringMessages.

(** ** [cotk/dataloader/single_turn_dialog.py]: [OpenSubtitles] *)

Module OpenSubtitles.
Import Py SingleTurnDialog.

Section init.
Context {P O V R : Type}.
Variable PretrainedVocab : P → result V.
Variable super_init :
  field_parameters P O V → option vocab_parameters →
  string → list (string * string) → dataloader R → result () * dataloader R.
Variable set_default_field :
  string → string → dataloader R → result () * dataloader R.

(** [OpenSubtitles.__init__]: an argument that the call leaves out
    ([None] here) takes its default, and all arguments go to
    [SingleTurnDialog.__init__]. *)
Definition __init__ (file_id : option string)
    (tokenizer : option (tokenizer_arg P O))
    (max_sent_length : option (option Z))
    (convert_to_lower_letter : option (option bool))
    (min_frequent_vocab_times min_rare_vocab_times : option (option Z))
    (pretrained : option (option string)) (self : dataloader R)
    : result () * dataloader R :=
  SingleTurnDialog.__init__ PretrainedVocab super_init set_default_field
    (default "resources://OpenSubtitles" file_id)
    (default (TokName "nltk") tokenizer)
    (default (Some 50) max_sent_length)
    (default (Some false) convert_to_lower_letter)
    (default (Some 10) min_frequent_vocab_times)
    (default (Some 0) min_rare_vocab_times)
    (default None pretrained)
    self.
End init.

End OpenSubtitles.

(** * Properties *)

(** ** Slices and [index] *)

Module PyFacts.
Import Py.

(** A sequence of two calls returns only when both do. *)
Lemma bind_Ok {A B : Type} (r : result A) (k : A → result B) (b : B) :
  r ≫= k = Ok b → ∃ a, r = Ok a ∧ k a = Ok b.
Proof. destruct r as [a| |]; simpl; [|done..]. intros Hk. by exists a. Qed.

(** Two sequences of calls agree when their parts agree wherever the
    first one does not run out of fuel. *)
Lemma bind_keeps {A B : Type} (r r' : result A) (k k' : A → result B) :
  (r ≠ OutOfFuel → r' = r) →
  (∀ a, r = Ok a → k a ≠ OutOfFuel → k' a = k a) →
  r ≫= k ≠ OutOfFuel → r' ≫= k' = r ≫= k.
Proof.
  intros Hr Hk Hrun. destruct r as [a|e|]; simpl in *.
  - rewrite Hr by done. simpl. by apply Hk.
  - by rewrite Hr.
  - done.
Qed.

Lemma slice_bound_in_range (n i : Z) : 0 ≤ i ≤ n → slice_bound n i = i.
Proof.
  intros Hi. unfold slice_bound.
  destruct (Z.ltb_spec i 0); lia.
Qed.

(** A slice that starts after a prefix [pre] and spans the next block. *)
Lemma slice_middle {A : Type} (pre s post : list A) :
  slice (pre ++ s ++ post) (len pre) (len pre + len s) = s.
Proof.
  unfold slice, len.
  rewrite !length_app.
  rewrite !slice_bound_in_range by lia.
  replace (Z.to_nat (Z.of_nat (length pre))) with (length pre) by lia.
  replace (Z.to_nat (Z.of_nat (length pre) + Z.of_nat (length s)
                     - Z.of_nat (length pre))) with (length s) by lia.
  rewrite drop_app_length. apply take_app_length.
Qed.

Lemma slice_to_prefix {A : Type} (pre post : list A) :
  slice_to (pre ++ post) (len pre) = pre.
Proof.
  unfold slice_to.
  change (slice (pre ++ post) 0 (len pre))
    with (slice ([] ++ pre ++ post) (len (@nil A)) (len (@nil A) + len pre)).
  apply slice_middle.
Qed.

(** [index] finds the first occurrence: everything before it differs. *)
Lemma index_Some {A : Type} `{EqDecision A} (l : list A) (x : A) (i : Z) :
  index l x = Some i →
  ∃ pre post, l = pre ++ (x :: post) ∧ (x ∉ pre) ∧ i = len pre.
Proof.
  revert i. induction l as [|y l IH]; intros i; simpl; [done|].
  destruct (decide (y = x)) as [->|Hne].
  - intros [= <-]. exists [], l. split_and!; [done|apply not_elem_of_nil|done].
  - destruct (index l x) as [j|] eqn:Hj; simpl; [|done].
    intros [= <-]. destruct (IH j eq_refl) as (pre & post & -> & Hpre & ->).
    exists (y :: pre), post. split_and!; [done| |unfold len; simpl; lia].
    rewrite not_elem_of_cons. by split.
Qed.

Lemma index_None {A : Type} `{EqDecision A} (l : list A) (x : A) :
  index l x = None ↔ x ∉ l.
Proof.
  induction l as [|y l IH]; simpl.
  - split; [intros _; apply not_elem_of_nil|done].
  - destruct (decide (y = x)) as [->|Hne].
    + split; [done|]. intros Hn. exfalso. apply Hn. left.
    + rewrite not_elem_of_cons, <- IH.
      destruct (index l x); simpl.
      * split; [done|]. by intros [_ [=]].
      * split; [|done]. intros _. split; [by intros ->|done].
Qed.

End PyFacts.

(** ** [cotk/_utils/utils.py] *)

Module UtilsFacts.
Import Py PyFacts Utils.

Section utils.
Context {A : Type} `{EqDecision A}.

(** The loop invariant of [restore_sessions]: when [last] is the length
    of the part of the chained list already consumed, the loop appends
    the remaining sessions to the ones restored so far. *)
Lemma restore_sessions_loop_chain (pre : list A) (rest done_ : list (list A)) :
  restore_sessions_loop (pre ++ concat rest) (len <$> rest) done_ (len pre)
  = done_ ++ rest.
Proof.
  revert pre done_. induction rest as [|s rest IH]; intros pre done_; simpl.
  - by rewrite app_nil_r.
  - rewrite slice_middle.
    replace (len pre + len s) with (len (pre ++ s))
      by (unfold len; rewrite length_app; lia).
    replace (pre ++ s ++ concat rest) with ((pre ++ s) ++ concat rest)
      by (by rewrite <- app_assoc).
    rewrite IH. by rewrite <- app_assoc.
Qed.

(** C9: restoring the pair produced by [chain_sessions] gives back the
    original list of sessions. *)
Theorem restore_chain_sessions (sessions : list (list A)) :
  restore_sessions (chain_sessions sessions).1 (chain_sessions sessions).2
  = sessions.
Proof.
  unfold restore_sessions, chain_sessions; simpl.
  apply (restore_sessions_loop_chain [] sessions []).
Qed.

(** C10: [trim_before_target] returns the prefix strictly before the
    first occurrence of [target] (the prefix does not contain [target]
    and is followed by it in the list); without an occurrence the list
    comes back unchanged. *)
Theorem trim_before_target_spec (lists : list A) (target : A) :
  (target ∈ lists →
     ∃ rest, lists = trim_before_target lists target ++ (target :: rest)
             ∧ target ∉ trim_before_target lists target)
  ∧ (target ∉ lists → trim_before_target lists target = lists).
Proof.
  unfold trim_before_target. split.
  - intros Hin. destruct (index lists target) as [i|] eqn:Hi.
    + destruct (index_Some _ _ _ Hi) as (pre & post & -> & Hpre & ->).
      rewrite slice_to_prefix. by exists post.
    + apply index_None in Hi. done.
  - intros Hnin. apply index_None in Hnin. by rewrite Hnin.
Qed.

(** [replace_unk] keeps the shape and rewrites token by token. *)
Lemma replace_unk_lookup (sentences : list (list A)) (unk target : A)
    (i : nat) :
  replace_unk sentences unk target !! i
  = (λ sentence : list A,
       (λ token : A, if decide (token = unk) then target else token)
         <$> sentence) <$> (sentences !! i).
Proof. unfold replace_unk. apply list_lookup_fmap. Qed.

Lemma replace_unk_shape (sentences : list (list A)) (unk target : A) :
  length (replace_unk sentences unk target) = length sentences
  ∧ (length <$> replace_unk sentences unk target) = (length <$> sentences).
Proof.
  unfold replace_unk. split; [apply length_fmap|].
  rewrite <- list_fmap_compose. apply list_fmap_ext.
  intros i s _. simpl. apply length_fmap.
Qed.

Lemma replace_unk_token (sentences : list (list A)) (unk target : A)
    (i j : nat) (sentence : list A) (token : A) :
  sentences !! i = Some sentence → sentence !! j = Some token →
  ∃ row, replace_unk sentences unk target !! i = Some row
         ∧ row !! j = Some (if decide (token = unk) then target else token).
Proof.
  intros Hi Hj. rewrite replace_unk_lookup, Hi. simpl.
  eexists; split; [done|]. by rewrite list_lookup_fmap, Hj.
Qed.
End utils.

Lemma trim_before_target_spec_witness :
  (∃ rest, [3; 1; 4; 1; 5] = trim_before_target [3; 1; 4; 1; 5] 1 ++ (1 :: rest)
           ∧ 1 ∉ trim_before_target [3; 1; 4; 1; 5] 1)
  ∧ trim_before_target [3; 1; 4; 1; 5] 9 = [3; 1; 4; 1; 5].
Proof.
  split.
  - apply (proj1 (trim_before_target_spec [3; 1; 4; 1; 5] 1)).
    apply list_elem_of_further, list_elem_of_here.
  - apply (proj2 (trim_before_target_spec [3; 1; 4; 1; 5] 9)).
    intros Hin. repeat (apply elem_of_cons in Hin as [[=]|Hin]).
    by apply elem_of_nil in Hin.
Defined.

Example trim_before_target_ex1 :
  trim_before_target [3; 1; 4; 1; 5] 1 = [3].
Proof. reflexivity. Qed.

Example trim_before_target_ex2 :
  trim_before_target [3; 1; 4; 1; 5] 9 = [3; 1; 4; 1; 5].
Proof. reflexivity. Qed.

Example restore_sessions_ex :
  restore_sessions [1; 2; 3; 4; 5] [2; 0; 3] = [[1; 2]; []; [3; 4; 5]].
Proof. reflexivity. Qed.

Example replace_unk_ex :
  replace_unk_default [[2; 5; 1; 3]; [1; 1]] 1 = [[2; 5; -1; 3]; [-1; -1]].
Proof. reflexivity. Qed.

End UtilsFacts.


(** ** [LoadClassInterface] *)

Module LoadClassFacts.
Import Py LoadClass.

Lemma load_class_loop_no_match class_name subs result :
  Forall (λ c, ¬ matches class_name c) subs →
  load_class_loop class_name subs result = Ok result.
Proof.
  induction 1 as [|c subs Hc _ IH]; simpl; [done|].
  unfold matches in Hc. by rewrite decide_False.
Qed.

Lemma load_class_loop_found class_name subs found :
  Exists (matches class_name) subs →
  ∃ mid s post,
    subs = mid ++ s :: post
    ∧ Forall (λ c, ¬ matches class_name c) mid
    ∧ matches class_name s
    ∧ load_class_loop class_name subs (Some found)
      = Raise (two_classes_error class_name found s).
Proof.
  induction subs as [|c subs IH]; intros Hex.
  - by apply Exists_nil in Hex.
  - destruct (decide (matches class_name c)) as [Hc|Hc].
    + exists [], c, subs. split_and!; [done|constructor|done|].
      simpl. unfold matches in Hc. by rewrite decide_True.
    + apply Exists_cons in Hex as [?|Hex]; [done|].
      destruct (IH Hex) as (mid & s & post & -> & Hmid & Hs & Hrun).
      exists (c :: mid), s, post. split_and!; [done|by constructor|done|].
      simpl. unfold matches in Hc. by rewrite decide_False.
Qed.

(** With two matching entries at different positions the loop raises
    for the first two of them. *)
Lemma load_class_loop_two class_name pre r mid0 s0 post0 :
  Forall (λ c, ¬ matches class_name c) pre →
  matches class_name r → matches class_name s0 →
  ∃ mid s post,
    mid0 ++ s0 :: post0 = mid ++ s :: post
    ∧ Forall (λ c, ¬ matches class_name c) mid
    ∧ matches class_name s
    ∧ load_class_loop class_name (pre ++ r :: mid0 ++ s0 :: post0) None
      = Raise (two_classes_error class_name r s).
Proof.
  intros Hpre Hr Hs0.
  destruct (load_class_loop_found class_name (mid0 ++ s0 :: post0) r)
    as (mid & s & post & Heq & Hmid & Hs & Hrun).
  { apply Exists_app. right. by apply Exists_cons_hd. }
  exists mid, s, post. split_and!; try done.
  rewrite <- Hrun. clear Hrun Heq.
  induction Hpre as [|c pre Hc _ IH]; simpl.
  - unfold matches in Hr. by rewrite decide_True.
  - unfold matches in Hc. by rewrite decide_False.
Qed.

(** The first entry of a list that matches, when there is one. *)
Lemma first_match class_name (l : list klass) :
  Exists (matches class_name) l →
  ∃ pre r rest, l = pre ++ r :: rest
    ∧ Forall (λ c, ¬ matches class_name c) pre ∧ matches class_name r.
Proof.
  induction l as [|c l IH]; intros Hex.
  - by apply Exists_nil in Hex.
  - destruct (decide (matches class_name c)) as [Hc|Hc].
    + exists [], c, l. split_and!; [done|constructor|done].
    + apply Exists_cons in Hex as [?|Hex]; [done|].
      destruct (IH Hex) as (pre & r & rest & -> & Hpre & Hr).
      exists (c :: pre), r, rest. split_and!; [done|by constructor|done].
Qed.

(** Two entries of a list without repeated identities are two classes. *)
Lemma two_entries_differ (pre : list klass) r mid s post :
  NoDup (cid <$> pre ++ r :: mid ++ s :: post) → cid r ≠ cid s.
Proof.
  rewrite fmap_app, fmap_cons, fmap_app, fmap_cons.
  intros [_ [_ Hnd]]%NoDup_app. apply NoDup_cons in Hnd as [Hr _].
  intros Heq. apply Hr. rewrite Heq. apply elem_of_app. right. left.
Qed.

(** X20: when two distinct classes among the subclasses of [cls] have
    the name [class_name] up to case, [load_class cls class_name] raises and
    returns neither class: the loop stops at the second entry of the
    generator that matches, with the [RuntimeError] that carries the
    files of the first two matching entries when [inspect.getfile] finds
    both, and with the exception of [inspect.getfile] otherwise.  The two
    entries are two classes when no class is yielded twice. *)
Theorem load_class_two_matches (cls : klass) (class_name : string)
    (c1 c2 : klass) :
  c1 ∈ get_all_subclasses cls → c2 ∈ get_all_subclasses cls →
  cid c1 ≠ cid c2 →
  matches class_name c1 → matches class_name c2 →
  ∃ pre r mid s post,
    get_all_subclasses cls = pre ++ r :: mid ++ s :: post
    ∧ Forall (λ c, ¬ matches class_name c) pre ∧ matches class_name r
    ∧ Forall (λ c, ¬ matches class_name c) mid ∧ matches class_name s
    ∧ (NoDup (cid <$> get_all_subclasses cls) → cid r ≠ cid s)
    ∧ load_class cls class_name = Raise (two_classes_error class_name r s)
    ∧ (∀ file1 file2, getfile r = File file1 → getfile s = File file2 →
         load_class cls class_name
         = Raise (RuntimeError (two_classes_message class_name file1 file2))).
Proof.
  intros Hin1 Hin2 Hne Hm1 Hm2. unfold load_class.
  destruct (first_match class_name (get_all_subclasses cls))
    as (pre & r & rest & Hl & Hpre & Hr).
  { apply Exists_exists. by exists c1. }
  rewrite Hl in Hin1, Hin2 |- *.
  assert (Hside : ∀ c, c ∈ pre ++ r :: rest → matches class_name c →
                       c = r ∨ c ∈ rest).
  { intros c Hc Hm. apply elem_of_app in Hc as [Hc|Hc].
    - rewrite Forall_forall in Hpre. by destruct (Hpre c Hc).
    - apply elem_of_cons in Hc. tauto. }
  assert (Hex : Exists (matches class_name) rest).
  { apply Exists_exists.
    destruct (Hside c1 Hin1 Hm1) as [->|H1]; [|by exists c1].
    destruct (Hside c2 Hin2 Hm2) as [->|H2]; [done|by exists c2]. }
  destruct (first_match class_name rest Hex)
    as (mid0 & s0 & post0 & -> & Hmid0 & Hs0).
  destruct (load_class_loop_two class_name pre r mid0 s0 post0 Hpre Hr Hs0)
    as (mid & s & post & Heq & Hmid & Hs & Hrun).
  exists pre, r, mid, s, post. rewrite <- Heq. split_and!; try done.
  - rewrite Heq. apply two_entries_differ.
  - intros file1 file2 H1 H2. rewrite Hrun. unfold two_classes_error.
    by rewrite H1, H2.
Qed.

Lemma load_class_two_matches_witness :
  ∃ pre r mid s post,
    get_all_subclasses ex_root = pre ++ r :: mid ++ s :: post
    ∧ Forall (λ c, ¬ matches "MsCoco" c) pre ∧ matches "MsCoco" r
    ∧ Forall (λ c, ¬ matches "MsCoco" c) mid ∧ matches "MsCoco" s
    ∧ (NoDup (cid <$> get_all_subclasses ex_root) → cid r ≠ cid s)
    ∧ load_class ex_root "MsCoco" = Raise (two_classes_error "MsCoco" r s)
    ∧ (∀ file1 file2, getfile r = File file1 → getfile s = File file2 →
         load_class ex_root "MsCoco"
         = Raise (RuntimeError (two_classes_message "MsCoco" file1 file2))).
Proof.
  apply (load_class_two_matches ex_root "MsCoco"
           (Klass 2 "MSCOCO" (File "language_generation.py") [])
           (Klass 4 "mscoco" (File "my_loader.py") [])).
  - simpl. apply list_elem_of_here.
  - simpl. do 3 apply list_elem_of_further. apply list_elem_of_here.
  - simpl. lia.
  - reflexivity.
  - reflexivity.
Defined.

(** C4, where the code departs from it: in [ex_diamond] the two distinct
    classes [D] (file [d.py]) and [E] (file [e.py]) have the same name up
    to case.  The generator yields [D] once under [B] and once under [C];
    [load_class] takes the second time for another class and raises the
    [RuntimeError] with the file [d.py] twice, which is not the one that
    reports both class locations: [e.py] is not in it. *)
Theorem load_class_diamond_reports_one_file :
  get_all_subclasses ex_diamond
    = [ex_D; Klass 1 "B" (File "b.py") [ex_D];
       ex_D; Klass 2 "C" (File "c.py") [ex_D]; ex_E]
  ∧ matches "d" ex_D ∧ matches "d" ex_E ∧ cid ex_D ≠ cid ex_E
  ∧ load_class ex_diamond "d"
    = Raise (RuntimeError (two_classes_message "d" "d.py" "d.py"))
  ∧ load_class ex_diamond "d"
    ≠ Raise (RuntimeError (two_classes_message "d" "d.py" "e.py"))
  ∧ load_class ex_diamond "d"
    ≠ Raise (RuntimeError (two_classes_message "d" "e.py" "d.py")).
Proof. split_and!; try done; vm_compute; lia. Qed.

Example load_class_ex_found :
  load_class ex_root "opensubtitles"
  = Ok (Some (Klass 3 "OpenSubtitles" (File "single_turn_dialog.py") [])).
Proof. reflexivity. Qed.

Example load_class_ex_duplicate :
  load_class ex_root "MSCOCO"
  = Raise (RuntimeError
             (two_classes_message "MSCOCO" "language_generation.py"
                "my_loader.py")).
Proof. reflexivity. Qed.

(** The class [D] alone is already taken for two classes. *)
Example load_class_diamond :
  load_class ex_diamond "D"
  = Raise (RuntimeError (two_classes_message "D" "d.py" "d.py")).
Proof. reflexivity. Qed.

(** Without files the exception is the one of [inspect.getfile]. *)
Example load_class_ex_interactive :
  load_class ex_interactive "mscoco"
  = Raise (OSError "source code not available").
Proof. reflexivity. Qed.

(** C5, as the code has it: a [class_name] that matches no subclass makes
    [load_class] return [None]; nothing is raised. *)
Theorem load_class_unknown_name (cls : klass) (class_name : string) :
  Forall (λ c, ¬ matches class_name c) (get_all_subclasses cls) →
  load_class cls class_name = Ok None.
Proof. intros Hno. by apply load_class_loop_no_match. Qed.

Lemma ex_root_no_seqgan :
  Forall (λ c, ¬ matches "SeqGAN" c) (get_all_subclasses ex_root).
Proof. simpl. repeat constructor; by intros [=]. Qed.

Lemma load_class_unknown_name_witness :
  load_class ex_root "SeqGAN" = Ok None.
Proof.
  apply (load_class_unknown_name ex_root "SeqGAN").
  simpl. repeat constructor; by intros [=].
Defined.

(** The statement "an unknown name is reported by raising" fails: on
    [ex_root] the name [SeqGAN] matches nothing, and the call returns. *)
Lemma load_class_unknown_name_not_raised :
  ¬ (∀ (cls : klass) (class_name : string),
        Forall (λ c, ¬ matches class_name c) (get_all_subclasses cls) →
        ∃ e, load_class cls class_name = Raise e).
Proof.
  intros Hclaim.
  destruct (Hclaim ex_root "SeqGAN" ex_root_no_seqgan) as [e He].
  vm_compute in He. discriminate He.
Qed.

End LoadClassFacts.


(** ** [DocStringInheritor] *)

Module DocStringFacts.
Import Py PyFacts DocString DocStringSpec DocStringMessages.

Ltac bind_inv H :=
  let a := fresh "x" in
  let Ha := fresh "Hx" in
  apply bind_Ok in H as (a & Ha & H).

(** *** Dictionaries *)

Section dicts.
Context {V : Type}.
Implicit Types (d : dict V) (k : string) (v : V).

Lemma dict_get_set_eq d k v : dict_get (dict_set d k v) k = Some v.
Proof.
  induction d as [|[k' v'] d IH]; simpl.
  - by rewrite decide_True.
  - destruct (decide (k' = k)) as [->|Hne]; simpl.
    + by rewrite decide_True.
    + by rewrite decide_False.
Qed.

Lemma dict_get_set_ne d k k' v :
  k ≠ k' → dict_get (dict_set d k v) k' = dict_get d k'.
Proof.
  intros Hne. induction d as [|[k0 v0] d IH]; simpl.
  - by rewrite decide_False.
  - destruct (decide (k0 = k)) as [->|Hne0]; simpl.
    + by rewrite !decide_False.
    + destruct (decide (k0 = k')); [done|apply IH].
Qed.

Lemma dict_keys_set_present d k v :
  is_Some (dict_get d k) → dict_keys (dict_set d k v) = dict_keys d.
Proof.
  unfold dict_keys. induction d as [|[k0 v0] d IH]; simpl.
  - by intros [? [=]].
  - destruct (decide (k0 = k)) as [->|Hne]; simpl; [done|].
    intros Hs. f_equal. by apply IH.
Qed.

Lemma dict_keys_set_absent d k v :
  dict_get d k = None → dict_keys (dict_set d k v) = dict_keys d ++ [k].
Proof.
  unfold dict_keys. induction d as [|[k0 v0] d IH]; simpl; [done|].
  destruct (decide (k0 = k)) as [->|Hne]; simpl; [done|].
  intros Hs. f_equal. by apply IH.
Qed.

Lemma dict_get_None_keys d k : dict_get d k = None → k ∉ dict_keys d.
Proof.
  unfold dict_keys. induction d as [|[k0 v0] d IH]; simpl.
  - intros _. apply not_elem_of_nil.
  - destruct (decide (k0 = k)) as [->|Hne]; [done|].
    intros Hs. apply not_elem_of_cons. split; [done|by apply IH].
Qed.

Lemma dict_get_Some_keys d k v : dict_get d k = Some v → k ∈ dict_keys d.
Proof.
  unfold dict_keys. induction d as [|[k0 v0] d IH]; simpl; [done|].
  destruct (decide (k0 = k)) as [->|Hne].
  - intros _. left.
  - intros Hs. right. by apply IH.
Qed.

Lemma dict_keys_get d k : k ∈ dict_keys d → is_Some (dict_get d k).
Proof.
  intros Hk. destruct (dict_get d k) eqn:Hg; [done|].
  by apply dict_get_None_keys in Hg.
Qed.

Lemma dict_set_NoDup d k v :
  NoDup (dict_keys d) → NoDup (dict_keys (dict_set d k v)).
Proof.
  intros Hnd. destruct (dict_get d k) eqn:Hg.
  - by rewrite dict_keys_set_present.
  - rewrite dict_keys_set_absent by done.
    apply NoDup_app. split_and!; [done| |apply NoDup_singleton].
    intros x Hx ->%list_elem_of_singleton.
    by apply dict_get_None_keys in Hg.
Qed.

Lemma dict_keys_set_incl d k v k' :
  k' ∈ dict_keys d → k' ∈ dict_keys (dict_set d k v).
Proof.
  intros Hk. destruct (dict_get d k) eqn:Hg.
  - by rewrite dict_keys_set_present.
  - rewrite dict_keys_set_absent by done. apply elem_of_app. by left.
Qed.

Lemma dict_keys_set_elem d k v k' :
  k' ∈ dict_keys (dict_set d k v) ↔ k' = k ∨ k' ∈ dict_keys d.
Proof.
  destruct (dict_get d k) eqn:Hg.
  - rewrite dict_keys_set_present by done. split; [by right|].
    intros [->|?]; [by eapply dict_get_Some_keys|done].
  - rewrite dict_keys_set_absent by done.
    rewrite elem_of_app, list_elem_of_singleton. tauto.
Qed.

Lemma dict_get_elem d k v : dict_get d k = Some v → (k, v) ∈ d.
Proof.
  induction d as [|[k0 v0] d IH]; simpl; [done|].
  destruct (decide (k0 = k)) as [->|Hne].
  - intros [= ->]. left.
  - intros Hs. right. by apply IH.
Qed.

Lemma dict_get_remove d k k' :
  k' ≠ k → dict_get (dict_remove d k) k' = dict_get d k'.
Proof.
  intros Hne. unfold dict_remove.
  induction d as [|[k0 v0] d IH]; [done|].
  rewrite filter_cons. simpl.
  destruct (decide (k0 ≠ k)) as [Hk0|Hk0]; simpl.
  - destruct (decide (k0 = k')); [done|apply IH].
  - apply dec_stable in Hk0. subst k0. by rewrite decide_False.
Qed.

Lemma dict_get_defaults d extra k v :
  dict_get d k = Some v → dict_get (dict_defaults d extra) k = Some v.
Proof.
  unfold dict_defaults. revert d.
  induction extra as [|[k0 v0] extra IH]; intros d Hk; simpl; [done|].
  apply IH. destruct (dict_get d k0) eqn:Hk0; [done|].
  rewrite dict_get_set_ne; [done|]. intros ->. congruence.
Qed.

Lemma dict_set_is_Some d k v k' :
  is_Some (dict_get (dict_set d k v) k') ↔ k' = k ∨ is_Some (dict_get d k').
Proof.
  destruct (decide (k = k')) as [->|Hne].
  - rewrite dict_get_set_eq. split; [by left|done].
  - rewrite dict_get_set_ne by done. naive_solver.
Qed.
End dicts.


(** *** The loops of [__new__] *)

Section inheritance.
Variable re_sub : regex → (string → result pyval) → string → result string.
Variable docs : builtin_docs.
Variable linearize : list pyclass → dict pyval → result (list pyclass).
Variable provided : list pyclass → dict pyval → dict pyval.
Variable name : string.
Variable bases : list pyclass.

Abbreviation MDFA := "META_DOC_FOR_ATTRIBUTES".

Lemma substituted_trans repl s1 s2 s3 :
  substituted re_sub repl s1 s2 → substituted re_sub repl s2 s3 →
  substituted re_sub repl s1 s3.
Proof.
  induction 1 as [|pat d s s' s'' Hstep _ IH]; [done|].
  intros H3. eapply substituted_step; [done|]. by apply IH.
Qed.

(** The inheritance loop of the class docstring stops at the first
    class with a [META_DOC] that is not empty. *)
Lemma inherit_class_doc_loop_find l clsdict clsdict' :
  inherit_class_doc_loop l clsdict = Ok clsdict' →
  match List.find has_meta_doc l with
  | Some c => ∃ v, getattr c "META_DOC" = Some v ∧ truthy v = true
                   ∧ clsdict' = dict_set clsdict "__doc__" v
  | None => clsdict' = clsdict
  end.
Proof.
  induction l as [|c l IH]; simpl.
  - by intros [= ->].
  - unfold has_meta_doc at 1.
    destruct (getattr c "META_DOC") as [v|] eqn:Hv; simpl; [|done].
    destruct (truthy v) eqn:Ht.
    + intros [= <-]. by exists v.
    + apply IH.
Qed.

Lemma sub_class_doc_loop_spec fuel pat clsdict clsdict' :
  sub_class_doc_loop re_sub name bases fuel pat clsdict = Ok clsdict' →
  ∃ s s', dict_get clsdict "__doc__" = Some (VStr s)
    ∧ dict_get clsdict' "__doc__" = Some (VStr s')
    ∧ substituted re_sub (replace_for_clsdict name bases) s s'
    ∧ (∀ k, k ≠ "__doc__" → dict_get clsdict' k = dict_get clsdict k)
    ∧ dict_keys clsdict' = dict_keys clsdict.
Proof.
  revert clsdict. induction fuel as [|fuel IH]; intros clsdict; simpl;
    [done|].
  intros H. bind_inv H. bind_inv H.
  unfold getitem in Hx.
  destruct (dict_get clsdict "__doc__") as [old|] eqn:Hold; [|done].
  injection Hx as <-.
  destruct old as [|s| | | | |]; try done. simpl in Hx0.
  destruct (decide (VStr x0 = VStr s)) as [Heq|Hne].
  - injection H as <-. injection Heq as ->.
    exists s, s. split_and!; try done. apply substituted_refl.
  - destruct (IH _ H) as (s1 & s' & Hs1 & Hs' & Hsub & Hother & Hkeys).
    rewrite dict_get_set_eq in Hs1. injection Hs1 as <-.
    exists s, s'. split_and!; try done.
    + by eapply substituted_step.
    + intros k Hk. rewrite Hother by done. by apply dict_get_set_ne.
    + rewrite Hkeys. apply dict_keys_set_present. by rewrite Hold.
Qed.

(** With the guard: a docstring that is a string stays one, and comes
    from the old one by substitution; nothing else changes. *)
Lemma sub_class_doc_spec fuel pat clsdict clsdict' :
  sub_class_doc re_sub name bases fuel pat clsdict = Ok clsdict' →
  (∀ k, k ≠ "__doc__" → dict_get clsdict' k = dict_get clsdict k)
  ∧ dict_keys clsdict' = dict_keys clsdict
  ∧ (∀ s, dict_get clsdict "__doc__" = Some (VStr s) →
       ∃ s', dict_get clsdict' "__doc__" = Some (VStr s')
             ∧ substituted re_sub (replace_for_clsdict name bases) s s')
  ∧ (truthy (default VNone (dict_get clsdict "__doc__")) = true →
       ∃ s, dict_get clsdict "__doc__" = Some (VStr s))
  ∧ (dict_get clsdict' "__doc__" = dict_get clsdict "__doc__"
     ∨ ∃ s', dict_get clsdict' "__doc__" = Some (VStr s')).
Proof.
  unfold sub_class_doc.
  destruct (truthy (default VNone (dict_get clsdict "__doc__"))) eqn:Ht.
  - intros H.
    destruct (sub_class_doc_loop_spec _ _ _ _ H)
      as (s & s' & Hs & Hs' & Hsub & Hother & Hkeys).
    split_and!; try done.
    + intros s0 Hs0. rewrite Hs in Hs0. injection Hs0 as <-. by exists s'.
    + intros _. by exists s.
    + right. by exists s'.
  - intros [= <-]. split_and!; try done; [|by left].
    intros s Hs. exists s. split; [done|apply substituted_refl].
Qed.

(** The inheritance loop of an attribute stops at the first class that
    has the attribute and an entry for it. *)
Lemma inherit_attr_doc_loop_find attr l doc :
  inherit_attr_doc_loop attr l = Ok doc →
  doc = match List.find (has_attr_entry attr) l with
        | Some c => default "" (attr_meta_doc c attr)
        | None => ""
        end.
Proof.
  induction l as [|c l IH]; simpl.
  - by intros [= <-].
  - unfold has_attr_entry at 1, attr_meta_doc at 1.
    destruct (hasattr c attr); simpl; [|done].
    destruct (getattr c MDFA) as [v|] eqn:Hv; simpl.
    + destruct v as [|s|m| | | |]; simpl; try done.
      * destruct (is_substring attr s); [done|apply IH].
      * destruct (dict_get m attr) as [d|] eqn:Hd; simpl.
        -- intros [= <-]. unfold attr_meta_doc. by rewrite Hv, Hd.
        -- apply IH.
    + apply IH.
Qed.

Lemma sub_attr_doc_substituted fuel pat attr clsdict doc doc' :
  sub_attr_doc re_sub name bases fuel pat attr clsdict doc = Ok doc' →
  substituted re_sub (replace_for name bases attr) doc doc'.
Proof.
  revert doc. induction fuel as [|fuel IH]; intros doc; simpl; [done|].
  intros H. bind_inv H.
  destruct (decide (doc = x)) as [<-|Hne].
  - injection H as <-. apply substituted_refl.
  - eapply substituted_step; [done|]. by apply IH.
Qed.

Lemma meta_doc_set_get clsdict attr doc k :
  k ≠ MDFA →
  dict_get (meta_doc_set clsdict attr doc) k = dict_get clsdict k.
Proof.
  intros Hk. unfold meta_doc_set.
  destruct (dict_get clsdict MDFA) as [[]|]; try done.
  by apply dict_get_set_ne.
Qed.

Lemma meta_doc_set_docs clsdict attr doc m :
  dict_get clsdict MDFA = Some (VDocs m) →
  dict_get (meta_doc_set clsdict attr doc) MDFA
  = Some (VDocs (dict_set m attr doc)).
Proof.
  intros Hm. unfold meta_doc_set. rewrite Hm. apply dict_get_set_eq.
Qed.

Lemma meta_doc_set_keys (clsdict : dict pyval) attr doc :
  dict_keys (meta_doc_set clsdict attr doc) = dict_keys clsdict.
Proof.
  unfold meta_doc_set.
  destruct (dict_get clsdict MDFA) as [[]|] eqn:Hm; try done.
  apply dict_keys_set_present. by rewrite Hm.
Qed.

(** A value of the namespace after [meta_doc_set] was there before, or
    is the dictionary of docstrings. *)
Lemma meta_doc_set_value clsdict attr doc k v :
  dict_get (meta_doc_set clsdict attr doc) k = Some v →
  dict_get clsdict k = Some v ∨ ∃ m, k = MDFA ∧ v = VDocs m.
Proof.
  unfold meta_doc_set.
  destruct (dict_get clsdict MDFA) as [[]|]; try by left.
  destruct (decide (MDFA = k)) as [<-|Hne].
  - rewrite dict_get_set_eq. intros [= <-]. right. by eexists.
  - rewrite dict_get_set_ne by done. by left.
Qed.

(** *** The store of docstrings *)

Lemma heap_doc_insert (h : heap) o doc : heap_doc (<[o := doc]> h) o = doc.
Proof. unfold heap_doc. by rewrite lookup_insert_eq. Qed.

Lemma heap_doc_insert_ne (h : heap) o o' doc :
  o ≠ o' → heap_doc (<[o := doc]> h) o' = heap_doc h o'.
Proof. intros Hne. unfold heap_doc. by rewrite lookup_insert_ne. Qed.

(** The docstring of a value depends only on the docstring of its
    object. *)
Lemma value_doc_heap (h h' : heap) v :
  (∀ o, doc_object v = Some o → heap_doc h' o = heap_doc h o) →
  value_doc docs h' v = value_doc docs h v.
Proof. intros Ho. destruct v; simpl; try done; by apply Ho. Qed.

Lemma value_doc_object (h : heap) v o :
  doc_object v = Some o → value_doc docs h v = heap_doc h o.
Proof. destruct v; simpl; by intros [= ->]. Qed.

(** [set_doc] changes the namespace only for a property, under its
    key. *)
Lemma set_doc_get clsdict h attr attribute doc clsdict' h' k :
  set_doc docs clsdict h attr attribute doc = Ok (clsdict', h') →
  k ≠ attr ∨ (∀ fget old, attribute ≠ VProperty fget old) →
  dict_get clsdict' k = dict_get clsdict k.
Proof.
  intros H Hk. unfold set_doc in H. case_decide; [by simplify_eq|].
  destruct attribute as [|s|m|f|f|fg old|o w t]; try destruct w;
    simplify_eq; try done.
  destruct Hk as [Hk|Hk]; [by apply dict_get_set_ne|by destruct (Hk fg old)].
Qed.

Lemma set_doc_value clsdict h attr attribute doc clsdict' h' k v :
  set_doc docs clsdict h attr attribute doc = Ok (clsdict', h') →
  dict_get clsdict' k = Some v →
  dict_get clsdict k = Some v ∨ (k = attr ∧ ∃ fget d, v = VProperty fget d).
Proof.
  intros H. unfold set_doc in H. case_decide; [simplify_eq; by left|].
  destruct attribute as [|s|m|f|f|fg old|o w t]; try destruct w;
    simplify_eq; try by left.
  destruct (decide (attr = k)) as [->|Hne].
  - rewrite dict_get_set_eq. intros [= <-]. right. split; [done|by eexists _, _].
  - rewrite dict_get_set_ne by done. by left.
Qed.

Lemma set_doc_keys clsdict h attr attribute doc clsdict' h' :
  set_doc docs clsdict h attr attribute doc = Ok (clsdict', h') →
  is_Some (dict_get clsdict attr) →
  dict_keys clsdict' = dict_keys clsdict.
Proof.
  intros H Hattr. unfold set_doc in H. case_decide; [by simplify_eq|].
  destruct attribute as [|s|m|f|f|fg old|o w t]; try destruct w;
    simplify_eq; try done.
  by apply dict_keys_set_present.
Qed.

(** [set_doc] assigns only to the object of the attribute, and leaves
    it with the docstring it was called with. *)
Lemma set_doc_heap clsdict h attr attribute doc clsdict' h' o :
  set_doc docs clsdict h attr attribute doc = Ok (clsdict', h') →
  doc_object attribute ≠ Some o → heap_doc h' o = heap_doc h o.
Proof.
  intros H Ho. unfold set_doc in H. case_decide; [by simplify_eq|].
  destruct attribute as [|s|m|f|f|fg old|f w t]; try destruct w;
    simplify_eq; try done; simpl in Ho; apply heap_doc_insert_ne; congruence.
Qed.

Lemma set_doc_doc clsdict h attr attribute doc clsdict' h' o :
  set_doc docs clsdict h attr attribute doc = Ok (clsdict', h') →
  doc_object attribute = Some o → heap_doc h' o = doc.
Proof.
  intros H Ho. unfold set_doc in H. case_decide as Hsame.
  - simplify_eq. by rewrite (value_doc_object _ _ _ Ho).
  - destruct attribute as [|s|m|f|f|fg old|f w t]; try destruct w;
      simpl in Ho; simplify_eq; apply heap_doc_insert.
Qed.


(** *** One round of the attribute loop *)

(** The parts of a round: the attribute, the entry for it (the text
    after the first substitution), the text after the last
    substitution, and the call of [set_doc]. *)
Lemma attr_step_inv fuel clsdict h attr clsdict' h' :
  attr_step re_sub docs name bases fuel clsdict h attr = Ok (clsdict', h') →
  ∃ attribute doc1 doc2,
    dict_get clsdict attr = Some attribute
    ∧ substituted re_sub (replace_for name bases attr)
        (attr_start_doc docs h bases attr attribute) doc1
    ∧ substituted re_sub (replace_for name bases attr) doc1 doc2
    ∧ set_doc docs (meta_doc_set clsdict attr doc1) h attr attribute
        (final_doc doc2) = Ok (clsdict', h').
Proof.
  intros H. unfold attr_step in H.
  bind_inv H. bind_inv H. bind_inv H. bind_inv H.
  rename x into attribute, x0 into doc0, x1 into doc1, x2 into doc2.
  unfold getitem in Hx.
  destruct (dict_get clsdict attr) as [v|] eqn:Hattr; [|done].
  injection Hx as ->.
  exists attribute, doc1, doc2. split_and!; try done.
  - apply sub_attr_doc_substituted in Hx1. unfold attr_start_doc.
    destruct (doc_truthy (value_doc docs h attribute)).
    + by injection Hx0 as <-.
    + apply inherit_attr_doc_loop_find in Hx0.
      unfold inherited_attr_doc, first_with_attr_entry. by rewrite <- Hx0.
  - by eapply sub_attr_doc_substituted.
Qed.

(** The entry of the round goes into the dictionary of docstrings. *)
Lemma attr_step_docs fuel clsdict h attr clsdict' h' m :
  attr_step re_sub docs name bases fuel clsdict h attr = Ok (clsdict', h') →
  dict_get clsdict MDFA = Some (VDocs m) →
  ∃ attribute doc1 doc2,
    dict_get clsdict attr = Some attribute
    ∧ dict_get clsdict' MDFA = Some (VDocs (dict_set m attr doc1))
    ∧ substituted re_sub (replace_for name bases attr)
        (attr_start_doc docs h bases attr attribute) doc1
    ∧ substituted re_sub (replace_for name bases attr) doc1 doc2
    ∧ set_doc docs (meta_doc_set clsdict attr doc1) h attr attribute
        (final_doc doc2) = Ok (clsdict', h').
Proof.
  intros H Hm.
  destruct (attr_step_inv _ _ _ _ _ _ H)
    as (attribute & doc1 & doc2 & Hattr & Hsub1 & Hsub2 & Hset).
  exists attribute, doc1, doc2. split_and!; try done.
  rewrite (set_doc_get _ _ _ _ _ _ _ MDFA Hset).
  - by apply meta_doc_set_docs.
  - destruct (decide (MDFA = attr)) as [<-|Hne]; [|by left].
    rewrite Hm in Hattr. injection Hattr as <-. by right.
Qed.

(** One round leaves the other keys alone, and under its own key
    everything but a property. *)
Lemma attr_step_get fuel clsdict h attr clsdict' h' k :
  attr_step re_sub docs name bases fuel clsdict h attr = Ok (clsdict', h') →
  k ≠ MDFA →
  k ≠ attr ∨ (∀ fget old, dict_get clsdict k ≠ Some (VProperty fget old)) →
  dict_get clsdict' k = dict_get clsdict k.
Proof.
  intros H Hk Hor.
  destruct (attr_step_inv _ _ _ _ _ _ H)
    as (attribute & doc1 & doc2 & Hattr & _ & _ & Hset).
  rewrite (set_doc_get _ _ _ _ _ _ _ k Hset).
  - by apply meta_doc_set_get.
  - destruct Hor as [Hne|Hnot]; [by left|].
    destruct (decide (k = attr)) as [->|Hne]; [|by left].
    right. intros fget old ->. by destruct (Hnot fget old).
Qed.

(** A value of the namespace after a round was there before, or has no
    docstring that can be assigned. *)
Lemma attr_step_value fuel clsdict h attr clsdict' h' k v :
  attr_step re_sub docs name bases fuel clsdict h attr = Ok (clsdict', h') →
  dict_get clsdict' k = Some v →
  dict_get clsdict k = Some v ∨ doc_object v = None.
Proof.
  intros H Hv.
  destruct (attr_step_inv _ _ _ _ _ _ H)
    as (attribute & doc1 & doc2 & Hattr & _ & _ & Hset).
  destruct (set_doc_value _ _ _ _ _ _ _ _ _ Hset Hv)
    as [Hmid|[_ (fget & d & ->)]]; [|by right].
  destruct (meta_doc_set_value _ _ _ _ _ Hmid) as [?|(m & _ & ->)];
    [by left|by right].
Qed.

Lemma attr_step_keys fuel clsdict h attr clsdict' h' :
  attr_step re_sub docs name bases fuel clsdict h attr = Ok (clsdict', h') →
  dict_keys clsdict' = dict_keys clsdict.
Proof.
  intros H.
  destruct (attr_step_inv _ _ _ _ _ _ H)
    as (attribute & doc1 & doc2 & Hattr & _ & _ & Hset).
  rewrite (set_doc_keys _ _ _ _ _ _ _ Hset).
  - apply meta_doc_set_keys.
  - apply dict_keys_get. rewrite meta_doc_set_keys.
    by eapply dict_get_Some_keys.
Qed.

(** A round assigns only to the object of the attribute it visits. *)
Lemma attr_step_heap fuel clsdict h attr clsdict' h' o :
  attr_step re_sub docs name bases fuel clsdict h attr = Ok (clsdict', h') →
  (∀ v, dict_get clsdict attr = Some v → doc_object v ≠ Some o) →
  heap_doc h' o = heap_doc h o.
Proof.
  intros H Ho.
  destruct (attr_step_inv _ _ _ _ _ _ H)
    as (attribute & doc1 & doc2 & Hattr & _ & _ & Hset).
  eapply set_doc_heap; [done|]. by apply Ho.
Qed.

(** *** The whole loop *)

Lemma attr_loop_app fuel keys1 keys2 clsdict h :
  attr_loop re_sub docs name bases fuel (keys1 ++ keys2) clsdict h
  = st ← attr_loop re_sub docs name bases fuel keys1 clsdict h;
    attr_loop re_sub docs name bases fuel keys2 st.1 st.2.
Proof.
  revert clsdict h. induction keys1 as [|k keys1 IH]; intros clsdict h;
    simpl; [done|].
  destruct (attr_step _ _ _ _ _ _ _ _) as [[d1 h1]| |]; simpl; [apply IH|done..].
Qed.

(** The loop at the round of one of its keys. *)
Lemma attr_loop_split fuel keys attr clsdict h clsdict' h' :
  attr_loop re_sub docs name bases fuel keys clsdict h = Ok (clsdict', h') →
  NoDup keys → attr ∈ keys →
  ∃ keys1 keys2 d0 h0 d1 h1,
    keys = keys1 ++ attr :: keys2
    ∧ (attr ∉ keys1) ∧ (attr ∉ keys2)
    ∧ attr_loop re_sub docs name bases fuel keys1 clsdict h = Ok (d0, h0)
    ∧ attr_step re_sub docs name bases fuel d0 h0 attr = Ok (d1, h1)
    ∧ attr_loop re_sub docs name bases fuel keys2 d1 h1 = Ok (clsdict', h').
Proof.
  intros H Hnd Hin.
  apply list_elem_of_split in Hin as (keys1 & keys2 & ->).
  apply NoDup_app in Hnd as (_ & Hdisj & [Hn2 _]%NoDup_cons).
  rewrite attr_loop_app in H. bind_inv H. destruct x as [d0 h0].
  simpl in H. bind_inv H. destruct x as [d1 h1]. simpl in H.
  exists keys1, keys2, d0, h0, d1, h1. split_and!; try done.
  intros Hin1. apply (Hdisj attr Hin1). left.
Qed.

(** A key other than the dictionary of docstrings keeps its value when
    the loop does not visit it, or when the value is not a property. *)
Lemma attr_loop_get fuel keys clsdict h clsdict' h' k :
  attr_loop re_sub docs name bases fuel keys clsdict h = Ok (clsdict', h') →
  k ≠ MDFA →
  k ∉ keys ∨ (∀ fget old, dict_get clsdict k ≠ Some (VProperty fget old)) →
  dict_get clsdict' k = dict_get clsdict k.
Proof.
  revert clsdict h. induction keys as [|attr keys IH]; intros clsdict h; simpl.
  - by intros [= <- <-].
  - intros H Hk Hor. bind_inv H. destruct x as [d1 h1]. simpl in H.
    assert (Hstep : dict_get d1 k = dict_get clsdict k).
    { apply (attr_step_get _ _ _ _ _ _ _ Hx Hk).
      destruct Hor as [Hnin|Hs]; [|by right].
      left. intros ->. apply Hnin. left. }
    rewrite <- Hstep. apply (IH _ _ H Hk).
    destruct Hor as [Hnin|Hs].
    + left. intros Hin. apply Hnin. by right.
    + right. by rewrite Hstep.
Qed.

Lemma attr_loop_value fuel keys clsdict h clsdict' h' k v :
  attr_loop re_sub docs name bases fuel keys clsdict h = Ok (clsdict', h') →
  dict_get clsdict' k = Some v →
  dict_get clsdict k = Some v ∨ doc_object v = None.
Proof.
  revert clsdict h. induction keys as [|attr keys IH]; intros clsdict h; simpl.
  - intros [= <- <-]. by left.
  - intros H Hv. bind_inv H. destruct x as [d1 h1]. simpl in H.
    destruct (IH _ _ H Hv) as [Hv1|?]; [|by right].
    by eapply attr_step_value.
Qed.

Lemma attr_loop_keys fuel keys clsdict h clsdict' h' :
  attr_loop re_sub docs name bases fuel keys clsdict h = Ok (clsdict', h') →
  dict_keys clsdict' = dict_keys clsdict.
Proof.
  revert clsdict h. induction keys as [|attr keys IH]; intros clsdict h; simpl.
  - by intros [= <- <-].
  - intros H. bind_inv H. destruct x as [d1 h1]. simpl in H.
    rewrite (IH _ _ H). by eapply attr_step_keys.
Qed.

(** The entries of the keys the loop does not visit stay. *)
Lemma attr_loop_docs_kept fuel keys clsdict h clsdict' h' m :
  attr_loop re_sub docs name bases fuel keys clsdict h = Ok (clsdict', h') →
  dict_get clsdict MDFA = Some (VDocs m) →
  ∃ m', dict_get clsdict' MDFA = Some (VDocs m')
        ∧ ∀ a, a ∉ keys → dict_get m' a = dict_get m a.
Proof.
  revert clsdict h m.
  induction keys as [|attr keys IH]; intros clsdict h m; simpl.
  - intros [= <- <-] Hm. by exists m.
  - intros H Hm. bind_inv H. destruct x as [d1 h1]. simpl in H.
    destruct (attr_step_docs _ _ _ _ _ _ _ Hx Hm)
      as (? & doc & ? & _ & Hm1 & _).
    destruct (IH _ _ _ H Hm1) as (m' & Hm' & Hkept).
    exists m'. split; [done|].
    intros a Ha. apply not_elem_of_cons in Ha as [Hne Ha].
    rewrite (Hkept a Ha). by apply dict_get_set_ne.
Qed.

(** After the loop the dictionary of docstrings has the entries it
    had, and one for every key the loop went through. *)
Lemma attr_loop_docs_all fuel keys clsdict h clsdict' h' m :
  attr_loop re_sub docs name bases fuel keys clsdict h = Ok (clsdict', h') →
  dict_get clsdict MDFA = Some (VDocs m) →
  ∃ m', dict_get clsdict' MDFA = Some (VDocs m')
    ∧ ∀ k, is_Some (dict_get m' k) ↔ k ∈ keys ∨ is_Some (dict_get m k).
Proof.
  clear linearize provided.
  revert clsdict h m.
  induction keys as [|attr keys IH]; intros clsdict h m; simpl.
  - intros [= <- <-] Hm. exists m. split; [done|]. intros k.
    rewrite elem_of_nil. naive_solver.
  - intros H Hm. bind_inv H. destruct x as [d1 h1]. simpl in H.
    destruct (attr_step_docs _ _ _ _ _ _ _ Hx Hm)
      as (? & doc & ? & _ & Hm1 & _).
    destruct (IH _ _ _ H Hm1) as (m' & Hm' & Hall).
    exists m'. split; [done|]. intros k.
    rewrite Hall, dict_set_is_Some, elem_of_cons. naive_solver.
Qed.

(** The loop leaves alone the docstring of an object that none of the
    keys it visits is bound to. *)
Lemma attr_loop_heap fuel keys clsdict h clsdict' h' o :
  attr_loop re_sub docs name bases fuel keys clsdict h = Ok (clsdict', h') →
  (∀ k v, k ∈ keys → dict_get clsdict k = Some v → doc_object v ≠ Some o) →
  heap_doc h' o = heap_doc h o.
Proof.
  revert clsdict h. induction keys as [|attr keys IH]; intros clsdict h; simpl.
  - by intros [= <- <-].
  - intros H Ho. bind_inv H. destruct x as [d1 h1]. simpl in H.
    rewrite (IH _ _ H).
    + eapply attr_step_heap; [done|]. intros v. apply Ho. left.
    + intros k v Hk Hv.
      destruct (attr_step_value _ _ _ _ _ _ _ _ Hx Hv) as [Hv0|Hnone].
      * eapply Ho; [|done]. by right.
      * by rewrite Hnone.
Qed.

Lemma not_shared_spec clsdict attr attribute k v :
  not_shared clsdict attr attribute = true →
  dict_get clsdict k = Some v → k ≠ attr →
  doc_object v = None ∨ doc_object v ≠ doc_object attribute.
Proof.
  unfold not_shared. rewrite forallb_forall. intros Hall Hv Hk.
  apply dict_get_elem, list_elem_of_In, Hall in Hv. simpl in Hv.
  apply orb_prop in Hv as [Hv|Hv]; [apply orb_prop in Hv as [Hv|Hv]|].
  - by apply bool_decide_eq_true in Hv.
  - apply bool_decide_eq_true in Hv. by left.
  - apply bool_decide_eq_true in Hv. by right.
Qed.

(** The round of an attribute whose object no other key is bound to:
    it starts from the docstring the attribute had before the loop, its
    entry stays, and so does the docstring it assigns. *)
Lemma attr_loop_full fuel keys clsdict h clsdict' h' m attr attribute :
  attr_loop re_sub docs name bases fuel keys clsdict h = Ok (clsdict', h') →
  dict_get clsdict MDFA = Some (VDocs m) →
  NoDup keys → attr ∈ keys → attr ≠ MDFA →
  dict_get clsdict attr = Some attribute →
  (∀ k v, k ≠ attr → dict_get clsdict k = Some v →
     doc_object v = None ∨ doc_object v ≠ doc_object attribute) →
  ∃ m' doc1 doc2,
    dict_get clsdict' MDFA = Some (VDocs m')
    ∧ dict_get m' attr = Some doc1
    ∧ substituted re_sub (replace_for name bases attr)
        (attr_start_doc docs h bases attr attribute) doc1
    ∧ substituted re_sub (replace_for name bases attr) doc1 doc2
    ∧ (∀ o, doc_object attribute = Some o → heap_doc h' o = final_doc doc2).
Proof.
  intros H Hm Hnd Hin Hne Hattr Hothers.
  destruct (attr_loop_split _ _ _ _ _ _ _ H Hnd Hin)
    as (keys1 & keys2 & d0 & h0 & d1 & h1 & -> & Hn1 & Hn2 & H1 & Hstep & H2).
  assert (Hfree : ∀ o k v, doc_object attribute = Some o → k ≠ attr →
                    dict_get clsdict k = Some v → doc_object v ≠ Some o).
  { intros o k v Ho Hk Hv.
    destruct (Hothers k v Hk Hv) as [->|Hv']; [done|congruence]. }
  destruct (attr_loop_docs_kept _ _ _ _ _ _ _ H1 Hm) as (m0 & Hm0 & _).
  assert (Hattr0 : dict_get d0 attr = Some attribute).
  { rewrite <- Hattr. apply (attr_loop_get _ _ _ _ _ _ _ H1 Hne). by left. }
  destruct (attr_step_docs _ _ _ _ _ _ _ Hstep Hm0)
    as (attribute' & doc1 & doc2 & Hattr' & Hm1 & Hsub1 & Hsub2 & Hset).
  rewrite Hattr0 in Hattr'. injection Hattr' as <-.
  destruct (attr_loop_docs_kept _ _ _ _ _ _ _ H2 Hm1) as (m' & Hm' & Hkept).
  exists m', doc1, doc2. split_and!; try done.
  - rewrite (Hkept attr Hn2). apply dict_get_set_eq.
  - assert (Hsame : value_doc docs h0 attribute = value_doc docs h attribute).
    { apply value_doc_heap. intros o Ho.
      apply (attr_loop_heap _ _ _ _ _ _ _ H1).
      intros k v Hk Hv. apply (Hfree o k v Ho); [|done].
      intros ->. done. }
    unfold attr_start_doc in *. by rewrite <- Hsame.
  - intros o Ho. rewrite (attr_loop_heap _ _ _ _ _ _ _ H2).
    + by eapply set_doc_doc.
    + intros k v Hk Hv.
      destruct (attr_step_value _ _ _ _ _ _ _ _ Hstep Hv) as [Hv0|Hnone];
        [|by rewrite Hnone].
      destruct (attr_loop_value _ _ _ _ _ _ _ _ H1 Hv0) as [Hv00|Hnone];
        [|by rewrite Hnone].
      apply (Hfree o k v Ho); [|done]. intros ->. done.
Qed.

(** *** The class docstring *)

(** The class docstring after the inheritance step: a class with its
    own docstring keeps the namespace, a class without one gets the
    [META_DOC] of the first class that has one. *)
Lemma inherit_class_doc_spec clsdict clsdict' :
  inherit_class_doc bases clsdict = Ok clsdict' →
  (∀ k, k ≠ "__doc__" → dict_get clsdict' k = dict_get clsdict k)
  ∧ (NoDup (dict_keys clsdict) → NoDup (dict_keys clsdict'))
  ∧ (has_own_doc clsdict = true → clsdict' = clsdict)
  ∧ (has_own_doc clsdict = false →
       ∀ c, first_with_meta_doc bases = Some c →
         ∃ v, getattr c "META_DOC" = Some v ∧ truthy v = true
              ∧ dict_get clsdict' "__doc__" = Some v)
  ∧ (dict_get clsdict' "__doc__" = dict_get clsdict "__doc__"
     ∨ truthy (default VNone (dict_get clsdict' "__doc__")) = true)
  ∧ (∀ k, k ∈ dict_keys clsdict' ↔
       k ∈ dict_keys clsdict
       ∨ (k = "__doc__" ∧ has_own_doc clsdict = false
          ∧ is_Some (first_with_meta_doc bases))).
Proof.
  clear linearize provided.
  unfold inherit_class_doc, first_with_meta_doc.
  destruct (has_own_doc clsdict) eqn:Hown.
  - intros [= <-]. split_and!; try done; [by left|]. naive_solver.
  - intros H. apply inherit_class_doc_loop_find in H.
    destruct (List.find has_meta_doc (mro_chain bases)) as [c|].
    + destruct H as (v & Hv & Ht & ->). split_and!; try done.
      * intros k Hk. by apply dict_get_set_ne.
      * apply dict_set_NoDup.
      * intros _ c' [= <-]. exists v. split_and!; try done.
        apply dict_get_set_eq.
      * right. by rewrite dict_get_set_eq.
      * intros k. rewrite dict_keys_set_elem. naive_solver.
    + subst clsdict'. split_and!; try done; [by left|].
      intros k. split; [by left|]. by intros [?|(_ & _ & [? [=]])].
Qed.

(** The steps of [new_namespace] one by one. *)
Lemma new_namespace_steps fuel clsdict h d6 h6 :
  new_namespace re_sub docs name bases fuel clsdict h = Ok (d6, h6) →
  ∃ d1 d2 d4,
    inherit_class_doc bases clsdict = Ok d1
    ∧ sub_class_doc re_sub name bases fuel ReCapital d1 = Ok d2
    ∧ sub_class_doc re_sub name bases fuel ReAny
        (dict_set d2 "META_DOC" (default VNone (dict_get d2 "__doc__")))
      = Ok d4
    ∧ attr_loop re_sub docs name bases fuel
        (dict_keys (dict_set d4 MDFA (VDocs [])))
        (dict_set d4 MDFA (VDocs [])) h = Ok (d6, h6).
Proof.
  intros H. unfold new_namespace in H.
  bind_inv H. bind_inv H. bind_inv H. by exists x, x0, x1.
Qed.

(** What the attribute loop starts from: the keys of the class body
    other than the docstrings have their values; every value was in the
    class body, under its key or as the docstring, or has no docstring
    that can be assigned. *)
Lemma loop_start fuel clsdict d1 d2 d4 :
  inherit_class_doc bases clsdict = Ok d1 →
  sub_class_doc re_sub name bases fuel ReCapital d1 = Ok d2 →
  sub_class_doc re_sub name bases fuel ReAny
    (dict_set d2 "META_DOC" (default VNone (dict_get d2 "__doc__"))) = Ok d4 →
  let d5 := dict_set d4 MDFA (VDocs []) in
  dict_get d5 MDFA = Some (VDocs [])
  ∧ (NoDup (dict_keys clsdict) → NoDup (dict_keys d5))
  ∧ (∀ k, k ≠ "__doc__" → k ≠ "META_DOC" → k ≠ MDFA →
       dict_get d5 k = dict_get clsdict k)
  ∧ (∀ k v, dict_get d5 k = Some v →
       doc_object v = None ∨ dict_get clsdict k = Some v
       ∨ dict_get clsdict "__doc__" = Some v)
  ∧ (∀ k, k ∈ dict_keys d5 ↔
       k ∈ dict_keys clsdict ∨ k = "META_DOC" ∨ k = MDFA
       ∨ (k = "__doc__" ∧ has_own_doc clsdict = false
          ∧ is_Some (first_with_meta_doc bases))).
Proof.
  clear linearize provided.
  intros H01 H12 H34 d5.
  destruct (inherit_class_doc_spec _ _ H01)
    as (Hother1 & Hnd1 & _ & _ & Hdoc1 & Hkeys1).
  destruct (sub_class_doc_spec _ _ _ _ H12)
    as (Hother2 & Hkeys2 & _ & Hstr1 & Hdoc2).
  destruct (sub_class_doc_spec _ _ _ _ H34)
    as (Hother4 & Hkeys4 & _ & _ & Hdoc4).
  assert (Hdoc : ∀ v, dict_get d2 "__doc__" = Some v →
                   doc_object v = None ∨ dict_get clsdict "__doc__" = Some v).
  { intros v Hv. destruct Hdoc2 as [Heq|[s Hs]].
    - rewrite Heq in Hv. destruct Hdoc1 as [Heq1|Ht].
      + right. by rewrite <- Heq1.
      + destruct (Hstr1 Ht) as [s Hs]. rewrite Hs in Hv.
        injection Hv as <-. by left.
    - rewrite Hs in Hv. injection Hv as <-. by left. }
  split_and!.
  - apply dict_get_set_eq.
  - intros Hnd. apply dict_set_NoDup. rewrite Hkeys4.
    apply dict_set_NoDup. rewrite Hkeys2. by apply Hnd1.
  - intros k Hk1 Hk2 Hk3. unfold d5. rewrite dict_get_set_ne by done.
    rewrite Hother4 by done. rewrite dict_get_set_ne by done.
    rewrite Hother2 by done. by rewrite Hother1.
  - intros k v. unfold d5.
    destruct (decide (k = MDFA)) as [->|Hk3].
    { rewrite dict_get_set_eq. intros [= <-]. by left. }
    rewrite dict_get_set_ne by done.
    destruct (decide (k = "__doc__")) as [->|Hk1].
    { intros Hv. destruct Hdoc4 as [Heq|[s Hs]].
      - rewrite Heq, dict_get_set_ne in Hv by done.
        destruct (Hdoc v Hv); [by left|right; by right].
      - rewrite Hs in Hv. injection Hv as <-. by left. }
    rewrite Hother4 by done.
    destruct (decide (k = "META_DOC")) as [->|Hk2].
    { rewrite dict_get_set_eq. intros [= <-].
      destruct (dict_get d2 "__doc__") as [v|] eqn:Hv; simpl; [|by left].
      destruct (Hdoc v eq_refl); [by left|right; by right]. }
    rewrite dict_get_set_ne by done. rewrite Hother2 by done.
    rewrite Hother1 by done. intros Hv. right. by left.
  - intros k. unfold d5. rewrite dict_keys_set_elem, Hkeys4.
    rewrite dict_keys_set_elem, Hkeys2, Hkeys1. naive_solver.
Qed.

(** *** [type.__new__] *)

(** The class that is made has the entries of the namespace as
    attributes; a [__classcell__] in the namespace is a cell. *)
Lemma type_new_attrs clsdict cls :
  type_new linearize provided name bases clsdict = Ok cls →
  (∀ k v, dict_get clsdict k = Some v →
     k ≠ "__classcell__" ∨ (∀ o w t, v ≠ VObject o w t) →
     dict_get (ns cls) k = Some v).
Proof.
  unfold type_new. intros H k v Hv Hk.
  assert (Hcell : k ≠ "__classcell__").
  { intros ->. rewrite Hv in H. destruct Hk as [?|Hk]; [done|].
    destruct (dict_get clsdict "__qualname__") as [[]|];
      destruct v as [| | | | | |vo vw vt]; try done; by destruct (Hk vo vw vt). }
  destruct (dict_get clsdict "__qualname__") as [[]|]; try done;
    destruct (dict_get clsdict "__classcell__") as [[]|]; try done;
    bind_inv H; injection H as <-; simpl; unfold class_attributes;
    apply dict_get_defaults; by rewrite dict_get_remove.
Qed.

(** The docstring of the class that is made is the one of the
    namespace. *)
Lemma type_new_doc clsdict cls :
  type_new linearize provided name bases clsdict = Ok cls →
  class_doc cls = default VNone (dict_get clsdict "__doc__").
Proof.
  intros H. destruct (dict_get clsdict "__doc__") as [v|] eqn:Hv; simpl.
  - unfold class_doc. rewrite (type_new_attrs _ _ H _ _ Hv); [done|by left].
  - unfold type_new in H.
    destruct (dict_get clsdict "__qualname__") as [[]|]; try done;
      destruct (dict_get clsdict "__classcell__") as [[]|]; try done;
      bind_inv H; injection H as <-; unfold class_doc, class_attributes;
      simpl; rewrite dict_get_remove, Hv by done;
      by erewrite dict_get_defaults by apply dict_get_set_eq.
Qed.

(** An attribute of the class itself is found on the class. *)
Lemma getattr_own cls k v :
  dict_get (ns cls) k = Some v → getattr cls k = Some v.
Proof. intros Hk. unfold getattr. simpl. by rewrite Hk. Qed.

Lemma new_inv fuel clsdict h cls h' :
  __new__ re_sub docs linearize provided name bases fuel clsdict h
  = Ok (cls, h') →
  ∃ d6, new_namespace re_sub docs name bases fuel clsdict h = Ok (d6, h')
        ∧ type_new linearize provided name bases d6 = Ok cls.
Proof.
  intros H. unfold __new__ in H. bind_inv H. destruct x as [d6 h6].
  simpl in H. bind_inv H. injection H as <- <-. by exists d6.
Qed.

Lemma getattr_made_docs cls m :
  dict_get (ns cls) MDFA = Some (VDocs m) →
  ∀ attr, attr_meta_doc cls attr = dict_get m attr.
Proof.
  intros Hm attr. unfold attr_meta_doc. by rewrite (getattr_own _ _ _ Hm).
Qed.

(** From the docstring after inheritance to the two docstrings of the
    class: [META_DOC] after the first substitution, [__doc__] after the
    second. *)
Lemma new_namespace_class_doc fuel d1 d2 d4 h d6 h6 s0 :
  sub_class_doc re_sub name bases fuel ReCapital d1 = Ok d2 →
  sub_class_doc re_sub name bases fuel ReAny
    (dict_set d2 "META_DOC" (default VNone (dict_get d2 "__doc__"))) = Ok d4 →
  attr_loop re_sub docs name bases fuel
    (dict_keys (dict_set d4 MDFA (VDocs [])))
    (dict_set d4 MDFA (VDocs [])) h = Ok (d6, h6) →
  dict_get d1 "__doc__" = Some (VStr s0) →
  ∃ s1 s2, dict_get d6 "META_DOC" = Some (VStr s1)
    ∧ dict_get d6 "__doc__" = Some (VStr s2)
    ∧ substituted re_sub (replace_for_clsdict name bases) s0 s1
    ∧ substituted re_sub (replace_for_clsdict name bases) s1 s2.
Proof.
  intros H12 H34 H56 Hs0.
  destruct (sub_class_doc_spec _ _ _ _ H12) as (_ & _ & Hdoc2 & _).
  destruct (Hdoc2 s0 Hs0) as (s1 & Hs1 & Hsub1).
  rewrite Hs1 in H34. simpl in H34.
  destruct (sub_class_doc_spec _ _ _ _ H34) as (Hother4 & _ & Hdoc4 & _).
  destruct (Hdoc4 s1) as (s2 & Hs2 & Hsub2).
  { by rewrite dict_get_set_ne. }
  assert (Hmeta : dict_get (dict_set d4 MDFA (VDocs [])) "META_DOC"
                  = Some (VStr s1)).
  { rewrite dict_get_set_ne by done. rewrite Hother4 by done.
    apply dict_get_set_eq. }
  assert (Hdoc : dict_get (dict_set d4 MDFA (VDocs [])) "__doc__"
                 = Some (VStr s2)) by (by rewrite dict_get_set_ne).
  exists s1, s2. split_and!; try done.
  - rewrite (attr_loop_get _ _ _ _ _ _ "META_DOC" H56); [done|done|].
    right. intros ? ?. by rewrite Hmeta.
  - rewrite (attr_loop_get _ _ _ _ _ _ "__doc__" H56); [done|done|].
    right. intros ? ?. by rewrite Hdoc.
Qed.

(** C3, as the code has it.  Let [cls] be a class that [__new__] made
    from [clsdict].
    - If [clsdict] has a docstring of its own that is not empty, the
      [META_DOC] and the [__doc__] of [cls] come from it by placeholder
      substitution.
    - If it has none, they come by placeholder substitution from the
      [META_DOC] of the first class, in the iteration over the declared
      bases and the method resolution order of each, whose [META_DOC]
      is not empty.
    - For an attribute of [clsdict] whose docstring is empty, and whose
      object no other name of [clsdict] is bound to, the entry of
      [cls.META_DOC_FOR_ATTRIBUTES] comes by placeholder substitution
      from the entry of the first class, in the same iteration, that
      has the attribute and an entry for it, whether that entry is empty
      or not, and from [""] without such a class. *)
Theorem docstring_inheritance fuel clsdict h cls h' :
  __new__ re_sub docs linearize provided name bases fuel clsdict h
  = Ok (cls, h') →
  (has_own_doc clsdict = true →
     ∃ s0 s1 s2, dict_get clsdict "__doc__" = Some (VStr s0)
       ∧ getattr cls "META_DOC" = Some (VStr s1)
       ∧ class_doc cls = VStr s2
       ∧ substituted re_sub (replace_for_clsdict name bases) s0 s1
       ∧ substituted re_sub (replace_for_clsdict name bases) s1 s2)
  ∧ (has_own_doc clsdict = false →
     ∀ c, first_with_meta_doc bases = Some c →
       ∃ s0 s1 s2, getattr c "META_DOC" = Some (VStr s0)
         ∧ getattr cls "META_DOC" = Some (VStr s1)
         ∧ class_doc cls = VStr s2
         ∧ substituted re_sub (replace_for_clsdict name bases) s0 s1
         ∧ substituted re_sub (replace_for_clsdict name bases) s1 s2)
  ∧ (NoDup (dict_keys clsdict) →
     ∀ attr attribute,
       dict_get clsdict attr = Some attribute →
       attr ≠ "__doc__" → attr ≠ "META_DOC" → attr ≠ MDFA →
       doc_truthy (value_doc docs h attribute) = false →
       not_shared clsdict attr attribute = true →
       ∃ doc, attr_meta_doc cls attr = Some doc
         ∧ substituted re_sub (replace_for name bases attr)
             (inherited_attr_doc bases attr) doc).
Proof.
  intros H. destruct (new_inv _ _ _ _ _ H) as (d6 & Hns & Htype).
  destruct (new_namespace_steps _ _ _ _ _ Hns)
    as (d1 & d2 & d4 & H01 & H12 & H34 & H56).
  destruct (inherit_class_doc_spec _ _ H01)
    as (Hother1 & Hnd1 & Hown & Hinh & _).
  destruct (sub_class_doc_spec _ _ _ _ H12)
    as (Hother2 & Hkeys2 & _ & Hstr1 & _).
  pose proof (type_new_attrs _ _ Htype) as Hattrs.
  assert (Hclass : ∀ s0, dict_get d1 "__doc__" = Some (VStr s0) →
    ∃ s1 s2, getattr cls "META_DOC" = Some (VStr s1)
      ∧ class_doc cls = VStr s2
      ∧ substituted re_sub (replace_for_clsdict name bases) s0 s1
      ∧ substituted re_sub (replace_for_clsdict name bases) s1 s2).
  { intros s0 Hs0.
    destruct (new_namespace_class_doc _ _ _ _ _ _ _ _ H12 H34 H56 Hs0)
      as (s1 & s2 & Hs1 & Hs2 & Hsub1 & Hsub2).
    exists s1, s2. split_and!; try done.
    - apply getattr_own, (Hattrs _ _ Hs1). by left.
    - unfold class_doc. rewrite (Hattrs _ _ Hs2); [done|by left]. }
  split_and!.
  - intros Hown'. specialize (Hown Hown'). subst d1.
    unfold has_own_doc in Hown'.
    destruct (dict_get clsdict "__doc__") as [v|] eqn:Hv; [|done].
    destruct Hstr1 as [s0 Hs0]; [done|].
    injection Hs0 as ->.
    destruct (Hclass s0 eq_refl) as (s1 & s2 & ?). by exists s0, s1, s2.
  - intros Hown' c Hc.
    destruct (Hinh Hown' c Hc) as (v & Hv & Ht & Hd1).
    destruct Hstr1 as [s0 Hs0]; [by rewrite Hd1|].
    rewrite Hd1 in Hs0. injection Hs0 as ->.
    destruct (Hclass s0 Hd1) as (s1 & s2 & ?). by exists s0, s1, s2.
  - intros Hnd attr attribute Hattr Hne1 Hne2 Hne3 Hfalsy Hshared.
    destruct (loop_start _ _ _ _ _ H01 H12 H34)
      as (Hm5 & Hnd5 & Hsame5 & Hvalues5 & _).
    set (d5 := dict_set d4 MDFA (VDocs [])) in *.
    assert (Hattr5 : dict_get d5 attr = Some attribute)
      by (by rewrite Hsame5).
    destruct (attr_loop_full fuel (dict_keys d5) d5 h d6 h' [] attr attribute)
      as (m' & doc & doc2 & Hm' & Hdoc & Hsub & _); try done.
    + by apply Hnd5.
    + by eapply dict_get_Some_keys.
    + intros k v Hk Hv.
      destruct (Hvalues5 k v Hv) as [?|[Hv0|Hv0]]; [by left|..];
        by eapply not_shared_spec.
    + exists doc. split.
      * rewrite (getattr_made_docs cls m'); [done|].
        apply (Hattrs _ _ Hm'). by left.
      * unfold attr_start_doc in Hsub. by rewrite Hfalsy in Hsub.
Qed.

(** *** Fuel *)

(** A run that ends, with a class or with an exception, within [fuel]
    rounds of every loop ends in the same way with more fuel. *)
Lemma sub_class_doc_loop_fuel fuel fuel' pat clsdict :
  (fuel ≤ fuel')%nat →
  sub_class_doc_loop re_sub name bases fuel pat clsdict ≠ OutOfFuel →
  sub_class_doc_loop re_sub name bases fuel' pat clsdict
  = sub_class_doc_loop re_sub name bases fuel pat clsdict.
Proof.
  revert fuel' clsdict. induction fuel as [|fuel IH]; intros fuel' clsdict Hle;
    simpl; [done|].
  destruct fuel' as [|fuel']; [lia|]. simpl.
  apply bind_keeps; [done|]. intros old _.
  apply bind_keeps; [done|]. intros doc _.
  case_decide; [done|]. apply IH. lia.
Qed.

Lemma sub_class_doc_fuel fuel fuel' pat clsdict :
  (fuel ≤ fuel')%nat →
  sub_class_doc re_sub name bases fuel pat clsdict ≠ OutOfFuel →
  sub_class_doc re_sub name bases fuel' pat clsdict
  = sub_class_doc re_sub name bases fuel pat clsdict.
Proof.
  intros Hle. unfold sub_class_doc.
  destruct (truthy _); [by apply sub_class_doc_loop_fuel|done].
Qed.

Lemma sub_attr_doc_fuel fuel fuel' pat attr clsdict doc :
  (fuel ≤ fuel')%nat →
  sub_attr_doc re_sub name bases fuel pat attr clsdict doc ≠ OutOfFuel →
  sub_attr_doc re_sub name bases fuel' pat attr clsdict doc
  = sub_attr_doc re_sub name bases fuel pat attr clsdict doc.
Proof.
  revert fuel' doc. induction fuel as [|fuel IH]; intros fuel' doc Hle;
    simpl; [done|].
  destruct fuel' as [|fuel']; [lia|]. simpl.
  apply bind_keeps; [done|]. intros new_doc _.
  case_decide; [done|]. apply IH. lia.
Qed.

Lemma attr_step_fuel fuel fuel' clsdict h attr :
  (fuel ≤ fuel')%nat →
  attr_step re_sub docs name bases fuel clsdict h attr ≠ OutOfFuel →
  attr_step re_sub docs name bases fuel' clsdict h attr
  = attr_step re_sub docs name bases fuel clsdict h attr.
Proof.
  intros Hle. unfold attr_step.
  apply bind_keeps; [done|]. intros attribute _.
  apply bind_keeps; [done|]. intros doc0 _.
  apply bind_keeps; [by apply sub_attr_doc_fuel|]. intros doc1 _.
  apply bind_keeps; [by apply sub_attr_doc_fuel|]. done.
Qed.

Lemma attr_loop_fuel fuel fuel' keys clsdict h :
  (fuel ≤ fuel')%nat →
  attr_loop re_sub docs name bases fuel keys clsdict h ≠ OutOfFuel →
  attr_loop re_sub docs name bases fuel' keys clsdict h
  = attr_loop re_sub docs name bases fuel keys clsdict h.
Proof.
  intros Hle. revert clsdict h.
  induction keys as [|attr keys IH]; intros clsdict h; simpl; [done|].
  apply bind_keeps; [by apply attr_step_fuel|]. intros d _. apply IH.
Qed.

Lemma new_fuel fuel fuel' clsdict h :
  (fuel ≤ fuel')%nat →
  __new__ re_sub docs linearize provided name bases fuel clsdict h
  ≠ OutOfFuel →
  __new__ re_sub docs linearize provided name bases fuel' clsdict h
  = __new__ re_sub docs linearize provided name bases fuel clsdict h.
Proof.
  intros Hle. unfold __new__, new_namespace.
  apply bind_keeps; [|done].
  apply bind_keeps; [done|]. intros d1 _.
  apply bind_keeps; [by apply sub_class_doc_fuel|]. intros d2 _.
  apply bind_keeps; [by apply sub_class_doc_fuel|]. intros d4 _.
  by apply attr_loop_fuel.
Qed.
End inheritance.


(** *** Examples *)

Section examples.
Import DocStringExamples.

Example new_Base :
  new_ascii "Base" [] 5 base_dict ex_heap
  = Ok (Base, <[1%nat := Some "Load the base."]> ex_heap).
Proof. vm_compute. reflexivity. Qed.

Example Base_docs :
  getattr Base "META_DOC"
    = Some (VStr "A loader. file_id: no default See {_NOTE}.")
  ∧ class_doc Base = VStr "A loader. file_id: no default See the base."
  ∧ attr_meta_doc Base "f" = Some "Load {_NOTE}."
  ∧ dict_get (ns Base) "f" = Some (VFunction 1).
Proof. by split_and!. Qed.

Example new_Derived :
  new_ascii "Derived" [Base] 5 derived_dict ex_heap
  = Ok (Derived, <[2%nat := Some "Load the derived."]> ex_heap).
Proof. vm_compute. reflexivity. Qed.

(** The inherited text keeps the [ARGUMENTS] of [Base] and takes the
    [_NOTE] of [Derived]. *)
Example Derived_docs :
  getattr Derived "META_DOC"
    = Some (VStr "A loader. file_id: no default See {_NOTE}.")
  ∧ class_doc Derived
    = VStr "A loader. file_id: no default See the derived."
  ∧ attr_meta_doc Derived "f" = Some "Load {_NOTE}."
  ∧ dict_get (ns Derived) "f" = Some (VFunction 2).
Proof. by split_and!. Qed.

(** A class without docstring under a base without docstring is not
    made: the loop reaches [object], which has no [META_DOC]. *)
Example new_undocumented :
  new_ascii "Sub" [made (new_ascii "Top" [] 5 [] ∅)] 5 [] ∅
  = Raise (AttributeError "META_DOC").
Proof. reflexivity. Qed.

(** A constant that is not there. *)
Example new_missing_constant :
  new_ascii "K" [] 5 [("__doc__", VStr "See {MISSING}.")] ∅
  = Raise (ValueError
      "Can't find MISSING when interpreting docstring of class K, please check whether the CONSTANT exists.").
Proof. reflexivity. Qed.

(** Two constants that name each other keep the loop running. *)
Example new_out_of_fuel :
  new_ascii "K" [] 50
    [("__doc__", VStr "{X}"); ("X", VStr "{Y} "); ("Y", VStr "{X}")] ∅
  = OutOfFuel.
Proof. vm_compute. reflexivity. Qed.

Example new_Both :
  new_ascii "Both" [Left; Right] 5 both_dict ex_heap = Ok (Both, ex_heap).
Proof. vm_compute. reflexivity. Qed.

(** What [type.__new__] makes of a namespace: the cell that the
    compiler adds for [super()] is taken out, and a class without
    docstring has [None] for it. *)
Example class_attributes_ex :
  class_attributes ex_provided []
    [("__qualname__", VStr "K"); ("__classcell__", VObject 9 false true);
     ("META_DOC", VNone)]
  = [("__qualname__", VStr "K"); ("META_DOC", VNone); ("__doc__", VNone)].
Proof. reflexivity. Qed.

(** Two names for one function: the round of [f] assigns the inherited
    docstring to the function, and the round of [g] then finds the
    function with a docstring and inherits nothing, although no base
    has an attribute [g]. *)
Example Alias_docs :
  new_ascii "Alias" [Base] 5 alias_dict ex_heap
    = Ok (Alias, <[6%nat := Some "Load the base."]> ex_heap)
  ∧ inherited_attr_doc [Base] "f" = "Load {_NOTE}."
  ∧ inherited_attr_doc [Base] "g" = ""
  ∧ attr_meta_doc Alias "f" = Some "Load {_NOTE}."
  ∧ attr_meta_doc Alias "g" = Some "Load the base."
  ∧ not_shared alias_dict "g" (VFunction 6) = false.
Proof. by split_and!. Qed.
End examples.

(** A text without braces is left alone by [re_sub_ascii]. *)
Lemma substituted_docB repl s :
  substituted re_sub_ascii repl "docB" s → s = "docB".
Proof.
  intros H. remember "docB" as s0 eqn:Hs0.
  induction H as [|pat d s s' s'' Hstep _ IH]; [done|].
  subst s.
  assert (Hs' : s' = "docB")
    by (destruct pat; cbv in Hstep; by injection Hstep as <-).
  rewrite <- Hs'. by apply IH.
Qed.

Lemma docstring_inheritance_witness :
  let bases := [DocStringExamples.Base] in
  (∃ s0 s1 s2,
        getattr DocStringExamples.Base "META_DOC" = Some (VStr s0)
        ∧ getattr DocStringExamples.Derived "META_DOC" = Some (VStr s1)
        ∧ class_doc DocStringExamples.Derived = VStr s2
        ∧ substituted re_sub_ascii (replace_for_clsdict "Derived" bases) s0 s1
        ∧ substituted re_sub_ascii (replace_for_clsdict "Derived" bases) s1 s2)
  ∧ (∃ doc, attr_meta_doc DocStringExamples.Derived "f" = Some doc
        ∧ substituted re_sub_ascii (replace_for "Derived" bases "f")
            (inherited_attr_doc bases "f") doc).
Proof.
  intros bases.
  assert (Hnew : __new__ re_sub_ascii ex_builtin_docs linearize_keep_last
                   ex_provided "Derived" bases 5
                   DocStringExamples.derived_dict DocStringExamples.ex_heap
                 = Ok (DocStringExamples.Derived,
                       <[2%nat := Some "Load the derived."]>
                         DocStringExamples.ex_heap))
    by (vm_compute; reflexivity).
  destruct (docstring_inheritance re_sub_ascii ex_builtin_docs
              linearize_keep_last ex_provided "Derived" bases 5
              DocStringExamples.derived_dict DocStringExamples.ex_heap
              DocStringExamples.Derived _ Hnew)
    as (_ & Hinherited & Hattr).
  split.
  - apply (Hinherited eq_refl DocStringExamples.Base eq_refl).
  - apply (Hattr ltac:(by apply (bool_decide_unpack _)) "f" (VFunction 2));
      [reflexivity|discriminate..|reflexivity|reflexivity].
Defined.

(** [Both] has the bases [Left] and [Right] and a method [f] without
    docstring.  The first class with a docstring for [f] that is not
    empty is [Right], but the loop stops at [Left], which has [f] and an
    empty entry for it. *)
Example Both_docs :
  let bases := [DocStringExamples.Left; DocStringExamples.Right] in
  attr_meta_doc DocStringExamples.Left "f" = Some ""
  ∧ attr_meta_doc DocStringExamples.Right "f" = Some "docB"
  ∧ first_nonempty_attr_doc bases "f" = Some "docB"
  ∧ inherited_attr_doc bases "f" = ""
  ∧ attr_meta_doc DocStringExamples.Both "f" = Some ""
  ∧ dict_get (ns DocStringExamples.Both) "f" = Some (VFunction 5)
  ∧ heap_doc DocStringExamples.ex_heap 5 = None.
Proof. by split_and!. Qed.

(** The rule of the class docstring does not carry over to attributes as
    it stands: it is not true that an attribute without docstring gets,
    up to substitution, the entry of the first class whose entry is not
    empty.  [Both] is made, its [f] is a function without docstring that
    no other name is bound to, the first entry for [f] that is not empty
    is [docB], and the entry of [Both] is the empty text, which no
    substitution makes of [docB]. *)
Lemma attribute_rule_counterexample :
  ¬ (∀ (name : string) (bases : list pyclass) (fuel : nat)
       (clsdict : dict pyval) (h : heap) (cls : pyclass) (h' : heap)
       (attr : string) (f : nat) (doc0 : string),
       new_ascii name bases fuel clsdict h = Ok (cls, h') →
       dict_get clsdict attr = Some (VFunction f) →
       heap_doc h f = None →
       not_shared clsdict attr (VFunction f) = true →
       first_nonempty_attr_doc bases attr = Some doc0 →
       ∃ doc, attr_meta_doc cls attr = Some doc
              ∧ substituted re_sub_ascii (replace_for name bases attr)
                  doc0 doc).
Proof.
  intros Hrule.
  assert (Hnew : new_ascii "Both"
                   [DocStringExamples.Left; DocStringExamples.Right] 5
                   DocStringExamples.both_dict DocStringExamples.ex_heap
                 = Ok (DocStringExamples.Both, DocStringExamples.ex_heap))
    by (vm_compute; reflexivity).
  destruct (Hrule "Both" [DocStringExamples.Left; DocStringExamples.Right]
              5%nat DocStringExamples.both_dict DocStringExamples.ex_heap
              DocStringExamples.Both DocStringExamples.ex_heap
              "f" 5%nat "docB" Hnew eq_refl eq_refl eq_refl eq_refl)
    as (doc & Hdoc & Hsub).
  apply substituted_docB in Hsub. subst doc. discriminate Hdoc.
Qed.

End DocStringFacts.


(** ** [SingleTurnDialog] *)

Module SingleTurnDialogFacts.
Import Py SingleTurnDialog.

Section init.
Context {P O V R : Type}.
Variable PretrainedVocab : P → result V.
Variable super_init :
  field_parameters P O V → option vocab_parameters →
  string → list (string * string) → dataloader R → result () * dataloader R.
Variable set_default_field :
  string → string → dataloader R → result () * dataloader R.

(** C6: [__init__] raises a [ValueError] when [pretrained] is ["gpt2"]
    and the tokenizer is not a [PretrainedTokenizer], and for every
    [pretrained] other than [None] and ["gpt2"]; in both cases the
    object has [_pretrained] recorded and nothing else changed. *)
Theorem init_errors (file_id : string) (tokenizer : tokenizer_arg P O)
    (max_sent_length : option Z) (convert_to_lower_letter : option bool)
    (min_frequent_vocab_times min_rare_vocab_times : option Z)
    (pretrained : string) (self : dataloader R) :
  let run :=
    __init__ PretrainedVocab super_init set_default_field file_id tokenizer
      max_sent_length convert_to_lower_letter min_frequent_vocab_times
      min_rare_vocab_times (Some pretrained) self in
  (pretrained = "gpt2" → is_pretrained_tokenizer tokenizer = false →
     run = (Raise (ValueError
              "tokenize should be loaded first if you want a gpt2 dataloader"),
            Dataloader (Some (Some pretrained)) (base self)))
  ∧ (pretrained ≠ "gpt2" →
     run = (Raise (ValueError ("No pretrained name " +:+ pretrained)),
            Dataloader (Some (Some pretrained)) (base self))).
Proof.
  simpl. unfold __init__. split.
  - intros -> Htok. rewrite decide_True by done.
    by destruct tokenizer.
  - intros Hne. by rewrite decide_False.
Qed.
End init.

(** A run with concrete parts: [super().__init__] stores the names of the
    fields, [set_default_field] the default. *)
Lemma init_errors_witness :
  let PretrainedVocab := λ t : string, Ok (String.length t) in
  let super_init :=
    λ (_ : field_parameters string () nat) (_ : option vocab_parameters)
      (_ : string) (fields : list (string * string))
      (self : dataloader (list string)),
      (Ok (), Dataloader (_pretrained self) (fields.*1 ++ base self)) in
  let set_default_field :=
    λ (set_name field : string) (self : dataloader (list string)),
      (Ok (), Dataloader (_pretrained self) (field :: base self)) in
  __init__ PretrainedVocab super_init set_default_field "resources://OpenSubtitles"
    (TokName "nltk") (Some 50) (Some false) (Some 10) (Some 0) (Some "gpt2")
    (Dataloader None [])
  = (Raise (ValueError
       "tokenize should be loaded first if you want a gpt2 dataloader"),
     Dataloader (Some (Some "gpt2")) [])
  ∧ __init__ PretrainedVocab super_init set_default_field "resources://OpenSubtitles"
      (TokName "nltk") (Some 50) (Some false) (Some 10) (Some 0) (Some "bert")
      (Dataloader None [])
    = (Raise (ValueError "No pretrained name bert"),
       Dataloader (Some (Some "bert")) []).
Proof.
  intros PretrainedVocab super_init set_default_field. split.
  - apply (init_errors PretrainedVocab super_init set_default_field
             "resources://OpenSubtitles" (TokName "nltk") (Some 50)
             (Some false) (Some 10) (Some 0) "gpt2" (Dataloader None []));
      reflexivity.
  - apply (init_errors PretrainedVocab super_init set_default_field
             "resources://OpenSubtitles" (TokName "nltk") (Some 50)
             (Some false) (Some 10) (Some 0) "bert" (Dataloader None []));
      discriminate.
Defined.

(** The same parts on the two paths that construct the dataloader. *)
Example init_plain :
  __init__ (λ t : string, Ok (String.length t))
    (λ (_ : field_parameters string () nat) _ _ fields self,
       (Ok (), Dataloader (_pretrained self) (fields.*1 ++ base self)))
    (λ _ field self, (Ok (), Dataloader (_pretrained self) (field :: base self)))
    "resources://OpenSubtitles" (TokName "nltk") (Some 50) (Some false)
    (Some 10) (Some 0) None (Dataloader None [])
  = (Ok (), Dataloader (Some None) ["post"; "post"; "resp"]).
Proof. reflexivity. Qed.

End SingleTurnDialogFacts.


(** ** [get_batch] *)

Module BatchFacts.
Import Py PyFacts Batch.

(** [select] takes the sentences at the indexes, in their order. *)
Lemma select_lookup sentences indexes chosen :
  select sentences indexes = Ok chosen →
  length chosen = length indexes
  ∧ ∀ k i, indexes !! k = Some i → chosen !! k = sentences !! i.
Proof.
  revert chosen. induction indexes as [|i rest IH]; intros chosen; simpl.
  - intros [= <-]. split; [done|]. by intros k i.
  - destruct (sentences !! i) as [sentence|] eqn:Hi; [|done].
    intros H. apply bind_Ok in H as (tail & Htail & [= <-]).
    destruct (IH _ Htail) as [Hlen Hlook]. split; [simpl; lia|].
    intros [|k] j; simpl; [by intros [= <-]|apply Hlook].
Qed.

(** With every index inside the data there is no [IndexError]. *)
Lemma select_in_range sentences indexes :
  Forall (λ i, (i < length sentences)%nat) indexes →
  ∃ chosen, select sentences indexes = Ok chosen.
Proof.
  induction 1 as [|i rest Hi _ [tail IH]]; simpl; [by eexists|].
  destruct (lookup_lt_is_Some_2 sentences i Hi) as [sentence ->].
  rewrite IH. simpl. by eexists.
Qed.

Lemma max_length_ge (lengths : list Z) (x : Z) :
  x ∈ lengths → x ≤ max_length lengths.
Proof.
  induction lengths as [|y lengths IH]; simpl.
  - by intros ?%elem_of_nil.
  - intros [->|Hin]%elem_of_cons; [lia|]. specialize (IH Hin). lia.
Qed.

Lemma max_length_nonneg (lengths : list Z) : 0 ≤ max_length lengths.
Proof. induction lengths; simpl; lia. Qed.

(** A sentence that is not longer than the width is padded to it. *)
Lemma pad_to_len (pad width : Z) (sentence : list Z) :
  len sentence ≤ width → len (pad_to pad width sentence) = width.
Proof.
  intros Hle. unfold pad_to, len in *.
  rewrite length_app, length_replicate. lia.
Qed.

(** The arrays of one field. *)
Lemma field_batch_shape l sentences indexes lengths valid allvocabs :
  field_batch l sentences indexes = Ok (lengths, valid, allvocabs) →
  length lengths = length indexes
  ∧ length valid = length indexes
  ∧ length allvocabs = length indexes
  ∧ Forall (λ row, len row = max_length lengths) valid
  ∧ Forall (λ row, len row = max_length lengths) allvocabs
  ∧ (∀ k i, indexes !! k = Some i →
       lengths !! k = len <$> sentences !! i)
  ∧ (∀ k i, indexes !! k = Some i →
       allvocabs !! k
       = pad_to (pad_id l) (max_length lengths) <$> sentences !! i)
  ∧ valid = (λ row : list Z, valid_or_unk l <$> row) <$> allvocabs.
Proof.
  unfold field_batch. intros H.
  apply bind_Ok in H as (chosen & Hsel & [= <- <- <-]).
  destruct (select_lookup _ _ _ Hsel) as [Hlen Hlook].
  assert (Hall : Forall (λ row, len row = max_length (len <$> chosen))
                   (pad_to (pad_id l) (max_length (len <$> chosen)) <$> chosen)).
  { apply Forall_fmap, Forall_forall. intros s Hs. simpl.
    apply pad_to_len, max_length_ge, list_elem_of_fmap. by exists s. }
  split_and!.
  - by rewrite length_fmap.
  - by rewrite !length_fmap.
  - by rewrite length_fmap.
  - apply Forall_fmap. eapply Forall_impl; [exact Hall|].
    intros row Hrow. simpl. unfold len in *. by rewrite length_fmap.
  - exact Hall.
  - intros k i Hk. by rewrite list_lookup_fmap, (Hlook k i Hk).
  - intros k i Hk. by rewrite list_lookup_fmap, (Hlook k i Hk).
  - done.
Qed.

(** C1: the arrays of a batch.  With [n] the number of indexes, the two
    length arrays have [n] entries (the lengths of the chosen posts and
    responses), and the four padded arrays have [n] rows, every row of
    the width [max(sent_length)] of the batch: the largest post length
    for [post] and [post_allvocabs], the largest response length for
    [resp] and [resp_allvocabs]. *)
Theorem get_batch_shape (l : loader) (set_name : string)
    (indexes : list nat) (b : batch) :
  get_batch l set_name indexes = Ok b →
  ∃ d, data l !! set_name = Some d
  ∧ length (post_length b) = length indexes
  ∧ length (resp_length b) = length indexes
  ∧ (∀ k i, indexes !! k = Some i →
       post_length b !! k = len <$> post_ids d !! i
       ∧ resp_length b !! k = len <$> resp_ids d !! i)
  ∧ length (post b) = length indexes
  ∧ length (post_allvocabs b) = length indexes
  ∧ length (resp b) = length indexes
  ∧ length (resp_allvocabs b) = length indexes
  ∧ Forall (λ row, len row = max_length (post_length b)) (post b)
  ∧ Forall (λ row, len row = max_length (post_length b)) (post_allvocabs b)
  ∧ Forall (λ row, len row = max_length (resp_length b)) (resp b)
  ∧ Forall (λ row, len row = max_length (resp_length b)) (resp_allvocabs b).
Proof.
  unfold get_batch, LanguageProcessing_get_batch.
  destruct (data l !! set_name) as [d|]; [|done].
  intros H. apply bind_Ok in H as ([[pl p] pa] & Hp & H).
  apply bind_Ok in H as ([[rl r] ra] & Hr & [= <-]). simpl.
  destruct (field_batch_shape _ _ _ _ _ _ Hp)
    as (? & ? & ? & ? & ? & Hpl & _ & _).
  destruct (field_batch_shape _ _ _ _ _ _ Hr)
    as (? & ? & ? & ? & ? & Hrl & _ & _).
  exists d. split_and!; try done.
  intros k i Hk. split; [by apply Hpl|by apply Hrl].
Qed.

(** A batch is returned for every loaded set and indexes inside it. *)
Lemma get_batch_returns (l : loader) (set_name : string)
    (indexes : list nat) (d : dataset) :
  data l !! set_name = Some d →
  Forall (λ i, (i < length (post_ids d))%nat) indexes →
  Forall (λ i, (i < length (resp_ids d))%nat) indexes →
  ∃ b, get_batch l set_name indexes = Ok b.
Proof.
  intros Hd Hp Hr. unfold get_batch, LanguageProcessing_get_batch, field_batch.
  rewrite Hd.
  destruct (select_in_range _ _ Hp) as [cp ->].
  destruct (select_in_range _ _ Hr) as [cr ->].
  simpl. by eexists.
Qed.

(** The batch of the docstring. *)
Example get_batch_example :
  get_batch example_loader "train" [0; 1]%nat = Ok example_batch.
Proof. reflexivity. Qed.

Lemma get_batch_shape_witness :
  let b := example_batch in
  ∃ d, data example_loader !! "train" = Some d
  ∧ length (post_length b) = 2%nat
  ∧ length (resp_length b) = 2%nat
  ∧ (∀ k i, [0; 1]%nat !! k = Some i →
       post_length b !! k = len <$> post_ids d !! i
       ∧ resp_length b !! k = len <$> resp_ids d !! i)
  ∧ length (post b) = 2%nat
  ∧ length (post_allvocabs b) = 2%nat
  ∧ length (resp b) = 2%nat
  ∧ length (resp_allvocabs b) = 2%nat
  ∧ Forall (λ row, len row = 5) (post b)
  ∧ Forall (λ row, len row = 5) (post_allvocabs b)
  ∧ Forall (λ row, len row = 5) (resp b)
  ∧ Forall (λ row, len row = 5) (resp_allvocabs b).
Proof.
  intros b.
  apply (get_batch_shape example_loader "train" [0; 1]%nat b).
  reflexivity.
Defined.

End BatchFacts.


(** ** Unknown words *)

Module UnknownWordsFacts.
Import Py PyFacts Utils UtilsFacts Batch BatchFacts.

(** In the arrays of a field the valid ids stay and every other id is
    [unk_id]. *)
Lemma field_batch_unk l sentences indexes lengths valid allvocabs k j id :
  field_batch l sentences indexes = Ok (lengths, valid, allvocabs) →
  allvocabs !! k ≫= (.!! j) = Some id →
  valid !! k ≫= (.!! j)
  = Some (if decide (id < frequent_vocab_size l) then id else unk_id l).
Proof.
  intros H Hid.
  destruct (field_batch_shape _ _ _ _ _ _ H) as (_ & _ & _ & _ & _ & _ & _ & ->).
  rewrite list_lookup_fmap.
  destruct (allvocabs !! k) as [row|]; simpl in *; [|done].
  rewrite list_lookup_fmap, Hid. simpl. f_equal.
  unfold valid_or_unk. destruct (Z.ltb_spec id (frequent_vocab_size l));
    case_decide; done || lia.
Qed.

(** C2: [replace_unk] returns a list of the same shape in which the
    tokens equal to [unk_token] have become [target_token] and the others
    are as before; without third argument [target_token] is [-1]; and in
    the arrays [post] and [resp] of a batch every id that is not valid is
    the one id [unk_id], the valid ids being those of the arrays with all
    vocabulary. *)
Theorem unknown_words_one_token {A : Type} `{EqDecision A}
    (sentences : list (list A)) (unk_token target_token : A)
    (id_sentences : list (list Z)) (unk : Z)
    (l : loader) (set_name : string) (indexes : list nat) (b : batch) :
  (length (replace_unk sentences unk_token target_token) = length sentences
   ∧ ∀ i sentence, sentences !! i = Some sentence →
       ∃ row, replace_unk sentences unk_token target_token !! i = Some row
         ∧ length row = length sentence
         ∧ ∀ j token, sentence !! j = Some token →
             row !! j
             = Some (if decide (token = unk_token) then target_token
                     else token))
  ∧ replace_unk_default id_sentences unk = replace_unk id_sentences unk (-1)
  ∧ (get_batch l set_name indexes = Ok b →
     ∀ k j id,
       (post_allvocabs b !! k ≫= (.!! j) = Some id →
        post b !! k ≫= (.!! j)
        = Some (if decide (id < frequent_vocab_size l) then id else unk_id l))
       ∧ (resp_allvocabs b !! k ≫= (.!! j) = Some id →
          resp b !! k ≫= (.!! j)
          = Some (if decide (id < frequent_vocab_size l) then id
                  else unk_id l))).
Proof.
  split_and!.
  - apply replace_unk_shape.
  - intros i sentence Hi. rewrite replace_unk_lookup, Hi. simpl.
    eexists. split_and!; [done|apply length_fmap|].
    intros j token Hj. by rewrite list_lookup_fmap, Hj.
  - done.
  - unfold get_batch, LanguageProcessing_get_batch.
    destruct (data l !! set_name) as [d|]; [|done].
    intros H. apply bind_Ok in H as ([[pl p] pa] & Hp & H).
    apply bind_Ok in H as ([[rl r] ra] & Hr & [= <-]). simpl.
    intros k j id. split; intros Hid.
    + by eapply field_batch_unk.
    + by eapply field_batch_unk.
Qed.

Lemma unknown_words_one_token_witness :
  replace_unk [["how"; "<unk>"]; ["<unk>"]] "<unk>" "UNK"
    = [["how"; "UNK"]; ["UNK"]]
  ∧ get_batch example_loader "train" [0; 1]%nat = Ok example_batch
  ∧ (post_allvocabs example_batch !! 0%nat ≫= (.!! 3%nat) = Some 10
     → post example_batch !! 0%nat ≫= (.!! 3%nat) = Some 1)
  ∧ (resp_allvocabs example_batch !! 0%nat ≫= (.!! 1%nat) = Some 8
     → resp example_batch !! 0%nat ≫= (.!! 1%nat) = Some 8).
Proof.
  split; [reflexivity|]. split; [reflexivity|].
  pose proof (unknown_words_one_token [["how"; "<unk>"]; ["<unk>"]] "<unk>"
                "UNK" [[2; 1]] 1 example_loader "train" [0; 1]%nat
                example_batch)
    as (_ & _ & Hbatch).
  split.
  - exact (proj1 (Hbatch eq_refl 0%nat 3%nat 10)).
  - exact (proj2 (Hbatch eq_refl 0%nat 1%nat 8)).
Defined.

End UnknownWordsFacts.

(** ** The vocabulary tiers *)

Module VocabFacts.
Import Vocab.

Section tiers.
Context {T : Type} `{EqDecision T}.
Implicit Types (t : T) (tokens : list T).

Lemma elem_of_distinct t tokens : t ∈ distinct tokens ↔ t ∈ tokens.
Proof.
  induction tokens as [|x tokens IH]; simpl; [done|].
  rewrite !elem_of_cons, list_elem_of_filter, IH.
  destruct (decide (t = x)); naive_solver.
Qed.

Lemma NoDup_distinct tokens : NoDup (distinct tokens).
Proof.
  induction tokens as [|x tokens IH]; simpl; [constructor|].
  apply NoDup_cons. split; [|by apply NoDup_filter].
  rewrite list_elem_of_filter. naive_solver.
Qed.

Variable train others : list T.
Variable min_frequent_vocab_times min_rare_vocab_times : Z.

Abbreviation whole := (whole train others).
Abbreviation frequent_vocab :=
  (frequent_vocab train others min_frequent_vocab_times).
Abbreviation rare_vocab :=
  (rare_vocab train others min_frequent_vocab_times min_rare_vocab_times).
Abbreviation unknown_vocab :=
  (unknown_vocab train others min_frequent_vocab_times
     min_rare_vocab_times).

Lemma elem_of_frequent_vocab t :
  t ∈ frequent_vocab
  ↔ t ∈ whole ∧ min_frequent_vocab_times ≤ times t train.
Proof.
  unfold Vocab.frequent_vocab.
  rewrite list_elem_of_filter, elem_of_distinct. naive_solver.
Qed.

Lemma elem_of_rare_vocab t :
  t ∈ rare_vocab
  ↔ t ∈ whole ∧ ¬ min_frequent_vocab_times ≤ times t train
    ∧ min_rare_vocab_times ≤ times t whole.
Proof.
  unfold Vocab.rare_vocab.
  rewrite list_elem_of_filter, elem_of_distinct, elem_of_frequent_vocab.
  naive_solver.
Qed.

Lemma elem_of_unknown_vocab t :
  t ∈ unknown_vocab
  ↔ t ∈ whole ∧ ¬ min_frequent_vocab_times ≤ times t train
    ∧ ¬ min_rare_vocab_times ≤ times t whole.
Proof.
  unfold Vocab.unknown_vocab.
  rewrite list_elem_of_filter, elem_of_distinct, elem_of_rare_vocab,
    elem_of_frequent_vocab.
  naive_solver.
Qed.

(** C7: every token of the corpus is in exactly one tier: frequent
    when it appears at least [min_frequent_vocab_times] times in the
    training set, else rare when it appears at least
    [min_rare_vocab_times] times in the whole dataset, else unknown;
    and the three tiers together are the vocabulary, every token
    once. *)
Theorem tiers_partition :
  (∀ t, t ∈ whole →
     tiers_of train others min_frequent_vocab_times min_rare_vocab_times t
     = [if decide (min_frequent_vocab_times ≤ times t train) then Frequent
        else if decide (min_rare_vocab_times ≤ times t whole) then Rare
        else Unknown])
  ∧ frequent_vocab ++ rare_vocab ++ unknown_vocab ≡ₚ distinct whole.
Proof.
  split.
  - intros t Ht. unfold tiers_of.
    pose proof (elem_of_frequent_vocab t) as Hf.
    pose proof (elem_of_rare_vocab t) as Hr.
    pose proof (elem_of_unknown_vocab t) as Hu.
    repeat case_decide; simpl; try done; naive_solver.
  - apply NoDup_Permutation.
    + rewrite !NoDup_app. split_and!.
      * apply NoDup_filter, NoDup_distinct.
      * intros t Hf. rewrite elem_of_app.
        rewrite elem_of_frequent_vocab in Hf.
        rewrite elem_of_rare_vocab, elem_of_unknown_vocab. naive_solver.
      * apply NoDup_filter, NoDup_distinct.
      * intros t Hr. rewrite elem_of_rare_vocab in Hr.
        rewrite elem_of_unknown_vocab. naive_solver.
      * apply NoDup_filter, NoDup_distinct.
    + apply NoDup_distinct.
    + intros t.
      rewrite !elem_of_app, elem_of_frequent_vocab, elem_of_rare_vocab,
        elem_of_unknown_vocab, elem_of_distinct.
      destruct (decide (min_frequent_vocab_times ≤ times t train));
        destruct (decide (min_rare_vocab_times ≤ times t whole));
        naive_solver.
Qed.

(** With a threshold of [0] for the rare words there are no unknown
    words (the default of [OpenSubtitles]). *)
Lemma no_unknown_words :
  min_rare_vocab_times ≤ 0 → unknown_vocab = [].
Proof.
  intros Hle. apply elem_of_nil_inv. intros t.
  rewrite elem_of_unknown_vocab. intros (_ & _ & Hn). apply Hn.
  unfold times. lia.
Qed.
End tiers.

Example tiers_example :
  let train := ["how"; "are"; "you"; "how"; "are"; "how"] in
  let others := ["fine"; "you"; "so"; "fine"] in
  frequent_vocab train others 2 = ["how"; "are"]
  ∧ rare_vocab train others 2 2 = ["you"; "fine"]
  ∧ unknown_vocab train others 2 2 = ["so"].
Proof. by split_and!. Qed.

Lemma tiers_partition_witness :
  let train := ["how"; "are"; "you"; "how"; "are"; "how"] in
  let others := ["fine"; "you"; "so"; "fine"] in
  tiers_of train others 2 2 "you" = [Rare]
  ∧ tiers_of train others 2 2 "how" = [Frequent]
  ∧ tiers_of train others 2 2 "so" = [Unknown].
Proof.
  intros train others.
  pose proof (proj1 (tiers_partition train others 2 2)) as Hone.
  split_and!.
  - apply (Hone "you"). unfold whole, train, others. set_solver.
  - apply (Hone "how"). unfold whole, train, others. set_solver.
  - apply (Hone "so"). unfold whole, train, others. set_solver.
Defined.

End VocabFacts.

(** ** The command line configuration *)

Module ConfigFacts.
Import Config.

(** C8: a key has no value before one is set; after
    [config set <key> <words...>] it has the words that were set, joined
    by single spaces, as in the two cases of [test_config]. *)
Theorem config_round_trip (key word : string) (words : list string)
    (store : gmap string string) :
  config_load key ∅ = None
  ∧ config_load key (dispatch "config" ("set" :: key :: word :: words) store)
    = Some (join_words (word :: words))
  ∧ join_words [word] = word
  ∧ (∀ w, join_words (word :: w :: words)
          = word +:+ " " +:+ join_words (w :: words))
  ∧ config_load "test_variable"
      (dispatch "config" ["set"; "test_variable"; "123"] store) = Some "123"
  ∧ config_load "test_variable"
      (dispatch "config" ["set"; "test_variable"; "123"; "456"] store)
    = Some "123 456".
Proof.
  assert (Hset : ∀ k w ws,
    config_load k (dispatch "config" ("set" :: k :: w :: ws) store)
    = Some (join_words (w :: ws))).
  { intros k w ws. unfold dispatch, config_load, config_set.
    rewrite !decide_True by done. apply lookup_insert_eq. }
  split_and!; try done; apply Hset || apply lookup_empty.
Qed.

(** The calls of [test_config] in their order. *)
Example test_config :
  let s0 : gmap string string := ∅ in
  let s1 := dispatch "config" ["set"; "test_variable"; "123"] s0 in
  let s2 := dispatch "config" ["show"; "test_variable"] s1 in
  let s3 := dispatch "config" ["set"; "test_variable"; "123"; "456"] s2 in
  let s4 := dispatch "config" ["show"; "test_variable"] s3 in
  config_load "test_variable" s0 = None
  ∧ config_load "test_variable" s2 = Some "123"
  ∧ config_load "test_variable" s4 = Some "123 456".
Proof. by split_and!. Qed.

(** Setting a key leaves the other keys as they are. *)
Lemma config_set_other (key key' word : string) (words : list string)
    (store : gmap string string) :
  key ≠ key' →
  config_load key' (dispatch "config" ("set" :: key :: word :: words) store)
  = config_load key' store.
Proof.
  intros Hne. unfold dispatch, config_load, config_set.
  rewrite !decide_True by done. by apply lookup_insert_ne.
Qed.

End ConfigFacts.


(** ** More on [cotk/_utils/utils.py] *)

Module UtilsMoreFacts.
Import Py PyFacts Utils UtilsSpec.

(** A slice with bounds in order is a [take] of a [drop]. *)
Lemma slice_take_drop {A : Type} (l : list A) (a b : Z) :
  0 ≤ a ≤ b →
  slice l a b
  = take (Z.to_nat (Z.min b (len l)) - Z.to_nat (Z.min a (len l)))
      (drop (Z.to_nat (Z.min a (len l))) l).
Proof.
  intros Hab. unfold slice, slice_bound.
  destruct (Z.ltb_spec a 0); [lia|]. destruct (Z.ltb_spec b 0); [lia|].
  f_equal. unfold len. lia.
Qed.

(** Two slices that meet make one slice. *)
Lemma slice_app {A : Type} (l : list A) (a b c : Z) :
  0 ≤ a ≤ b → b ≤ c → slice l a b ++ slice l b c = slice l a c.
Proof.
  intros Hab Hbc. rewrite !slice_take_drop by lia.
  set (n := len l).
  set (a' := Z.to_nat (Z.min a n)). set (b' := Z.to_nat (Z.min b n)).
  set (c' := Z.to_nat (Z.min c n)).
  assert (a' ≤ b' ≤ c')%nat as [Hab' Hbc'] by (unfold a', b', c'; lia).
  replace (drop b' l) with (drop (b' - a') (drop a' l))
    by (rewrite drop_drop; f_equal; lia).
  rewrite take_take_drop. f_equal. lia.
Qed.

Lemma slice_empty {A : Type} (l : list A) (a : Z) : 0 ≤ a → slice l a a = [].
Proof.
  intros Ha. rewrite slice_take_drop by lia.
  by replace (_ - _)%nat with 0%nat by lia.
Qed.

(** Inside the list a slice has the length its bounds give. *)
Lemma slice_len {A : Type} (l : list A) (a b : Z) :
  0 ≤ a ≤ b → b ≤ len l → len (slice l a b) = b - a.
Proof.
  intros Hab Hb. rewrite slice_take_drop by lia. unfold len in *.
  rewrite length_take, length_drop. lia.
Qed.

Lemma total_nonneg (lengths : list Z) :
  Forall (λ n, 0 ≤ n) lengths → 0 ≤ total lengths.
Proof. induction 1; simpl; lia. Qed.

Section utils.
Context {A : Type} `{EqDecision A}.

Lemma restore_sessions_loop_length (chained : list A) (lengths : list Z)
    (sessions : list (list A)) (last : Z) :
  length (restore_sessions_loop chained lengths sessions last)
  = (length sessions + length lengths)%nat.
Proof.
  revert sessions last.
  induction lengths as [|n lengths IH]; intros sessions last; simpl; [lia|].
  rewrite IH, length_app. simpl. lia.
Qed.

(** X1: [restore_sessions] returns one session for every entry of
    [session_lengths], whatever the entries and however short the
    chained list is. *)
Theorem restore_sessions_length (chained : list A) (lengths : list Z) :
  length (restore_sessions chained lengths) = length lengths.
Proof. unfold restore_sessions. by rewrite restore_sessions_loop_length. Qed.

Lemma restore_sessions_loop_concat (chained : list A) (lengths : list Z)
    (sessions : list (list A)) (last : Z) :
  0 ≤ last → Forall (λ n, 0 ≤ n) lengths →
  concat (restore_sessions_loop chained lengths sessions last)
  = concat sessions ++ slice chained last (last + total lengths).
Proof.
  intros Hlast Hall. revert sessions last Hlast.
  induction Hall as [|n lengths Hn Hall IH]; intros sessions last Hlast; simpl.
  - rewrite Z.add_0_r, slice_empty by done. by rewrite app_nil_r.
  - pose proof (total_nonneg _ Hall) as Htot.
    rewrite IH by lia. rewrite concat_app. simpl. rewrite app_nil_r.
    rewrite <- app_assoc. f_equal.
    rewrite Z.add_assoc. apply slice_app; lia.
Qed.

(** X2: with lengths that are not negative, the sessions that
    [restore_sessions] returns are, one after the other, the first
    [sum(session_lengths)] elements of the chained list: nothing is
    repeated or invented, and a chained list that is too short is used
    up. *)
Theorem restore_sessions_concat (chained : list A) (lengths : list Z) :
  Forall (λ n, 0 ≤ n) lengths →
  concat (restore_sessions chained lengths)
  = take (Z.to_nat (total lengths)) chained.
Proof.
  intros Hall. unfold restore_sessions.
  rewrite restore_sessions_loop_concat by done. simpl.
  pose proof (total_nonneg _ Hall) as Htot.
  rewrite slice_take_drop by lia.
  replace (Z.min 0 (len chained)) with 0 by (unfold len; lia).
  change (Z.to_nat 0) with 0%nat. rewrite drop_0, Nat.sub_0_r.
  unfold len. simpl.
  destruct (decide (total lengths ≤ Z.of_nat (length chained))).
  - by rewrite Z.min_l by done.
  - rewrite Z.min_r by lia. rewrite Nat2Z.id.
    rewrite (take_ge chained (length chained)) by lia.
    symmetry. apply take_ge. lia.
Qed.

Lemma restore_sessions_loop_lens (chained : list A) (lengths : list Z)
    (sessions : list (list A)) (last : Z) :
  0 ≤ last → Forall (λ n, 0 ≤ n) lengths →
  last + total lengths ≤ len chained →
  len <$> restore_sessions_loop chained lengths sessions last
  = (len <$> sessions) ++ lengths.
Proof.
  intros Hlast Hall. revert sessions last Hlast.
  induction Hall as [|n lengths Hn Hall IH]; intros sessions last Hlast; simpl.
  - intros _. by rewrite app_nil_r.
  - intros Hle. pose proof (total_nonneg _ Hall) as Htot.
    rewrite IH by lia. rewrite fmap_app. simpl.
    rewrite slice_len by lia. rewrite <- app_assoc. simpl.
    do 3 f_equal. lia.
Qed.

(** X3: the other round trip.  When the lengths are not negative and add
    up to the length of the chained list, chaining what
    [restore_sessions] returns gives back the chained list and the
    lengths. *)
Theorem chain_restore_sessions (chained : list A) (lengths : list Z) :
  Forall (λ n, 0 ≤ n) lengths → total lengths = len chained →
  chain_sessions (restore_sessions chained lengths) = (chained, lengths).
Proof.
  intros Hall Hsum. unfold chain_sessions, restore_sessions. f_equal.
  - rewrite restore_sessions_loop_concat by done. simpl. rewrite Hsum.
    rewrite Z.add_0_l.
    pose proof (slice_to_prefix chained []) as Hfull.
    rewrite app_nil_r in Hfull. exact Hfull.
  - rewrite restore_sessions_loop_lens; [done|lia|done|lia].
Qed.

(** X4: what [trim_before_target] returns never contains [target], so
    that trimming a second time changes nothing. *)
Theorem trim_before_target_idempotent (lists : list A) (target : A) :
  (target ∉ trim_before_target lists target)
  ∧ trim_before_target (trim_before_target lists target) target
    = trim_before_target lists target.
Proof.
  assert (Hnot : target ∉ trim_before_target lists target).
  { unfold trim_before_target.
    destruct (index lists target) as [i|] eqn:Hi.
    - destruct (index_Some _ _ _ Hi) as (pre & post & -> & Hpre & ->).
      by rewrite slice_to_prefix.
    - by apply index_None. }
  split; [done|].
  apply index_None in Hnot. unfold trim_before_target at 1. by rewrite Hnot.
Qed.

Lemma replace_unk_fmap (sentences : list (list A)) (unk target : A) :
  replace_unk sentences unk target
  = (λ sentence : list A, replaced unk target <$> sentence) <$> sentences.
Proof. done. Qed.

Lemma replaced_twice (unk target token : A) :
  replaced unk target (replaced unk target token) = replaced unk target token.
Proof. unfold replaced. repeat case_decide; congruence. Qed.

(** X5: [replace_unk] applied twice is [replace_unk] applied once; when
    [target_token] differs from [unk_token] no token of the result is
    [unk_token]; and sentences without [unk_token] come back as they
    are. *)
Theorem replace_unk_idempotent (sentences : list (list A))
    (unk_token target_token : A) :
  replace_unk (replace_unk sentences unk_token target_token)
    unk_token target_token
  = replace_unk sentences unk_token target_token
  ∧ (target_token ≠ unk_token →
     Forall (λ sentence, unk_token ∉ sentence)
       (replace_unk sentences unk_token target_token))
  ∧ (Forall (λ sentence, unk_token ∉ sentence) sentences →
     replace_unk sentences unk_token target_token = sentences).
Proof.
  rewrite !replace_unk_fmap. split_and!.
  - rewrite <- list_fmap_compose. apply list_fmap_ext. intros _ s _. simpl.
    rewrite <- list_fmap_compose. apply list_fmap_ext. intros _ x _. simpl.
    apply replaced_twice.
  - intros Hne. apply Forall_fmap, Forall_forall. intros s _. simpl.
    intros (x & Hx & _)%list_elem_of_fmap. unfold replaced in Hx.
    case_decide; congruence.
  - intros Hall. rewrite <- (list_fmap_id sentences) at 2.
    apply Forall_fmap_ext_1. eapply Forall_impl; [exact Hall|].
    intros s Hs. simpl. rewrite <- (list_fmap_id s) at 2.
    apply Forall_fmap_ext_1, Forall_forall. intros x Hx.
    unfold replaced. case_decide; [subst; done|done].
Qed.

(** X6: [replace_unk] goes through the flattening: replacing in the
    chained list (as a batch of one sentence) and restoring with the
    lengths of the sessions is the same as replacing in the sessions. *)
Theorem replace_unk_chained (sessions : list (list A))
    (unk_token target_token : A) (replaced_chain : list A) :
  replace_unk [(chain_sessions sessions).1] unk_token target_token
    = [replaced_chain] →
  replaced_chain
    = (chain_sessions (replace_unk sessions unk_token target_token)).1
  ∧ (chain_sessions (replace_unk sessions unk_token target_token)).2
    = (chain_sessions sessions).2
  ∧ restore_sessions replaced_chain (chain_sessions sessions).2
    = replace_unk sessions unk_token target_token.
Proof.
  rewrite !replace_unk_fmap. simpl. intros [= <-].
  assert (Hchain : replaced unk_token target_token <$> concat sessions
    = concat ((λ s : list A, replaced unk_token target_token <$> s)
                <$> sessions)).
  { induction sessions as [|s ss IH]; simpl; [done|].
    by rewrite fmap_app, IH. }
  assert (Hlens : len <$> ((λ s : list A, replaced unk_token target_token <$> s)
                             <$> sessions) = len <$> sessions).
  { rewrite <- list_fmap_compose. apply list_fmap_ext. intros _ s _. simpl.
    unfold len. by rewrite length_fmap. }
  split_and!; [done|done|].
  rewrite Hchain, <- Hlens. unfold restore_sessions.
  apply (UtilsFacts.restore_sessions_loop_chain [] _ []).
Qed.
End utils.

Lemma chain_restore_sessions_witness :
  chain_sessions (restore_sessions [1; 2; 3; 4; 5] [2; 0; 3])
  = ([1; 2; 3; 4; 5], [2; 0; 3]).
Proof.
  apply (chain_restore_sessions [1; 2; 3; 4; 5] [2; 0; 3]).
  - repeat constructor; lia.
  - reflexivity.
Defined.

Lemma restore_sessions_concat_witness :
  concat (restore_sessions [1; 2; 3] [2; 4; 1]) = [1; 2; 3].
Proof.
  apply (restore_sessions_concat [1; 2; 3] [2; 4; 1]).
  repeat constructor; lia.
Defined.

Lemma replace_unk_idempotent_witness :
  Forall (λ sentence, 1 ∉ sentence) (replace_unk [[2; 1; 3]; [1]] 1 0)
  ∧ replace_unk [[2; 5]; [3]] 1 0 = [[2; 5]; [3]].
Proof.
  split.
  - apply (proj1 (proj2 (replace_unk_idempotent [[2; 1; 3]; [1]] 1 0))). lia.
  - apply (proj2 (proj2 (replace_unk_idempotent [[2; 5]; [3]] 1 0))).
    repeat constructor; set_solver.
Defined.

Lemma replace_unk_chained_witness :
  restore_sessions [2; 0; 3; 0] [2; 0; 2] = replace_unk [[2; 1]; []; [3; 1]] 1 0.
Proof.
  apply (replace_unk_chained [[2; 1]; []; [3; 1]] 1 0 [2; 0; 3; 0]).
  reflexivity.
Defined.

End UtilsMoreFacts.

(** ** [get_cpu_count] *)

Module CpuCountFacts.
Import Py CpuCount.

(** X7: [get_cpu_count] never returns less than [1]; an override is
    taken before the environment; a [CPU_COUNT] that [int] rejects (the
    empty string among them) prints the message and gives [1]; without
    override and variable the result is half the number of processors,
    and at least [1]. *)
Theorem get_cpu_count_at_least_one (int_of_str : string → option Z)
    (override_cpu_count : option Z) (environ : gmap string string)
    (processors : Z) :
  1 ≤ (get_cpu_count int_of_str override_cpu_count environ processors).1
  ∧ (∀ n, override_cpu_count = Some n →
       get_cpu_count int_of_str override_cpu_count environ processors
       = (Z.max n 1, []))
  ∧ (∀ s, override_cpu_count = None → environ !! "CPU_COUNT" = Some s →
       int_of_str s = None →
       get_cpu_count int_of_str override_cpu_count environ processors
       = (1, [cpu_count_message]))
  ∧ (override_cpu_count = None → environ !! "CPU_COUNT" = None →
       get_cpu_count int_of_str override_cpu_count environ processors
       = (Z.max (processors `div` 2) 1, [])).
Proof.
  unfold get_cpu_count. split_and!.
  - destruct override_cpu_count; [simpl; lia|].
    destruct (environ !! "CPU_COUNT") as [s|]; [|simpl; lia].
    destruct (int_of_str s); simpl; lia.
  - by intros n ->.
  - by intros s -> -> ->.
  - by intros -> ->.
Qed.

Lemma get_cpu_count_at_least_one_witness :
  let int_of_str := λ s : string,
    if decide (s = "4") then Some 4 else None in
  get_cpu_count int_of_str (Some (-3)) {[ "CPU_COUNT" := "4" ]} 8 = (1, [])
  ∧ get_cpu_count int_of_str None {[ "CPU_COUNT" := "" ]} 8
    = (1, [cpu_count_message])
  ∧ get_cpu_count int_of_str None ∅ 1 = (1, []).
Proof.
  intros int_of_str.
  split_and!.
  - apply (proj1 (proj2 (get_cpu_count_at_least_one int_of_str (Some (-3))
                           {[ "CPU_COUNT" := "4" ]} 8)) (-3)). reflexivity.
  - apply (proj1 (proj2 (proj2 (get_cpu_count_at_least_one int_of_str None
                                  {[ "CPU_COUNT" := "" ]} 8))) "");
      reflexivity.
  - apply (proj2 (proj2 (proj2 (get_cpu_count_at_least_one int_of_str None
                                  ∅ 1)))); reflexivity.
Defined.

End CpuCountFacts.


(** ** More on [LoadClassInterface] *)

Module LoadClassMoreFacts.
Import Py LoadClass LoadClassFacts.

(** Once a class is found, the loop returns it only if nothing else
    matches. *)
Lemma load_class_loop_found_Ok class_name subs found r :
  load_class_loop class_name subs (Some found) = Ok r →
  r = Some found ∧ Forall (λ c, ¬ matches class_name c) subs.
Proof.
  intros Hrun.
  destruct (decide (Exists (matches class_name) subs)) as [Hex|Hno].
  - destruct (load_class_loop_found class_name subs found Hex)
      as (? & ? & ? & _ & _ & _ & Hraise).
    congruence.
  - apply not_Exists_Forall in Hno; [|apply _].
    rewrite load_class_loop_no_match in Hrun by done.
    by injection Hrun as <-.
Qed.

Lemma load_class_loop_one class_name subs c :
  load_class_loop class_name subs None = Ok (Some c) ↔
  ∃ pre post, subs = pre ++ c :: post ∧ matches class_name c
    ∧ Forall (λ x, ¬ matches class_name x) pre
    ∧ Forall (λ x, ¬ matches class_name x) post.
Proof.
  split.
  - induction subs as [|x subs IH]; simpl; [done|].
    destruct (decide (lower (name x) = lower class_name)) as [Hx|Hx].
    + intros [[= ->] Hpost]%load_class_loop_found_Ok.
      exists [], subs. split_and!; [done|done|constructor|done].
    + intros (pre & post & -> & Hc & Hpre & Hpost)%IH.
      exists (x :: pre), post. split_and!; [done|done|by constructor|done].
  - intros (pre & post & -> & Hc & Hpre & Hpost).
    induction Hpre as [|x pre Hx _ IH]; simpl.
    + unfold matches in Hc. rewrite decide_True by done.
      by apply load_class_loop_no_match.
    + unfold matches in Hx. by rewrite decide_False.
Qed.

(** [load_class] returns a class exactly when one entry of what
    [get_all_subclasses] yields has the name up to case: the class
    returned is that entry, and no entry before or after it matches. *)
Theorem load_class_returns (cls : klass) (class_name : string) (c : klass) :
  load_class cls class_name = Ok (Some c) ↔
  ∃ pre post, get_all_subclasses cls = pre ++ c :: post
    ∧ matches class_name c
    ∧ Forall (λ x, ¬ matches class_name x) pre
    ∧ Forall (λ x, ¬ matches class_name x) post.
Proof. apply load_class_loop_one. Qed.

Lemma load_class_returns_witness :
  ∃ pre post, get_all_subclasses ex_root
              = pre ++ Klass 3 "OpenSubtitles" (File "single_turn_dialog.py") [] :: post
    ∧ matches "opensubtitles" (Klass 3 "OpenSubtitles" (File "single_turn_dialog.py") [])
    ∧ Forall (λ x, ¬ matches "opensubtitles" x) pre
    ∧ Forall (λ x, ¬ matches "opensubtitles" x) post.
Proof.
  apply (proj1 (load_class_returns ex_root "opensubtitles"
                  (Klass 3 "OpenSubtitles" (File "single_turn_dialog.py") []))).
  reflexivity.
Defined.

(** The loop in terms of the entries that match, in their order. *)
Lemma load_class_loop_filter class_name subs result :
  load_class_loop class_name subs result
  = match result, filter (matches class_name) subs with
    | None, [] => Ok None
    | None, [c] => Ok (Some c)
    | None, c1 :: c2 :: _ => Raise (two_classes_error class_name c1 c2)
    | Some found, [] => Ok (Some found)
    | Some found, c :: _ => Raise (two_classes_error class_name found c)
    end.
Proof.
  revert result. induction subs as [|x subs IH]; intros result; simpl.
  - by destruct result.
  - rewrite filter_cons.
    destruct (decide (matches class_name x)) as [Hx|Hx]; unfold matches in Hx.
    + rewrite decide_True by done.
      destruct result as [found|]; [done|]. rewrite IH.
      by destruct (filter (matches class_name) subs).
    + rewrite decide_False by done. apply IH.
Qed.

(** X8: what [load_class] does is decided by the entries of
    [get_all_subclasses] that have the name up to case, in the order
    they are yielded: [None] without one, the class when there is just
    one, and with more it raises for the first two of them: the
    [RuntimeError] that names their files when [inspect.getfile] finds
    both, the exception of [inspect.getfile] (for the first of the two
    without file) otherwise. *)
Theorem load_class_by_matches (cls : klass) (class_name : string) :
  load_class cls class_name
  = match filter (matches class_name) (get_all_subclasses cls) with
    | [] => Ok None
    | [c] => Ok (Some c)
    | c1 :: c2 :: _ =>
        match getfile c1, getfile c2 with
        | File file1, File file2 =>
            Raise (RuntimeError (two_classes_message class_name file1 file2))
        | NoFile e, _ | File _, NoFile e => Raise e
        end
    end.
Proof.
  unfold load_class. rewrite load_class_loop_filter.
  destruct (filter _ _) as [|c1 [|c2 ?]]; try done.
  unfold two_classes_error. by destruct (getfile c1), (getfile c2).
Qed.

(** Two names that agree in lower case take the loop through the same
    branches; only the text of the error differs. *)
Lemma load_class_loop_case class_name class_name' subs result :
  lower class_name = lower class_name' →
  match load_class_loop class_name subs result,
        load_class_loop class_name' subs result with
  | Ok r, Ok r' => r = r'
  | Raise _, Raise _ => True
  | _, _ => False
  end.
Proof.
  intros Hlow. revert result.
  induction subs as [|x subs IH]; intros result; simpl; [done|].
  rewrite <- Hlow.
  destruct (decide (lower (name x) = lower class_name)); [|apply IH].
  destruct result; [done|apply IH].
Qed.

(** X9: the lookup does not depend on the case of [class_name]: two
    names that agree in lower case return the same class, return [None]
    together, and raise together. *)
Theorem load_class_case_insensitive (cls : klass)
    (class_name class_name' : string) :
  lower class_name = lower class_name' →
  (∀ r, load_class cls class_name = Ok r ↔ load_class cls class_name' = Ok r)
  ∧ ((∃ e, load_class cls class_name = Raise e)
     ↔ (∃ e, load_class cls class_name' = Raise e)).
Proof.
  intros Hlow. unfold load_class.
  pose proof (load_class_loop_case class_name class_name'
                (get_all_subclasses cls) None Hlow) as Hcase.
  destruct (load_class_loop class_name _ None) as [r|e|];
    destruct (load_class_loop class_name' _ None) as [r'|e'|];
    try done.
  - subst r'. split; [done|]. split; intros [? [=]].
  - split; [done|]. split; intros _; eauto.
Qed.

Lemma load_class_case_insensitive_witness :
  load_class ex_root "OPENSUBTITLES"
  = Ok (Some (Klass 3 "OpenSubtitles" (File "single_turn_dialog.py") [])).
Proof.
  apply (proj1 (load_class_case_insensitive ex_root "opensubtitles"
                  "OPENSUBTITLES" eq_refl)).
  reflexivity.
Defined.

(** X10: [get_all_subclasses] yields every class below [cls], a class
    right after its own descendants: for a direct subclass [s], what
    [s] yields is a block of what [cls] yields, followed by [s]. *)
Theorem get_all_subclasses_block (cls s : klass) :
  s ∈ subclasses cls →
  (∃ pre post,
     get_all_subclasses cls = pre ++ get_all_subclasses s ++ [s] ++ post)
  ∧ s ∈ get_all_subclasses cls
  ∧ ∀ x, x ∈ get_all_subclasses s → x ∈ get_all_subclasses cls.
Proof.
  intros Hs.
  assert (Hblock : ∃ pre post,
    get_all_subclasses cls = pre ++ get_all_subclasses s ++ [s] ++ post).
  { destruct cls as [i n f subs]. simpl in *.
    induction subs as [|x subs IH]; [by apply elem_of_nil in Hs|].
    apply elem_of_cons in Hs as [->|Hs].
    - by exists [], ((fix over (l : list klass) : list klass :=
                       match l with
                       | [] => []
                       | subclass :: l' =>
                           get_all_subclasses subclass ++ [subclass] ++ over l'
                       end) subs).
    - destruct (IH Hs) as (pre & post & Heq).
      exists (get_all_subclasses x ++ [x] ++ pre), post.
      rewrite Heq. by rewrite <- !app_assoc. }
  split; [done|]. destruct Hblock as (pre & post & ->).
  split.
  - rewrite !elem_of_app. right. right. left. left.
  - intros x Hx. rewrite !elem_of_app. right. by left.
Qed.

Lemma get_all_subclasses_block_witness :
  let s := Klass 1 "LanguageProcessing" (File "dataloader.py")
             [ Klass 2 "MSCOCO" (File "language_generation.py") [];
               Klass 3 "OpenSubtitles" (File "single_turn_dialog.py") [] ] in
  s ∈ get_all_subclasses ex_root
  ∧ ∀ x, x ∈ get_all_subclasses s → x ∈ get_all_subclasses ex_root.
Proof.
  intros s. apply (get_all_subclasses_block ex_root s). left.
Defined.

End LoadClassMoreFacts.


(** ** More on [DocStringInheritor] *)

Module DocStringMoreFacts.
Import Py PyFacts DocString DocStringSpec DocStringFacts Delegate
  DocStringMessages.

(** *** Strings *)

Lemma has_dot_split (s : string) :
  has_dot s = true → ∃ p q r, split_dot s = p :: q :: r.
Proof.
  induction s as [|c s IH]; simpl; [done|].
  destruct (decide (c = dot)) as [->|Hc].
  - intros _. destruct (split_dot s) as [|q r] eqn:Hs.
    + destruct s; simpl in Hs; [done|]. case_decide; [done|].
      by destruct (split_dot s).
    + by exists EmptyString, q, r.
  - intros (p & q & r & ->)%IH. by exists (String c p), q, r.
Qed.

Lemma no_dot_split (s : string) : has_dot s = false → split_dot s = [s].
Proof.
  induction s as [|c s IH]; simpl; [done|].
  destruct (decide (c = dot)); [done|]. intros ->%IH. done.
Qed.

Lemma split_dot_two (b a : string) :
  has_dot b = false → has_dot a = false →
  split_dot (b +:+ "." +:+ a) = [b; a]
  ∧ has_dot (b +:+ "." +:+ a) = true.
Proof.
  intros Hb Ha. induction b as [|c b IH]; simpl in *.
  - by rewrite no_dot_split.
  - destruct (decide (c = dot)); [done|].
    destruct (IH Hb) as [-> ->]. done.
Qed.

(** The group of a match has at most one dot. *)
Lemma is_group_parts pat g :
  is_group pat g = true →
  (has_dot g = false ∧ split_dot g = [g])
  ∨ (has_dot g = true ∧ ∃ p c, split_dot g = [p; c]).
Proof.
  intros Hg. destruct (has_dot g) eqn:Hdot.
  - right. split; [done|]. unfold is_group in Hg.
    destruct (has_dot_split g Hdot) as (p & q & r & Hs). rewrite Hs in Hg.
    destruct r; [|done]. by exists p, q.
  - left. split; [done|by apply no_dot_split].
Qed.

Section lookups.
Variable name : string.
Variable bases : list pyclass.

Lemma find_base_loop_outcome base_name l :
  (∃ c, find_base_loop base_name l = Ok c ∧ c ∈ l ∧ cname c = base_name)
  ∨ (find_base_loop base_name l
     = Raise (ValueError ("No bases named " +:+ base_name))
     ∧ Forall (λ c, cname c ≠ base_name) l).
Proof.
  induction l as [|c l IH]; simpl.
  - right. split; [done|constructor].
  - destruct (decide (cname c = base_name)) as [Hc|Hc].
    + left. exists c. split_and!; [done|left|done].
    + destruct IH as [(c' & -> & Hin & Hn)|[-> Hall]].
      * left. exists c'. split_and!; [done|by right|done].
      * right. split; [done|by constructor].
Qed.

Lemma find_attr_loop_outcome attr_name l :
  (∃ v, find_attr_loop attr_name l = Ok v)
  ∨ find_attr_loop attr_name l = Raise (KeyError "No such attr.").
Proof.
  induction l as [|c l IH]; simpl; [by right|].
  destruct (getattr c attr_name); [left; by eexists|done].
Qed.

Lemma replace_at_outcome pat where_ clsdict g :
  is_group pat g = true →
  (∃ v, replace_at name bases where_ clsdict g = Ok v)
  ∨ replace_at name bases where_ clsdict g
    = Raise (ValueError (no_base_message where_ g))
  ∨ replace_at name bases where_ clsdict g
    = Raise (ValueError (no_constant_message where_ g)).
Proof.
  intros Hg. unfold replace_at, find_attr.
  destruct (is_group_parts _ _ Hg) as [[-> _]|[-> (p & c & ->)]].
  - destruct (dict_get clsdict g); [left; by eexists|].
    destruct (find_attr_loop_outcome g (mro_chain bases)) as [[v ->]| ->].
    + left. by eexists.
    + right. by right.
  - unfold find_base. destruct (decide (name = p)).
    + simpl. destruct (dict_get clsdict c); [left; by eexists|].
      right. by right.
    + destruct (find_base_loop_outcome p (mro_chain bases))
        as [(k & -> & _ & _)|[-> _]]; simpl.
      * destruct (getattr k c); [left; by eexists|]. right. by right.
      * right. by left.
Qed.

(** X11: a placeholder that cannot be replaced always ends in a
    [ValueError] with one of the two messages of the source, whether the
    constant is missing in the namespace, in the bases, or the named
    base does not exist; no [KeyError] or [AttributeError] gets out.
    This holds for the handler of the class docstring and for the one
    of an attribute. *)
Theorem replace_errors_are_ValueError (pat : regex) (clsdict : dict pyval)
    (attr g : string) :
  is_group pat g = true →
  ((∃ v, replace_for_clsdict name bases clsdict g = Ok v)
   ∨ replace_for_clsdict name bases clsdict g
     = Raise (ValueError (no_base_message ("class " +:+ name) g))
   ∨ replace_for_clsdict name bases clsdict g
     = Raise (ValueError (no_constant_message ("class " +:+ name) g)))
  ∧ ((∃ v, replace_for name bases attr clsdict g = Ok v)
     ∨ replace_for name bases attr clsdict g
       = Raise (ValueError (no_base_message (name +:+ "." +:+ attr) g))
     ∨ replace_for name bases attr clsdict g
       = Raise (ValueError (no_constant_message (name +:+ "." +:+ attr) g))).
Proof.
  intros Hg. split; by eapply replace_at_outcome.
Qed.

(** X12: where a placeholder is looked up.  A constant of the namespace
    of the new class is taken before any base is asked; [<name>.<attr>]
    with the name of the new class reads its namespace; and
    [<base>.<attr>] with a name that is neither the one of the new class
    nor of a class in the orders of the bases is the "no baseclass"
    error. *)
Theorem placeholder_lookup (clsdict : dict pyval) (base_name attr_name : string)
    (v : pyval) :
  has_dot name = false → has_dot base_name = false →
  has_dot attr_name = false →
  (dict_get clsdict attr_name = Some v →
     replace_for_clsdict name bases clsdict attr_name = Ok v
     ∧ replace_for_clsdict name bases clsdict (name +:+ "." +:+ attr_name)
       = Ok v)
  ∧ (name ≠ base_name →
     Forall (λ c, cname c ≠ base_name) (mro_chain bases) →
     replace_for_clsdict name bases clsdict (base_name +:+ "." +:+ attr_name)
     = Raise (ValueError
         ("Can't find " +:+ (base_name +:+ "." +:+ attr_name)
          +:+ " when interpreting docstring of class " +:+ name
          +:+ ", because the class doesn't have a baseclass named "
          +:+ base_name +:+ "."))).
Proof.
  intros Hn Hb Ha. split.
  - intros Hv. unfold replace_for_clsdict, replace_at, find_attr. split.
    + by rewrite Ha, Hv.
    + destruct (split_dot_two name attr_name Hn Ha) as [-> ->].
      unfold find_base. rewrite decide_True by done. simpl. by rewrite Hv.
  - intros Hne Hall. unfold replace_for_clsdict, replace_at, find_attr.
    destruct (split_dot_two base_name attr_name Hb Ha) as [Hsplit ->].
    rewrite Hsplit. unfold find_base. rewrite decide_False by done.
    destruct (find_base_loop_outcome base_name (mro_chain bases))
      as [(k & _ & Hin & Hk)|[-> _]].
    + rewrite Forall_forall in Hall. by destruct (Hall k Hin).
    + simpl. unfold first_part. by rewrite Hsplit.
Qed.
End lookups.


(** *** The class that was made *)

Section created.
Variable re_sub : regex → (string → result pyval) → string → result string.
Variable docs : builtin_docs.
Variable linearize : list pyclass → dict pyval → result (list pyclass).
Variable provided : list pyclass → dict pyval → dict pyval.
Variable name : string.
Variable bases : list pyclass.

Abbreviation MDFA := "META_DOC_FOR_ATTRIBUTES".

(** The dictionary of docstrings of a class that was made, and the
    names it has entries for. *)
Lemma made_docs fuel clsdict h cls h' :
  __new__ re_sub docs linearize provided name bases fuel clsdict h
  = Ok (cls, h') →
  is_Some (dict_get (ns cls) "META_DOC")
  ∧ ∃ m, dict_get (ns cls) MDFA = Some (VDocs m)
    ∧ ∀ k, is_Some (dict_get m k) ↔
        k ∈ dict_keys clsdict ∨ k = "META_DOC" ∨ k = MDFA
        ∨ (k = "__doc__" ∧ has_own_doc clsdict = false
           ∧ is_Some (first_with_meta_doc bases)).
Proof.
  intros H. destruct (new_inv _ _ _ _ _ _ _ _ _ _ _ H) as (d6 & Hns & Htype).
  destruct (new_namespace_steps _ _ _ _ _ _ _ _ _ Hns)
    as (d1 & d2 & d4 & H01 & H12 & H34 & H56).
  destruct (loop_start _ _ _ _ _ _ _ _ H01 H12 H34)
    as (Hm5 & _ & _ & _ & Hkeys5).
  pose proof (type_new_attrs _ _ _ _ _ _ Htype) as Hattrs.
  destruct (attr_loop_docs_all _ _ _ _ _ _ _ _ _ _ _ H56 Hm5)
    as (m' & Hm' & Hall).
  split.
  - assert (Hmeta : is_Some (dict_get d6 "META_DOC")).
    { apply dict_keys_get. rewrite (attr_loop_keys _ _ _ _ _ _ _ _ _ _ H56).
      apply Hkeys5. right. by left. }
    destruct Hmeta as [v Hv]. rewrite (Hattrs _ _ Hv); [done|by left].
  - exists m'. split; [apply (Hattrs _ _ Hm'); by left|].
    intros k. rewrite Hall, Hkeys5. split; [|by left].
    by intros [Hk|[? [=]]].
Qed.

(** X13: [META_DOC_FOR_ATTRIBUTES] of a class that was made has an
    entry for exactly these names: the names of the class body,
    [META_DOC], [META_DOC_FOR_ATTRIBUTES] and, when the docstring was
    inherited, [__doc__].  So there is an entry for every attribute of
    the class body and none for an attribute that only a base has.
    [META_DOC] and [META_DOC_FOR_ATTRIBUTES] are attributes of the class
    itself. *)
Theorem made_class_entries fuel clsdict h cls h' :
  __new__ re_sub docs linearize provided name bases fuel clsdict h
  = Ok (cls, h') →
  is_Some (dict_get (ns cls) "META_DOC")
  ∧ (∃ m, dict_get (ns cls) MDFA = Some (VDocs m))
  ∧ (∀ k, is_Some (attr_meta_doc cls k) ↔
       k ∈ dict_keys clsdict ∨ k = "META_DOC" ∨ k = MDFA
       ∨ (k = "__doc__" ∧ has_own_doc clsdict = false
          ∧ is_Some (first_with_meta_doc bases))).
Proof.
  intros H. destruct (made_docs _ _ _ _ _ H) as (Hmeta & m & Hm & Hall).
  split_and!; [done|by exists m|].
  intros k. by rewrite (getattr_made_docs _ _ Hm).
Qed.

(** X14: [copy_property] on a class that was made works for every
    name of the class body, and the new property gets the entry of
    [META_DOC_FOR_ATTRIBUTES] as its docstring; for a name that is not
    in the class body and is none of [__doc__], [META_DOC] and
    [META_DOC_FOR_ATTRIBUTES], also one that a base defines, it raises
    [KeyError]. *)
Theorem copy_property_made fuel clsdict h cls h' (attr : string)
    (new_property_fget : nat) :
  __new__ re_sub docs linearize provided name bases fuel clsdict h
  = Ok (cls, h') →
  (attr ∈ dict_keys clsdict →
     ∃ doc, attr_meta_doc cls attr = Some doc
            ∧ copy_property cls attr new_property_fget
              = Ok (VProperty (Some new_property_fget) (Some doc)))
  ∧ ((attr ∉ dict_keys clsdict) →
     attr ≠ "__doc__" → attr ≠ "META_DOC" → attr ≠ MDFA →
     copy_property cls attr new_property_fget = Raise (KeyError attr)).
Proof.
  intros H. destruct (made_docs _ _ _ _ _ H) as (_ & m & Hm & Hall).
  unfold copy_property. rewrite (getattr_made_docs _ _ Hm).
  rewrite (getattr_own _ _ _ Hm). simpl. split.
  - intros Hattr. destruct (proj2 (Hall attr)) as [doc Hdoc]; [by left|].
    rewrite Hdoc. simpl. by exists doc.
  - intros Hnot Hne1 Hne2 Hne3.
    destruct (dict_get m attr) as [doc|] eqn:Hdoc; [|done].
    by destruct (proj1 (Hall attr)) as [?|[?|[?|[? _]]]].
Qed.

(** The inheritance loop fails at the first class without [META_DOC]
    when no class before it has one that is not empty. *)
Lemma inherit_class_doc_loop_missing pre c post clsdict :
  Forall (λ x, ∃ v, getattr x "META_DOC" = Some v ∧ truthy v = false) pre →
  getattr c "META_DOC" = None →
  inherit_class_doc_loop (pre ++ c :: post) clsdict
  = Raise (AttributeError "META_DOC").
Proof.
  intros Hpre Hc. induction Hpre as [|x pre (v & Hv & Ht) _ IH]; simpl.
  - by rewrite Hc.
  - by rewrite Hv, Ht.
Qed.

(** X15: a class without docstring of its own cannot be made when the
    iteration over its bases reaches a class without [META_DOC] (such as
    [object], the end of every order) before a class whose [META_DOC] is
    not empty: [__new__] raises [AttributeError], whatever the rest of
    the class body. *)
Theorem undocumented_bases_raise fuel clsdict h pre c post :
  has_own_doc clsdict = false →
  mro_chain bases = pre ++ c :: post →
  Forall (λ x, ∃ v, getattr x "META_DOC" = Some v ∧ truthy v = false) pre →
  getattr c "META_DOC" = None →
  __new__ re_sub docs linearize provided name bases fuel clsdict h
  = Raise (AttributeError "META_DOC").
Proof.
  intros Hown Hchain Hpre Hc.
  unfold __new__, new_namespace, inherit_class_doc.
  rewrite Hown, Hchain.
  by rewrite (inherit_class_doc_loop_missing pre c post clsdict Hpre Hc).
Qed.

(** The loop over the class docstring ends on a text that a further
    round leaves as it is. *)
Lemma sub_class_doc_loop_fixed fuel pat clsdict clsdict' :
  sub_class_doc_loop re_sub name bases fuel pat clsdict = Ok clsdict' →
  ∃ s, dict_get clsdict' "__doc__" = Some (VStr s)
       ∧ re_sub pat (replace_for_clsdict name bases clsdict') s = Ok s.
Proof.
  revert clsdict. induction fuel as [|fuel IH]; intros clsdict; simpl;
    [done|].
  intros H. bind_inv H. bind_inv H.
  unfold getitem in Hx.
  destruct (dict_get clsdict "__doc__") as [old|] eqn:Hold; [|done].
  injection Hx as <-.
  destruct old as [|s| | | | |]; try done. simpl in Hx0.
  destruct (decide (VStr x0 = VStr s)) as [Heq|Hne]; [|by apply (IH _ H)].
  injection H as <-. injection Heq as ->. by exists s.
Qed.

(** A string in the namespace after a round of the attribute loop was
    there before. *)
Lemma attr_step_string fuel clsdict h attr clsdict' h' k s :
  attr_step re_sub docs name bases fuel clsdict h attr = Ok (clsdict', h') →
  dict_get clsdict' k = Some (VStr s) → dict_get clsdict k = Some (VStr s).
Proof.
  intros H Hk.
  destruct (attr_step_inv _ _ _ _ _ _ _ _ _ _ H)
    as (attribute & doc1 & doc2 & Hattr & _ & _ & Hset).
  destruct (set_doc_value _ _ _ _ _ _ _ _ _ _ Hset Hk)
    as [Hmid|[_ (? & ? & [=])]].
  by destruct (meta_doc_set_value _ _ _ _ _ Hmid) as [?|(? & _ & [=])].
Qed.

Lemma attr_loop_string fuel keys clsdict h clsdict' h' k s :
  attr_loop re_sub docs name bases fuel keys clsdict h = Ok (clsdict', h') →
  dict_get clsdict' k = Some (VStr s) → dict_get clsdict k = Some (VStr s).
Proof.
  revert clsdict h. induction keys as [|attr keys IH]; intros clsdict h; simpl.
  - by intros [= <- <-].
  - intros H Hk. bind_inv H. destruct x as [d1 h1]. simpl in H.
    eapply attr_step_string; [done|]. by eapply IH.
Qed.

(** X16: the docstring of a class that was made is stable: one more
    round of the last substitution, with the namespace as it was when
    the loop ended, gives the same text.  The string constants of that
    namespace are constants of the class. *)
Theorem class_doc_is_fixed fuel clsdict h cls h' s :
  __new__ re_sub docs linearize provided name bases fuel clsdict h
  = Ok (cls, h') →
  class_doc cls = VStr s → s ≠ "" →
  ∃ d, dict_get d "__doc__" = Some (VStr s)
    ∧ re_sub ReAny (replace_for_clsdict name bases d) s = Ok s
    ∧ ∀ k c, k ≠ MDFA → dict_get d k = Some (VStr c) →
        dict_get (ns cls) k = Some (VStr c).
Proof.
  intros H Hdoc Hs.
  destruct (new_inv _ _ _ _ _ _ _ _ _ _ _ H) as (d6 & Hns & Htype).
  destruct (new_namespace_steps _ _ _ _ _ _ _ _ _ Hns)
    as (d1 & d2 & d4 & H01 & H12 & H34 & H56).
  pose proof (type_new_attrs _ _ _ _ _ _ Htype) as Hattrs.
  assert (Hkeep : ∀ k c, k ≠ MDFA → dict_get d4 k = Some (VStr c) →
                    dict_get (ns cls) k = Some (VStr c)).
  { intros k c Hk Hc.
    assert (H5 : dict_get (dict_set d4 MDFA (VDocs [])) k = Some (VStr c))
      by (by rewrite dict_get_set_ne).
    apply Hattrs; [|by right].
    rewrite (attr_loop_get _ _ _ _ _ _ _ _ _ _ k H56 Hk); [done|].
    right. intros ? ?. by rewrite H5. }
  rewrite (type_new_doc _ _ _ _ _ _ Htype) in Hdoc.
  destruct (dict_get d6 "__doc__") as [v|] eqn:Hd6; [|done].
  simpl in Hdoc. subst v.
  apply (attr_loop_string _ _ _ _ _ _ _ _ H56) in Hd6.
  rewrite dict_get_set_ne in Hd6 by done.
  unfold sub_class_doc in H34.
  destruct (truthy (default VNone (dict_get _ "__doc__"))) eqn:Ht.
  - destruct (sub_class_doc_loop_fixed _ _ _ _ H34) as (s' & Hs' & Hfix).
    rewrite Hd6 in Hs'. injection Hs' as <-. by exists d4.
  - injection H34 as <-. rewrite Hd6 in Ht. simpl in Ht.
    by rewrite bool_decide_eq_true_2 in Ht.
Qed.

End created.


(** *** Docstrings without placeholders *)



Section plain.
Variable docs : builtin_docs.
Variable linearize : list pyclass → dict pyval → result (list pyclass).
Variable provided : list pyclass → dict pyval → dict pyval.
Variable name : string.
Variable bases : list pyclass.



End plain.

(** *** The properties on the classes of the examples *)

Lemma replace_errors_are_ValueError_witness :
  replace_for_clsdict "K" [DocStringExamples.Base] [] "Other.MISSING"
  = Raise (ValueError (no_base_message "class K" "Other.MISSING"))
  ∧ replace_for "K" [DocStringExamples.Base] "f" [] "MISSING"
    = Raise (ValueError (no_constant_message "K.f" "MISSING")).
Proof.
  destruct (replace_errors_are_ValueError "K" [DocStringExamples.Base]
              ReCapital [] "f" "Other.MISSING" eq_refl) as [Hclass _].
  destruct (replace_errors_are_ValueError "K" [DocStringExamples.Base]
              ReCapital [] "f" "MISSING" eq_refl) as [_ Hattr].
  split.
  - destruct Hclass as [[v Hv]|[Hb|Hc]]; [discriminate Hv|exact Hb|
      discriminate Hc].
  - destruct Hattr as [[v Hv]|[Hb|Hc]]; [discriminate Hv|discriminate Hb|
      exact Hc].
Defined.

Lemma placeholder_lookup_witness :
  replace_for_clsdict "Derived" [DocStringExamples.Base]
    DocStringExamples.derived_dict "_NOTE" = Ok (VStr "the derived")
  ∧ replace_for_clsdict "Derived" [DocStringExamples.Base]
      DocStringExamples.derived_dict "Derived._NOTE" = Ok (VStr "the derived")
  ∧ replace_for_clsdict "Derived" [DocStringExamples.Base]
      DocStringExamples.derived_dict "Other._NOTE"
    = Raise (ValueError
        "Can't find Other._NOTE when interpreting docstring of class Derived, because the class doesn't have a baseclass named Other.").
Proof.
  destruct (placeholder_lookup "Derived" [DocStringExamples.Base]
              DocStringExamples.derived_dict "Other" "_NOTE"
              (VStr "the derived") eq_refl eq_refl eq_refl) as [Hown Hbase].
  split_and!.
  - apply (Hown eq_refl).
  - apply (Hown eq_refl).
  - apply Hbase; [discriminate|]. repeat constructor; discriminate.
Defined.

Section witnesses.
Import DocStringExamples.

Lemma new_Derived_made :
  __new__ re_sub_ascii ex_builtin_docs linearize_keep_last ex_provided
    "Derived" [Base] 5 derived_dict ex_heap
  = Ok (Derived, <[2%nat := Some "Load the derived."]> ex_heap).
Proof. vm_compute. reflexivity. Qed.



Lemma made_class_entries_witness :
  is_Some (attr_meta_doc Derived "f")
  ∧ ¬ is_Some (attr_meta_doc Derived "FILE_ID_DEFAULT")
  ∧ hasattr Derived "FILE_ID_DEFAULT" = true.
Proof.
  destruct (made_class_entries re_sub_ascii ex_builtin_docs linearize_keep_last
              ex_provided "Derived" [Base] 5 derived_dict ex_heap Derived _
              new_Derived_made)
    as (_ & _ & Hiff).
  split_and!.
  - apply Hiff. left. vm_compute. set_solver.
  - intros Hin%Hiff. destruct Hin as [Hin|[Hin|[Hin|[Hin _]]]];
      [vm_compute in Hin; set_solver|discriminate..].
  - reflexivity.
Defined.

Lemma copy_property_made_witness :
  copy_property Derived "f" 8
    = Ok (VProperty (Some 8%nat) (Some "Load {_NOTE}."))
  ∧ copy_property Derived "FILE_ID_DEFAULT" 8
    = Raise (KeyError "FILE_ID_DEFAULT").
Proof.
  destruct (copy_property_made re_sub_ascii ex_builtin_docs linearize_keep_last
              ex_provided "Derived" [Base] 5 derived_dict ex_heap Derived _
              "f" 8%nat new_Derived_made) as [Hown _].
  destruct (copy_property_made re_sub_ascii ex_builtin_docs linearize_keep_last
              ex_provided "Derived" [Base] 5 derived_dict ex_heap Derived _
              "FILE_ID_DEFAULT" 8%nat new_Derived_made) as [_ Hbase].
  split.
  - destruct Hown as (doc & Hdoc & Hcopy).
    { vm_compute. set_solver. }
    vm_compute in Hdoc. injection Hdoc as <-. exact Hcopy.
  - apply Hbase; [vm_compute; set_solver|discriminate..].
Defined.

Lemma undocumented_bases_raise_witness :
  let Top := made (new_ascii "Top" [] 5 [] ex_heap) in
  new_ascii "Sub" [Top] 5 [("f", VFunction 7)] ex_heap
  = Raise (AttributeError "META_DOC").
Proof.
  intros Top.
  apply (undocumented_bases_raise re_sub_ascii ex_builtin_docs
           linearize_keep_last ex_provided "Sub" [Top] 5
           [("f", VFunction 7)] ex_heap [Top] object_ []).
  - reflexivity.
  - reflexivity.
  - repeat constructor. by exists VNone.
  - reflexivity.
Defined.


Lemma class_doc_is_fixed_witness :
  ∃ d, dict_get d "__doc__"
       = Some (VStr "A loader. file_id: no default See the derived.")
    ∧ re_sub_ascii ReAny
        (replace_for_clsdict "Derived" [Base] d)
        "A loader. file_id: no default See the derived."
      = Ok "A loader. file_id: no default See the derived."
    ∧ ∀ k c, k ≠ "META_DOC_FOR_ATTRIBUTES" → dict_get d k = Some (VStr c) →
        dict_get (ns Derived) k = Some (VStr c).
Proof.
  apply (class_doc_is_fixed re_sub_ascii ex_builtin_docs linearize_keep_last
           ex_provided "Derived" [Base] 5 derived_dict ex_heap Derived _
           "A loader. file_id: no default See the derived." new_Derived_made);
    [reflexivity|discriminate].
Defined.

End witnesses.

End DocStringMoreFacts.


(** ** More on [SingleTurnDialog] and [OpenSubtitles] *)

Module SingleTurnDialogMoreFacts.
Import Py SingleTurnDialog.

Section init.
Context {P O V R : Type}.
Variable PretrainedVocab : P → result V.
Variable super_init :
  field_parameters P O V → option vocab_parameters →
  string → list (string * string) → dataloader R → result () * dataloader R.
Variable set_default_field :
  string → string → dataloader R → result () * dataloader R.

(** With a [pretrained] name the two thresholds of the vocabulary
    are not used: whatever [min_frequent_vocab_times] and
    [min_rare_vocab_times] are, [__init__] does the same, error or
    not. *)
Theorem pretrained_ignores_thresholds (file_id : string)
    (tokenizer : tokenizer_arg P O) (max_sent_length : option Z)
    (convert_to_lower_letter : option bool)
    (min_frequent min_rare min_frequent' min_rare' : option Z)
    (pretrained : string) (self : dataloader R) :
  SingleTurnDialog.__init__ PretrainedVocab super_init set_default_field
    file_id tokenizer max_sent_length convert_to_lower_letter
    min_frequent min_rare (Some pretrained) self
  = SingleTurnDialog.__init__ PretrainedVocab super_init set_default_field
      file_id tokenizer max_sent_length convert_to_lower_letter
      min_frequent' min_rare' (Some pretrained) self.
Proof. reflexivity. Qed.

(** Without a [pretrained] name [set_default_field] is called only
    after [super().__init__] has returned: when that raises, the
    exception and the object are the ones it left; and what goes to
    [super().__init__] is the object with [_pretrained] set to [None]
    and nothing else changed. *)
Theorem plain_init_order (file_id : string) (tokenizer : tokenizer_arg P O)
    (max_sent_length : option Z) (convert_to_lower_letter : option bool)
    (min_frequent min_rare : option Z) (self : dataloader R) :
  let parameters :=
    FieldParameters tokenizer None max_sent_length convert_to_lower_letter in
  let fields := [("post", "SentenceDefault"); ("resp", "SentenceDefault")] in
  let before := Dataloader (Some None) (base self) in
  let run :=
    SingleTurnDialog.__init__ PretrainedVocab super_init set_default_field
      file_id tokenizer max_sent_length convert_to_lower_letter
      min_frequent min_rare None self in
  let inner :=
    super_init parameters (Some (VocabParameters min_frequent min_rare))
      file_id fields before in
  (∀ e after, inner = (Raise e, after) → run = (Raise e, after))
  ∧ (∀ after, inner = (Ok (), after) →
       run = set_default_field "train" "post" after).
Proof.
  simpl. unfold SingleTurnDialog.__init__. split.
  - by intros e after ->.
  - by intros after ->.
Qed.
End init.

Section open_subtitles.
Context {P O V R : Type}.
Variable PretrainedVocab : P → result V.
Variable super_init :
  field_parameters P O V → option vocab_parameters →
  string → list (string * string) → dataloader R → result () * dataloader R.
Variable set_default_field :
  string → string → dataloader R → result () * dataloader R.

(** X19: [OpenSubtitles(pretrained="gpt2")] without a tokenizer, or
    with the name of one, raises the [ValueError] of the missing
    pretrained tokenizer: the default ["nltk"] is not a
    [PretrainedTokenizer].  Only [_pretrained] has been recorded. *)
Theorem open_subtitles_gpt2_needs_tokenizer (file_id : option string)
    (tokenizer : option (tokenizer_arg P O))
    (max_sent_length : option (option Z))
    (convert_to_lower_letter : option (option bool))
    (min_frequent min_rare : option (option Z)) (self : dataloader R) :
  tokenizer = None ∨ (∃ s, tokenizer = Some (TokName s)) →
  OpenSubtitles.__init__ PretrainedVocab super_init set_default_field
    file_id tokenizer max_sent_length convert_to_lower_letter
    min_frequent min_rare (Some (Some "gpt2")) self
  = (Raise (ValueError
       "tokenize should be loaded first if you want a gpt2 dataloader"),
     Dataloader (Some (Some "gpt2")) (base self)).
Proof. by intros [->|[s ->]]. Qed.

(** [OpenSubtitles()] with all its defaults asks
    [super().__init__] for the resource [resources://OpenSubtitles], the
    tokenizer ["nltk"], sentences of at most [50] tokens, no lower
    casing, and the thresholds [10] and [0], with the two fields [post]
    and [resp] of the default sentence class; neither [ValueError] of
    [SingleTurnDialog.__init__] can come up. *)
Theorem open_subtitles_defaults (self : dataloader R) :
  let inner :=
    super_init
      (FieldParameters (TokName "nltk") None (Some 50) (Some false))
      (Some (VocabParameters (Some 10) (Some 0)))
      "resources://OpenSubtitles"
      [("post", "SentenceDefault"); ("resp", "SentenceDefault")]
      (Dataloader (Some None) (base self)) in
  OpenSubtitles.__init__ PretrainedVocab super_init set_default_field
    None None None None None None None self
  = match inner with
    | (Ok _, after) => set_default_field "train" "post" after
    | other => other
    end.
Proof.
  simpl. unfold OpenSubtitles.__init__, SingleTurnDialog.__init__. simpl.
  by destruct (super_init _ _ _ _ _) as [[[]| |] after].
Qed.
End open_subtitles.

Lemma open_subtitles_gpt2_needs_tokenizer_witness :
  OpenSubtitles.__init__ (λ t : string, Ok (String.length t))
    (λ (_ : field_parameters string () nat) _ _ fields self,
       (Ok (), Dataloader (_pretrained self) (fields.*1 ++ base self)))
    (λ _ field self, (Ok (), Dataloader (_pretrained self) (field :: base self)))
    None None None None None None (Some (Some "gpt2")) (Dataloader None [])
  = (Raise (ValueError
       "tokenize should be loaded first if you want a gpt2 dataloader"),
     Dataloader (Some (Some "gpt2")) []).
Proof.
  apply (open_subtitles_gpt2_needs_tokenizer
           (λ t : string, Ok (String.length t))
           (λ (_ : field_parameters string () nat) _ _ fields self,
              (Ok (), Dataloader (_pretrained self) (fields.*1 ++ base self)))
           (λ _ field self,
              (Ok (), Dataloader (_pretrained self) (field :: base self)))
           None None None None None None (Dataloader None [])).
  by left.
Defined.

Lemma plain_init_order_witness :
  SingleTurnDialog.__init__ (λ t : string, Ok (String.length t))
    (λ (_ : field_parameters string () nat) _ _ _ self,
       (Raise (KeyError "no such resource"),
        Dataloader (_pretrained self) ("half" :: base self)))
    (λ _ field self, (Ok (), Dataloader (_pretrained self) (field :: base self)))
    "resources://Nothing" (TokName "nltk") (Some 50) (Some false)
    (Some 10) (Some 0) None (Dataloader None [])
  = (Raise (KeyError "no such resource"), Dataloader (Some None) ["half"]).
Proof.
  apply (proj1 (plain_init_order (λ t : string, Ok (String.length t))
    (λ (_ : field_parameters string () nat) _ _ _ self,
       (Raise (KeyError "no such resource"),
        Dataloader (_pretrained self) ("half" :: base self)))
    (λ _ field self, (Ok (), Dataloader (_pretrained self) (field :: base self)))
    "resources://Nothing" (TokName "nltk") (Some 50) (Some false)
    (Some 10) (Some 0) (Dataloader None []))).
  reflexivity.
Defined.

End SingleTurnDialogMoreFacts.

